(** * CLImage: provider abstraction, model settings and interactive session

    A shallow embedding of the Go packages [providers], [config] and [cmd]
    of CLImage, and the properties of its specification checked against it.

    Conventions of the embedding:
    - a Go package is a Rocq [Module] carrying the package's name;
    - a Go [string] is a [string] (a sequence of bytes), a Go [int] is a [Z]
      inside the 64-bit range;
    - a function returning [(T, error)] returns a pair whose second component
      is an [option error], [None] standing for the [nil] error;
    - [map[string]string] is a [gmap string string];
    - mutable program state (the provider's live handle, the secret store,
      the files written, the cells the settings slices point to) is passed
      explicitly;
    - [log.Printf] calls write to the diagnostic log only and are left out;
      [context.Context] only carries deadlines and is left out as well. *)

From Stdlib Require Import ZArith Ascii String List Lia Bool.
From Stdlib Require HexadecimalString HexadecimalNat.
From stdpp Require Import base gmap strings list.
Import ListNotations.

Local Open Scope string_scope.

Set Warnings "-register-all".

(** ** Package [errors] (and the error values of [fmt.Errorf]) *)

Module errors.

(** An error value.  [Sentinel] is a package-level [errors.New] value,
    named after the variable that holds it: such values are compared by
    identity, never by text.  [Errorf] is a [fmt.Errorf] without [%w],
    [Wrapf] one with a single [%w]; both keep the format string and the
    other arguments apart instead of formatting them.  [Join] is
    [errors.Join]. *)
Inductive error : Type :=
| Sentinel (var : string)
| Errorf (format : string) (args : list string)
| Wrapf (format : string) (args : list string) (inner : error)
| Join (errs : list error).

(** [errors.Is(err, target)] for a sentinel [target]: walks the chain of
    wrapped errors, and every branch of a joined error. *)
Fixpoint Is (err : error) (target : string) : bool :=
  match err with
  | Sentinel var => String.eqb var target
  | Errorf _ _ => false
  | Wrapf _ _ inner => Is inner target
  | Join errs => existsb (fun e => Is e target) errs
  end.

End errors.
Export errors.

(** ** Package [strconv]: [Atoi] on a 64-bit platform *)

Module strconv.

Local Open Scope Z_scope.

Inductive NumError := ErrSyntax | ErrRange.

Definition isDigit (c : ascii) : bool :=
  ((48 <=? nat_of_ascii c) && (nat_of_ascii c <=? 57))%nat.

Definition digitVal (c : ascii) : Z := Z.of_nat (nat_of_ascii c) - 48.

Definition isSign (c : ascii) : bool :=
  Ascii.eqb c "+" || Ascii.eqb c "-".

Definition maxUint64 : Z := 2 ^ 64 - 1.

(** The digit loop of [ParseUint(s, 10, 64)], started with accumulator [n].
    With base 10 an underscore or a letter is a syntax error. *)
Fixpoint ParseUint_loop (s : string) (n : Z) : Z * option NumError :=
  match s with
  | EmptyString => (n, None)
  | String c s' =>
      if isDigit c then
        if n >=? maxUint64 / 10 + 1 then (maxUint64, Some ErrRange)
        else
          let n1 := n * 10 + digitVal c in
          if n1 >? maxUint64 then (maxUint64, Some ErrRange)
          else ParseUint_loop s' n1
      else (0, Some ErrSyntax)
  end.

Definition ParseUint (s : string) : Z * option NumError :=
  match s with
  | EmptyString => (0, Some ErrSyntax)
  | _ => ParseUint_loop s 0
  end.

(** [ParseInt(s, 10, 0)]: sign, then [ParseUint], then the range check
    against [cutoff = 1 << 63]. *)
Definition ParseInt (s : string) : Z * option NumError :=
  match s with
  | EmptyString => (0, Some ErrSyntax)
  | String c rest =>
      let neg := Ascii.eqb c "-" in
      let s1 := if isSign c then rest else s in
      let '(un, err) := ParseUint s1 in
      match err with
      | Some ErrSyntax => (0, err)
      | _ =>
          let cutoff := 2 ^ 63 in
          if negb neg && (un >=? cutoff) then (cutoff - 1, Some ErrRange)
          else if neg && (un >? cutoff) then (- cutoff, Some ErrRange)
          else (if neg then - un else un, None)
      end
  end.

(** The loop of the fast path of [Atoi]: no overflow check is needed for
    fewer than 19 bytes. *)
Fixpoint Atoi_fast (s : string) (n : Z) : Z * option NumError :=
  match s with
  | EmptyString => (n, None)
  | String c s' =>
      if isDigit c then Atoi_fast s' (n * 10 + digitVal c)
      else (0, Some ErrSyntax)
  end.

Definition Atoi (s : string) : Z * option NumError :=
  let sLen := String.length s in
  if ((0 <? sLen) && (sLen <? 19))%nat then
    match s with
    | EmptyString => (0, Some ErrSyntax)
    | String c rest =>
        let s1 := if isSign c then rest else s in
        if isSign c && (String.length s1 <? 1)%nat then (0, Some ErrSyntax)
        else
          let '(n, err) := Atoi_fast s1 0 in
          match err with
          | Some _ => (0, err)
          | None => (if Ascii.eqb c "-" then - n else n, None)
          end
    end
  else ParseInt s.

End strconv.

(** ** Package [strings] and [slices] *)

Module strings.

Fixpoint trimPrefix (s prefix : string) : option string :=
  match prefix, s with
  | EmptyString, _ => Some s
  | String p prefix', String c s' =>
      if Ascii.eqb p c then trimPrefix s' prefix' else None
  | String _ _, EmptyString => None
  end.

(** [strings.CutPrefix(s, prefix)]: [s] without the prefix and [true], or
    [s] itself and [false]. *)
Definition CutPrefix (s prefix : string) : string * bool :=
  match trimPrefix s prefix with
  | Some after => (after, true)
  | None => (s, false)
  end.

Definition HasPrefix (s prefix : string) : bool :=
  match trimPrefix s prefix with Some _ => true | None => false end.

(** [strings.Split(s, sep)] for a one-byte separator, the only use in the
    program: one field more than there are separators, so the empty
    string has the one field [""]. *)
Fixpoint Split (s : string) (sep : ascii) : list string :=
  match s with
  | EmptyString => [EmptyString]
  | String c s' =>
      if Ascii.eqb c sep then EmptyString :: Split s' sep
      else
        match Split s' sep with
        | field :: fields => String c field :: fields
        | [] => [String c EmptyString]
        end
  end.

(** [strings.SplitN(s, sep, 2)] for a one-byte separator: cut at the first
    separator, if there is one. *)
Fixpoint SplitN2 (s : string) (sep : ascii) : list string :=
  match s with
  | EmptyString => [EmptyString]
  | String c s' =>
      if Ascii.eqb c sep then [EmptyString; s']
      else
        match SplitN2 s' sep with
        | [before; after] => [String c before; after]
        | _ => [s]
        end
  end.

End strings.

Module slices.

Definition Contains (l : list string) (v : string) : bool :=
  existsb (String.eqb v) l.

End slices.

(** ** The libraries behind the Google provider

    [github.com/zalando/go-keyring] (the secret store) and
    [google.golang.org/genai] (the backend SDK) are not part of the
    repository.  The secret store is an interface; the backend is a set of
    results the environment hands back. *)

Module keyring.

(** [keyring.ErrNotFound]: "secret not found in keyring". *)
Definition ErrNotFound : error := Sentinel "keyring.ErrNotFound".

(** The library's [Keyring] interface over a store of type [K]. *)
Class Keyring (K : Type) := {
  Set_ : string -> string -> string -> K -> K * option error;
  Get : string -> string -> K -> string * option error;
  Delete : string -> string -> K -> K * option error
}.

(** The library's in-memory provider ([mockProvider]), a map from service
    and user to the secret.  It has the contract the library documents
    for every platform: [Get] and [Delete] of an entry that is not there
    return [ErrNotFound]. *)
#[global] Instance mockProvider : Keyring (gmap (string * string) string) := {|
  Set_ service user password k := (<[(service, user) := password]> k, None);
  Get service user k :=
    match k !! (service, user) with
    | Some password => (password, None)
    | None => ("", Some ErrNotFound)
    end;
  Delete service user k :=
    match k !! (service, user) with
    | Some _ => (delete (service, user) k, None)
    | None => (k, Some ErrNotFound)
    end
|}.

End keyring.

Module genai.

(** A live client, made from a [ClientConfig] with an [APIKey]. *)
Record Client := { APIKey : string }.

Record GenerateImagesConfig := {
  NumberOfImages : Z;
  AspectRatio : string;
  IncludeRAIReason : bool
}.

Record Image := { ImageBytes : list Byte.byte; MIMEType : string }.

(** One entry of a response.  The SDK allocates an [Image] for every
    entry; an image filtered upstream comes back with an empty [Image]
    and the reason in [RAIFilteredReason]. *)
Record GeneratedImage := { Image_ : Image; RAIFilteredReason : string }.

Record GenerateImagesResponse := { GeneratedImages : list GeneratedImage }.

End genai.

(** ** Package [providers]: settings schema and typed accessors *)

Module providers.

Record ModelSetting := {
  DisplayName : string;
  Name : string;
  Type_ : string;
  DefaultValue : string;
  Value : string
}.

(** [ModelSettings] is [[]*ModelSetting]: a slice of pointers.  A pointer
    is the address of a cell of the [Store]; the slices of the catalog
    and of the session share the cells they point to, so a value edited
    through one slice is seen through every other.  Catalog literals
    allocate every entry: no entry is [nil]. *)
Definition ptr := nat.
Definition Store := ptr -> ModelSetting.
Definition ModelSettings := list ptr.

Definition setValue (h : Store) (p : ptr) (v : string) : Store :=
  fun q =>
    if Nat.eqb q p then
      {| DisplayName := DisplayName (h p); Name := Name (h p);
         Type_ := Type_ (h p); DefaultValue := DefaultValue (h p);
         Value := v |}
    else h q.

(** [Model]; its fields [Name] and [DisplayName] carry the record's name
    here, [ModelSetting] having fields of the same names. *)
Record Model := {
  ModelName : string;
  ModelDisplayName : string;
  Settings : ModelSettings
}.

Section IsOfType.

(** [strconv.ParseFloat] is the Go library's floating-point parser;
    the program only looks at whether it returns an error. *)
Context {float64 : Type}.
Variable ParseFloat : string -> Z -> float64 * option strconv.NumError.

Definition IsOfType (v t : string) : bool :=
  if String.eqb t "int" then
    match snd (strconv.Atoi v) with None => true | Some _ => false end
  else if String.eqb t "float" then
    match snd (ParseFloat v 64) with None => true | Some _ => false end
  else if String.eqb t "string" then true
  else if String.eqb t "boolean" then
    String.eqb v "true" || String.eqb v "false"
  else
    let '(union, ok) := strings.CutPrefix t "enum:" in
    if ok then
      let unionFields := strings.Split union "|" in
      if Nat.eqb (length unionFields) 0 then false
      else if Nat.leb (length unionFields) 8 then
        slices.Contains unionFields v
      else slices.Contains unionFields v
    else false.

End IsOfType.

Fixpoint GetModelSettingString (h : Store) (ms : ModelSettings)
    (name defaultValue : string) : string :=
  match ms with
  | [] => defaultValue
  | m :: ms' =>
      if String.eqb (Name (h m)) name then Value (h m)
      else GetModelSettingString h ms' name defaultValue
  end.

Fixpoint GetModelSettingBool (h : Store) (ms : ModelSettings)
    (name : string) (defaultValue : bool) : bool :=
  match ms with
  | [] => defaultValue
  | m :: ms' =>
      if String.eqb (Name (h m)) name then String.eqb (Value (h m)) "true"
      else GetModelSettingBool h ms' name defaultValue
  end.

Fixpoint GetModelSettingInt (h : Store) (ms : ModelSettings)
    (name : string) (defaultValue : Z) : Z :=
  match ms with
  | [] => defaultValue
  | m :: ms' =>
      if String.eqb (Name (h m)) name then
        let '(v, err) := strconv.Atoi (Value (h m)) in
        match err with
        | Some _ => defaultValue
        | None => v
        end
      else GetModelSettingInt h ms' name defaultValue
  end.

(** The cells [HuhGroup] binds a form field to, in field order: one per
    setting of a known type.  An [enum:] setting always has a field,
    since [strings.Split] never returns an empty slice. *)
Definition hasField (t : string) : bool :=
  String.eqb t "int" || String.eqb t "float" || String.eqb t "string"
  || String.eqb t "boolean"
  || (snd (strings.CutPrefix t "enum:")
      && negb (Nat.eqb (length (strings.Split (fst (strings.CutPrefix t "enum:")) "|")) 0)).

(** [ModelSettings.HuhGroup]: seeds every empty [Value] from a non-empty
    [DefaultValue], in place, and returns the cells of the fields built.
    The seeding happens while the group is built, before the form runs. *)
Fixpoint HuhGroup (h : Store) (ms : ModelSettings) : Store * list ptr :=
  match ms with
  | [] => (h, [])
  | m :: ms' =>
      let h1 :=
        if String.eqb (Value (h m)) "" && negb (String.eqb (DefaultValue (h m)) "")
        then setValue h m (DefaultValue (h m)) else h in
      let '(h2, fields) := HuhGroup h1 ms' in
      (h2, if hasField (Type_ (h1 m)) then m :: fields else fields)
  end.

(** [LoginField], with [Name], [DisplayName] and [Type] renamed likewise. *)
Record LoginField := {
  FieldName : string;
  FieldDisplayName : string;
  FieldType : string;
  Secret : bool
}.

Definition keyringServiceName : string := "climage".

(** The [Provider] interface.  [W] is the state the providers' methods
    act on: live handles, the secret store, the files written.
    [GetName] and [GetModels] read constants of the provider. *)
Record Provider (W : Type) := {
  GetName : string;
  GetLoginFields : list LoginField;
  SaveCredentials : gmap string string -> W -> W * option error;
  LoadCredentials : W -> W * (gmap string string * option error);
  DeleteCredentials : W -> W * option error;
  Login : gmap string string -> W -> W * option error;
  GenerateImage :
    string -> string -> Store -> ModelSettings -> W ->
    W * (list string * option error);
  GetModels : list Model;
  Close : W -> W * option error
}.

Arguments GetName {W} _.
Arguments GetLoginFields {W} _.
Arguments SaveCredentials {W} _ _ _.
Arguments LoadCredentials {W} _ _.
Arguments DeleteCredentials {W} _ _.
Arguments Login {W} _ _ _.
Arguments GenerateImage {W} _ _ _ _ _ _.
Arguments GetModels {W} _.
Arguments Close {W} _ _.

Section Registry.

Context {W : Type}.

(** The package variable [Providers], in registration order. *)
Variable Providers : list (Provider W).

Definition GetProviderNames : list string := map GetName Providers.

Fixpoint GetProviderByName_loop (ps : list (Provider W)) (name : string)
    : option (Provider W) * option error :=
  match ps with
  | [] => (None, Some (Errorf "provider %q not found" [name]))
  | p :: ps' =>
      if String.eqb (GetName p) name then (Some p, None)
      else GetProviderByName_loop ps' name
  end.

Definition GetProviderByName (name : string)
    : option (Provider W) * option error :=
  GetProviderByName_loop Providers name.

(** The loop of [Close]: every provider is closed on the state the
    previous ones left, a failure is appended to [errs]. *)
Fixpoint Close_loop (ps : list (Provider W)) (w : W) (errs : list error)
    : W * list error :=
  match ps with
  | [] => (w, errs)
  | p :: ps' =>
      let '(w', r) := Close p w in
      match r with
      | Some err =>
          Close_loop ps' w'
            (errs ++ [Wrapf "failed to close provider %q: %w" [GetName p] err])
      | None => Close_loop ps' w' errs
      end
  end.

(** The package function [Close], which closes all providers.  It goes by
    the name the specification gives it, [CloseAll]: in this module
    [Close] is the method of the interface. *)
Definition CloseAll (w : W) : W * option error :=
  let '(w', errs) := Close_loop Providers w [] in
  if Nat.ltb 0 (length errs) then (w', Some (Join errs)) else (w', None).

End Registry.

(** *** The Google provider *)

(** What the environment answers to the Google provider: the SDK calls,
    the downloads directory ([downloads.GetUserDownloadsDir], cached),
    the clock ([time.Now().Format(time.RFC3339)]) and whether a file can
    be written ([os.WriteFile]). *)
Record Env := {
  NewClient : string -> genai.Client + error;
  GenerateImages :
    genai.Client -> string -> string -> genai.GenerateImagesConfig ->
    genai.GenerateImagesResponse + error;
  GetUserDownloadsDir : string * option error;
  Now : string;
  WriteFile : string -> list Byte.byte -> option error
}.

(** The state the Google provider acts on: its [client] field ([None] is
    [nil]), the secret store and the files written so far. *)
Record GoogleState (K : Type) := {
  client : option genai.Client;
  secrets : K;
  files : gmap string (list Byte.byte)
}.

Arguments client {K} _.
Arguments secrets {K} _.
Arguments files {K} _.

(** [int32(n)] of a Go [int]: the low 32 bits, signed. *)
Definition int32 (n : Z) : Z := ((n + 2 ^ 31) mod 2 ^ 32 - 2 ^ 31)%Z.

(** [filepath.Join(dir, name)] of a clean directory and one more
    element: an empty element is dropped, and cleaning changes nothing. *)
Definition filepath_Join (dir name : string) : string :=
  if String.eqb dir "" then name else dir ++ "/" ++ name.

(** [fmt.Sprintf("%x", i)] of an index. *)
Definition fmt_x (i : nat) : string :=
  HexadecimalString.NilZero.string_of_uint (Nat.to_hex_uint i).

(** The cells of the literal [googleSettings], allocated at addresses 0
    and 1 when the package is initialised. *)
Definition googleSettings : ModelSettings := [0; 1].

Definition googleCells : Store := fun p =>
  match p with
  | 0 => {| DisplayName := "Number of Images"; Name := "number_of_images";
            Type_ := "int"; DefaultValue := "1"; Value := "" |}
  | 1 => {| DisplayName := "Aspect Ratio"; Name := "aspect_ratio";
            Type_ := "enum:1:1|16:9|4:3|9:16|3:4"; DefaultValue := "1:1";
            Value := "" |}
  | _ => {| DisplayName := ""; Name := ""; Type_ := ""; DefaultValue := "";
            Value := "" |}
  end.

Definition GoogleModels : list Model := [
  {| ModelName := "imagen-4.0-generate-001"; ModelDisplayName := "Imagen 4";
     Settings := googleSettings |};
  {| ModelName := "imagen-4.0-ultra-generate-001";
     ModelDisplayName := "Imagen 4 Ultra"; Settings := googleSettings |};
  {| ModelName := "imagen-4.0-fast-generate-001";
     ModelDisplayName := "Imagen 4 Fast"; Settings := googleSettings |}
].

Section GoogleProvider.

Context {K : Type} `{!keyring.Keyring K}.
Variable env : Env.

Definition withClient (w : GoogleState K) (c : option genai.Client)
    : GoogleState K :=
  {| client := c; secrets := secrets w; files := files w |}.

Definition withSecrets (w : GoogleState K) (k : K) : GoogleState K :=
  {| client := client w; secrets := k; files := files w |}.

Definition withFile (w : GoogleState K) (path : string)
    (content : list Byte.byte) : GoogleState K :=
  {| client := client w; secrets := secrets w;
     files := <[path := content]> (files w) |}.

Definition Google_GetLoginFields : list LoginField :=
  [{| FieldName := "api_key"; FieldDisplayName := "API Key";
      FieldType := "string"; Secret := true |}].

Definition Google_SaveCredentials (credentials : gmap string string)
    (w : GoogleState K) : GoogleState K * option error :=
  match credentials !! "api_key" with
  | None => (w, Some (Errorf "api_key not provided" []))
  | Some apiKey =>
      let '(k, err) :=
        keyring.Set_ keyringServiceName "google" apiKey (secrets w) in
      (withSecrets w k, err)
  end.

Definition Google_LoadCredentials (w : GoogleState K)
    : GoogleState K * (gmap string string * option error) :=
  let '(apiKey, err) := keyring.Get keyringServiceName "google" (secrets w) in
  match err with
  | Some _ => (w, (∅, Some (Errorf "not logged in to Google" [])))
  | None => (w, ({["api_key" := apiKey]}, None))
  end.

Definition Google_DeleteCredentials (w : GoogleState K)
    : GoogleState K * option error :=
  let '(k, err) := keyring.Delete keyringServiceName "google" (secrets w) in
  (withSecrets w k, err).

Definition Google_Login (credentials : gmap string string)
    (w : GoogleState K) : GoogleState K * option error :=
  match client w with
  | Some _ => (w, None)
  | None =>
      match credentials !! "api_key" with
      | None => (w, Some (Errorf "api_key not provided" []))
      | Some apiKey =>
          match NewClient env apiKey with
          | inr err =>
              (w, Some (Wrapf "failed to create GenAI client: %w" [] err))
          | inl c => (withClient w (Some c), None)
          end
      end
  end.

Definition Google_Close (w : GoogleState K) : GoogleState K * option error :=
  (withClient w None, None).

Definition getOutDir : string * option error :=
  let '(dir, err) := GetUserDownloadsDir env in
  match err with
  | Some e => ("", Some (Wrapf "failed to get user downloads dir: %w" [] e))
  | None => (filepath_Join dir "climage", None)
  end.

Definition extension (mimeType : string) : option string :=
  if String.eqb mimeType "image/png" then Some ".png"
  else if String.eqb mimeType "image/jpeg" then Some ".jpg"
  else if String.eqb mimeType "image/gif" then Some ".gif"
  else None.

(** The loop over [resp.GeneratedImages], from index [i] on, with the
    paths collected so far.  Every [return nil, err] of the loop gives
    up the paths collected; the files already written stay. *)
Fixpoint writeImages (dir nowDateTime : string)
    (imgs : list genai.GeneratedImage) (i : nat) (w : GoogleState K)
    (filePaths : list string)
    : GoogleState K * (list string * option error) :=
  match imgs with
  | [] => (w, (filePaths, None))
  | img :: imgs' =>
      let image := genai.Image_ img in
      match extension (genai.MIMEType image) with
      | None =>
          (w, ([], Some (Errorf "unsupported image type: %q"
                           [genai.MIMEType image])))
      | Some ext =>
          let filePath :=
            filepath_Join dir (nowDateTime ++ "_" ++ fmt_x i ++ "_" ++ ext) in
          match WriteFile env filePath (genai.ImageBytes image) with
          | Some err =>
              (w, ([], Some (Wrapf "failed to write image: %w" [] err)))
          | None =>
              writeImages dir nowDateTime imgs' (S i)
                (withFile w filePath (genai.ImageBytes image))
                (filePaths ++ [filePath])
          end
      end
  end.

(** [GenerateImage] once the provider holds the live client [c]. *)
Definition generateWith (c : genai.Client) (model prompt : string)
    (h : Store) (settings : ModelSettings) (w : GoogleState K)
    : GoogleState K * (list string * option error) :=
  match
    GenerateImages env c model prompt
      {| genai.NumberOfImages :=
           int32 (GetModelSettingInt h settings "number_of_images" 1);
         genai.AspectRatio :=
           GetModelSettingString h settings "aspect_ratio" "1:1";
         genai.IncludeRAIReason := true |}
  with
  | inr err => (w, ([], Some (Wrapf "google: %w" [] err)))
  | inl resp =>
      let '(dir, err) := getOutDir in
      match err with
      | Some e => (w, ([], Some (Wrapf "failed to get out dir: %w" [] e)))
      | None =>
          writeImages dir (Now env) (genai.GeneratedImages resp) 0 w []
      end
  end.

Definition Google_GenerateImage (model prompt : string) (h : Store)
    (settings : ModelSettings) (w : GoogleState K)
    : GoogleState K * (list string * option error) :=
  match client w with
  | Some c => generateWith c model prompt h settings w
  | None =>
      let '(w1, (credentials, err)) := Google_LoadCredentials w in
      match err with
      | Some e => (w1, ([], Some e))
      | None =>
          let '(w2, lerr) := Google_Login credentials w1 in
          match lerr with
          | Some e =>
              (w2, ([], Some (Wrapf "failed to login to Google: %w" [] e)))
          | None =>
              match client w2 with
              | Some c => generateWith c model prompt h settings w2
              | None =>
                  (* not reached: a [Login] that succeeds sets the client *)
                  (w2, ([], Some (Sentinel "runtime.nilPointerDereference")))
              end
          end
      end
  end.

Definition GoogleProvider : Provider (GoogleState K) := {|
  GetName := "google";
  GetLoginFields := Google_GetLoginFields;
  SaveCredentials := Google_SaveCredentials;
  LoadCredentials := Google_LoadCredentials;
  DeleteCredentials := Google_DeleteCredentials;
  Login := Google_Login;
  GenerateImage := Google_GenerateImage;
  GetModels := GoogleModels;
  Close := Google_Close
|}.

End GoogleProvider.

End providers.

(** ** Package [config] *)

Module config.

(** [config.Provider]: one logged-in provider of the configuration
    file, by [Name]. *)
Record Provider := { Name : string }.

Record Config := {
  Providers : list Provider;
  DefaultModel : string;
  DefaultModelSettings : gmap string string
}.

Section Registry.

Context {W : Type}.

(** The registry [providers.Providers]. *)
Variable registry : list (providers.Provider W).

Fixpoint Get_loop (pps : list (providers.Provider W)) (p : Provider)
    : option (providers.Provider W) * option error :=
  match pps with
  | [] => (None, Some (Errorf "provider %q not found" [Name p]))
  | pp :: pps' =>
      if String.eqb (providers.GetName pp) (Name p) then (Some pp, None)
      else Get_loop pps' p
  end.

Definition Get (p : Provider)
    : option (providers.Provider W) * option error :=
  Get_loop registry p.

Section Iterator.

(** [Config.GetModels] returns an iterator ([iter.Seq2]): a function
    that feeds a [yield] callback and stops as soon as [yield]
    returns [false], which is what a [break] in the consuming
    [range] loop makes it return.  [A] is the state of the consumer,
    threaded through the calls of [yield]. *)
Context {A : Type}.
Variable yield : string -> providers.Model -> A -> A * bool.

Fixpoint yieldModels (providerName : string)
    (ms : list providers.Model) (a : A) : A * bool :=
  match ms with
  | [] => (a, true)
  | m :: ms' =>
      let '(a', continue) :=
        yield (providerName ++ "/" ++ providers.ModelName m) m a in
      if continue then yieldModels providerName ms' a' else (a', false)
  end.

Fixpoint GetModels_loop (ps : list Provider) (a : A) : A :=
  match ps with
  | [] => a
  | p :: ps' =>
      match Get p with
      | (_, Some _) => a
      | (None, None) => a (* not reached: [Get] fails or finds *)
      | (Some pp, None) =>
          let '(a', continue) :=
            yieldModels (providers.GetName pp) (providers.GetModels pp) a in
          if continue then GetModels_loop ps' a' else a'
      end
  end.

Definition GetModels (cfg : Config) (a : A) : A :=
  GetModels_loop (Providers cfg) a.

End Iterator.

(** Everything the iterator yields to a consumer that never breaks. *)
Definition allModels (cfg : Config) : list (string * providers.Model) :=
  GetModels (fun modelName m acc => ((acc ++ [(modelName, m)])%list, true)) cfg [].

End Registry.

End config.

(** ** Package [cmd]: the interactive session of the root command *)

Module cmd.

Import providers.

(** [errExit], the error value local to the root command, and
    [huh.ErrUserAborted], the form library's abort error. *)
Definition errExit : error := Sentinel "errExit".
Definition ErrUserAborted : error := Sentinel "huh.ErrUserAborted".

(** What a form run returns: the values the user submitted, one per
    field, or the error [Run] failed with (an abort by the user is
    [ErrUserAborted]).  A select field can only submit one of its
    options. *)
Inductive FormResult :=
| Submit (values : list string)
| Abort (err : error).

(** What the session shows: the options of the model form (label and
    value), a rejected command, the path of a generated file (which the
    viewer process then displays). *)
Inductive Output :=
| ModelForm (options : list (string * string))
| InvalidCommand (prompt : string)
| FilePath (path : string).

Section Session.

Context {W : Type}.
Variable registry : list (Provider W).
Variable cfg : config.Config.

(** The variables of [RunE] that the closure [run] shares with the
    loop, the cells the settings point to, the providers' state and
    the output so far. *)
Record State := {
  prompt : string;
  lastPrompt : string;
  model : string;
  modelSettings : ModelSettings;
  cells : Store;
  world : W;
  stdout : list Output
}.

Definition setPrompt (st : State) (v : string) : State :=
  {| prompt := v; lastPrompt := lastPrompt st; model := model st;
     modelSettings := modelSettings st; cells := cells st;
     world := world st; stdout := stdout st |}.

Definition setLastPrompt (st : State) (v : string) : State :=
  {| prompt := prompt st; lastPrompt := v; model := model st;
     modelSettings := modelSettings st; cells := cells st;
     world := world st; stdout := stdout st |}.

Definition setModel (st : State) (v : string) : State :=
  {| prompt := prompt st; lastPrompt := lastPrompt st; model := v;
     modelSettings := modelSettings st; cells := cells st;
     world := world st; stdout := stdout st |}.

Definition setModelSettings (st : State) (v : ModelSettings) : State :=
  {| prompt := prompt st; lastPrompt := lastPrompt st; model := model st;
     modelSettings := v; cells := cells st;
     world := world st; stdout := stdout st |}.

Definition setCells (st : State) (v : Store) : State :=
  {| prompt := prompt st; lastPrompt := lastPrompt st; model := model st;
     modelSettings := modelSettings st; cells := v;
     world := world st; stdout := stdout st |}.

Definition setWorld (st : State) (v : W) : State :=
  {| prompt := prompt st; lastPrompt := lastPrompt st; model := model st;
     modelSettings := modelSettings st; cells := cells st;
     world := v; stdout := stdout st |}.

Definition print (st : State) (out : list Output) : State :=
  {| prompt := prompt st; lastPrompt := lastPrompt st; model := model st;
     modelSettings := modelSettings st; cells := cells st;
     world := world st; stdout := stdout st ++ out |}.

(** One call of [run] either returns, with the forms left unread, or
    waits for ever in a form for which there is no input. *)
Inductive RunResult :=
| Returned (rest : list FormResult) (st : State) (err : option error)
| Waiting (st : State).

(** The options of the model form: label and value of every model. *)
Definition modelOptions : list (string * string) :=
  config.GetModels registry
    (fun modelName m options =>
       ((options ++ [(ModelDisplayName m, modelName)])%list, true))
    cfg [].

(** The loop under the comment "update model settings".  Inside it
    [model] is the loop variable, a [providers.Model], and [modelName]
    the key the iterator yields. *)
Definition updateModelSettings (current : ModelSettings) : ModelSettings :=
  config.GetModels registry
    (fun modelName m settings =>
       if String.eqb (ModelName m) modelName then (Settings m, false)
       else (settings, true))
    cfg current.

Definition runModels (rest : list FormResult) (st : State) : RunResult :=
  let st := print st [ModelForm modelOptions] in
  match rest with
  | [] => Waiting st
  | Abort err :: rest' =>
      Returned rest' st (Some (Wrapf "failed to run model form: %w" [] err))
  | Submit values :: rest' =>
      let st := setModel st (hd (model st) values) in
      Returned rest'
        (setModelSettings st (updateModelSettings (modelSettings st))) None
  end.

(** The values a submitted form leaves in the cells of its fields. *)
Fixpoint writeFields (h : Store) (fields : list ptr) (values : list string)
    : Store :=
  match fields, values with
  | p :: fields', v :: values' => writeFields (setValue h p v) fields' values'
  | _, _ => h
  end.

Definition runSettings (rest : list FormResult) (st : State) : RunResult :=
  let '(h, fields) := HuhGroup (cells st) (modelSettings st) in
  let st := setCells st h in
  match rest with
  | [] => Waiting st
  | Abort err :: rest' =>
      Returned rest' st
        (Some (Wrapf "failed to run settings form: %w" [] err))
  | Submit values :: rest' =>
      Returned rest' (setCells st (writeFields h fields values)) None
  end.

(** The [default] case of the switch, which [/retry] falls through to. *)
Definition generate (rest : list FormResult) (st : State) : RunResult :=
  if strings.HasPrefix (prompt st) "/" then
    Returned rest (print st [InvalidCommand (prompt st)]) None
  else
    match strings.SplitN2 (model st) "/" with
    | [providerName; modelName] =>
        match GetProviderByName registry providerName with
        | (_, Some err) =>
            Returned rest st (Some (Wrapf "failed to get provider: %w" [] err))
        | (None, None) =>
            (* not reached: [GetProviderByName] fails or finds *)
            Returned rest st (Some (Sentinel "runtime.nilPointerDereference"))
        | (Some pp, None) =>
            let '(w, (out, err)) :=
              GenerateImage pp modelName (prompt st) (cells st)
                (modelSettings st) (world st) in
            match err with
            | Some e =>
                Returned rest (setWorld st w)
                  (Some (Wrapf "failed to generate image: %w" [] e))
            | None =>
                Returned rest
                  (print (setLastPrompt (setWorld st w) (prompt st))
                     (map FilePath out))
                  None
            end
        end
    | _ => Returned rest st (Some (Errorf "invalid model: %q" [model st]))
    end.

Definition run (script : list FormResult) (st : State) : RunResult :=
  match script with
  | [] => Waiting st
  | Abort err :: rest =>
      Returned rest st (Some (Wrapf "failed to run prompt form: %w" [] err))
  | Submit values :: rest =>
      let st := setPrompt st (hd (prompt st) values) in
      if String.eqb (prompt st) "/models" then runModels rest st
      else if String.eqb (prompt st) "/settings" then runSettings rest st
      else if String.eqb (prompt st) "/exit" then
        Returned rest st (Some errExit)
      else if String.eqb (prompt st) "/retry" then
        generate rest (setPrompt st (lastPrompt st))
      else generate rest st
  end.

(** How the command ends: it returns [err] with [unread] forms never
    shown, or it waits for input that does not come. *)
Inductive Outcome :=
| Finished (unread : list FormResult) (st : State) (err : option error)
| Blocked (st : State)
| OutOfFuel.

(** The [for] loop around [run]; every round consumes a form, so
    [fuel] bounds the rounds. *)
Fixpoint loop (fuel : nat) (script : list FormResult) (st : State)
    : Outcome :=
  match fuel with
  | 0 => OutOfFuel
  | S fuel' =>
      match run script st with
      | Waiting st' => Blocked st'
      | Returned rest st' (Some err) =>
          if Is err "errExit" then Finished rest st' None
          else if Is err "huh.ErrUserAborted" then Finished rest st' None
          else Finished rest st' (Some err)
      | Returned rest st' None => loop fuel' rest (setPrompt st' "")
      end
  end.

(** The two loops that pick the initial model: the configured default
    if the iterator yields it, else the first model yielded. *)
Definition findDefault (model : string) : bool * ModelSettings :=
  config.GetModels registry
    (fun modelName pm '(found, settings) =>
       if String.eqb model modelName then ((true, Settings pm), false)
       else ((found, settings), true))
    cfg (false, []).

Definition firstModel (settings : ModelSettings) : string * ModelSettings :=
  config.GetModels registry
    (fun modelName pm _ => ((modelName, Settings pm), false))
    cfg ("", settings).

End Session.

Arguments Returned {W} _ _ _.
Arguments Waiting {W} _.
Arguments Finished {W} _ _ _.
Arguments Blocked {W} _.
Arguments OutOfFuel {W}.

(** [rootCmd.RunE], given what [config.GetConfig] returned, the cells
    and the providers' state at that point, and the forms to come. *)
Definition RunE {W : Type} (registry : list (Provider W))
    (getConfig : config.Config * option error) (h : Store) (w : W)
    (script : list FormResult) : Outcome (W := W) :=
  let '(cfg, err) := getConfig in
  match err with
  | Some e =>
      Finished script
        {| prompt := ""; lastPrompt := ""; model := ""; modelSettings := [];
           cells := h; world := w; stdout := [] |}
        (Some (Wrapf "failed to get config: %w" [] e))
  | None =>
      let model0 := config.DefaultModel cfg in
      let '(found, settings) := findDefault registry cfg model0 in
      let '(model1, settings1) :=
        if found then (model0, settings)
        else firstModel registry cfg settings in
      let st :=
        {| prompt := ""; lastPrompt := ""; model := model1;
           modelSettings := settings1; cells := h; world := w;
           stdout := [] |} in
      if String.eqb model1 "" then
        Finished script st (Some (Errorf "no model is available" []))
      else loop registry cfg (S (length script)) script st
  end.

End cmd.

(** ** Package [config], continued: the configuration file and the defaults *)

Module configfile.

Import providers config.

(** [strconv.ParseBool]: the twelve spellings the Go library accepts. *)
Definition ParseBool (str : string) : bool * option strconv.NumError :=
  if existsb (String.eqb str) ["1"; "t"; "T"; "true"; "TRUE"; "True"]
  then (true, None)
  else if existsb (String.eqb str) ["0"; "f"; "F"; "false"; "FALSE"; "False"]
  then (false, None)
  else (false, Some strconv.ErrSyntax).

Definition GetDefaultModelSetting (cfg : Config) (setting : string)
    : string * bool :=
  match DefaultModelSettings cfg !! setting with
  | Some v => (v, true)
  | None => ("", false)
  end.

Definition GetDefaultModelSettingInt (cfg : Config) (setting : string)
    : Z * bool :=
  match DefaultModelSettings cfg !! setting with
  | None => (0%Z, false)
  | Some v =>
      let '(i, err) := strconv.Atoi v in
      match err with
      | Some _ => (0%Z, false)
      | None => (i, true)
      end
  end.

Definition GetDefaultModelSettingBool (cfg : Config) (setting : string)
    : bool * bool :=
  match DefaultModelSettings cfg !! setting with
  | None => (false, false)
  | Some v =>
      let '(b, err) := ParseBool v in
      match err with
      | Some _ => (false, false)
      | None => (b, true)
      end
  end.

(** What reading the configuration file comes to: the configuration
    directory is unknown, the file does not exist, it cannot be opened,
    its text does not decode, or it decodes to a configuration. *)
Inductive FileRead :=
| NoConfigDir (err : error)
| NotExist
| OpenFails (err : error)
| DecodeFails (err : error)
| Decoded (cfg : Config).

(** What writing it comes to. *)
Inductive FileWrite :=
| NoConfigDirW (err : error)
| CreateFails (err : error)
| EncodeFails (err : error)
| Written.

(** [Config{}]. *)
Definition zeroConfig : Config :=
  {| Providers := []; DefaultModel := ""; DefaultModelSettings := ∅ |}.

Section Defaults.

Context {W : Type} {float64 : Type}.
Variable ParseFloat : string -> Z -> float64 * option strconv.NumError.
Variable registry : list (providers.Provider W).

(** The inner loop of "apply user default model settings": a setting
    takes the user's default of its name when there is one and it is of
    the setting's type. *)
Fixpoint applySettings (cfg : Config) (h : Store) (settings : ModelSettings)
    : Store :=
  match settings with
  | [] => h
  | s :: settings' =>
      let '(v, ok) := GetDefaultModelSetting cfg (providers.Name (h s)) in
      applySettings cfg
        (if ok && IsOfType ParseFloat v (Type_ (h s)) then setValue h s v else h)
        settings'
  end.

(** The outer loop, over every model the iterator yields. *)
Definition applyDefaults (cfg : Config) (h : Store) : Store :=
  GetModels registry (fun _ m h' => (applySettings cfg h' (Settings m), true))
    cfg h.

(** [GetConfig], given what reading the file comes to and the cells of
    the settings; it returns the cells as well, since it writes to them. *)
Definition GetConfig (read : FileRead) (h : Store)
    : (Config * option error) * Store :=
  match read with
  | NoConfigDir err =>
      ((zeroConfig,
        Some (Wrapf "failed to get config file path: %w" []
                (Wrapf "failed to get user config dir: %w" [] err))), h)
  | NotExist => ((zeroConfig, None), h)
  | OpenFails err =>
      ((zeroConfig, Some (Wrapf "failed to open config file: %w" [] err)), h)
  | DecodeFails err =>
      ((zeroConfig, Some (Wrapf "failed to decode config: %w" [] err)), h)
  | Decoded cfg => ((cfg, None), applyDefaults cfg h)
  end.

End Defaults.

(** [Config.Save], given what writing the file comes to. *)
Definition Save (write : FileWrite) : option error :=
  match write with
  | NoConfigDirW err =>
      Some (Wrapf "failed to get config file path: %w" []
              (Wrapf "failed to get user config dir: %w" [] err))
  | CreateFails err => Some (Wrapf "failed to create config file: %w" [] err)
  | EncodeFails err => Some (Wrapf "failed to save config: %w" [] err)
  | Written => None
  end.

End configfile.

(** ** Package [cmd], continued: the [auth] commands *)

Module auth.

Import providers cmd.

(** What reading the file a file field names comes to. *)
Inductive FileContent :=
| CannotOpen (err : error)
| CannotRead (err : error)
| Content (bytes : list Byte.byte).

(** How a command ends: with the providers' state, the configuration it
    handed to [Save] if it got that far, and the error it returns; or
    waiting in a form for input that does not come. *)
Inductive Result (W : Type) :=
| Done (w : W) (saved : option config.Config) (err : option error)
| Blocked.

Arguments Done {W} _ _ _.
Arguments Blocked {W}.

Section Auth.

Context {W : Type}.

(** The registry, the file system as the login command reads it,
    [base64.StdEncoding.EncodeToString], and what [Config.Save] returns
    for a configuration. *)
Variable registry : list (Provider W).
Variable ReadFile : string -> FileContent.
Variable EncodeToString : list Byte.byte -> string.
Variable Save : config.Config -> option error.

(** The loop labelled [full_provider_list]: the registered names that no
    entry of the configuration has, in registration order. *)
Definition providerNames (cfg : config.Config) : list string :=
  List.filter
    (fun a =>
       negb (existsb (fun b => String.eqb a (config.Name b))
               (config.Providers cfg)))
    (GetProviderNames registry).

(** [credentialValues] once the login form is submitted: every field
    writes its value under its name, a later field of the same name
    replacing an earlier one. *)
Fixpoint formValues (fields : list LoginField) (values : list string)
    (m : gmap string string) : gmap string string :=
  match fields with
  | [] => m
  | field :: fields' =>
      formValues fields' (tl values) (<[FieldName field := hd "" values]> m)
  end.

(** The loop that replaces the path a file field holds by the content of
    the file, base64-encoded. *)
Fixpoint readFiles (fields : list LoginField) (m : gmap string string)
    : gmap string string * option error :=
  match fields with
  | [] => (m, None)
  | field :: fields' =>
      if String.eqb (FieldType field) "file" then
        match m !! FieldName field with
        | None => readFiles fields' m
        | Some path =>
            match ReadFile path with
            | CannotOpen err =>
                (m, Some (Wrapf "failed to open file: %w" [] err))
            | CannotRead err =>
                (m, Some (Wrapf "failed to read file: %w" [] err))
            | Content b =>
                readFiles fields' (<[FieldName field := EncodeToString b]> m)
            end
        end
      else readFiles fields' m
  end.

(** The part of [auth login] after the provider is selected. *)
Definition loginWith (cfg : config.Config) (providerName : string)
    (script : list FormResult) (w : W) : Result W :=
  match GetProviderByName registry providerName with
  | (_, Some err) =>
      Done w None (Some (Wrapf "failed to get provider: %w" [] err))
  | (None, None) =>
      (* not reached: [GetProviderByName] fails or finds *)
      Done w None (Some (Sentinel "runtime.nilPointerDereference"))
  | (Some provider, None) =>
      let loginFields := GetLoginFields provider in
      match script with
      | [] => Blocked
      | Abort err :: _ =>
          Done w None (Some (Wrapf "failed to run login form: %w" [] err))
      | Submit values :: _ =>
          let '(credentials, ferr) :=
            readFiles loginFields (formValues loginFields values ∅) in
          match ferr with
          | Some err => Done w None (Some err)
          | None =>
              let '(w1, lerr) := Login provider credentials w in
              match lerr with
              | Some err =>
                  Done w1 None
                    (Some (Wrapf "failed to login with provided credentials: %w"
                             [] err))
              | None =>
                  let '(w2, serr) := SaveCredentials provider credentials w1 in
                  match serr with
                  | Some err =>
                      Done w2 None
                        (Some (Wrapf "failed to save credentials: %w" [] err))
                  | None =>
                      let cfg' :=
                        {| config.Providers :=
                             config.Providers cfg
                             ++ [{| config.Name := providerName |}];
                           config.DefaultModel := config.DefaultModel cfg;
                           config.DefaultModelSettings :=
                             config.DefaultModelSettings cfg |} in
                      match Save cfg' with
                      | Some err =>
                          Done w2 (Some cfg')
                            (Some (Wrapf "failed to save config: %w" [] err))
                      | None => Done w2 (Some cfg') None
                      end
                  end
              end
          end
      end
  end.

(** [authLoginCmd.RunE], given what [config.GetConfig] returned and the
    forms to come: the provider selection, then the login form. *)
Definition authLogin (getConfig : config.Config * option error)
    (script : list FormResult) (w : W) : Result W :=
  let '(cfg, err) := getConfig in
  match err with
  | Some e => Done w None (Some (Wrapf "failed to get config: %w" [] e))
  | None =>
      match providerNames cfg with
      | [] => Done w None (Some (Errorf "no providers are available" []))
      | first :: _ =>
          match script with
          | [] => Blocked
          | Abort e :: _ =>
              Done w None
                (Some (Wrapf "failed to run provider selection: %w" [] e))
          | Submit values :: script' =>
              loginWith cfg (hd first values) script' w
          end
      end
  end.

(** [authLogoutCmd.RunE]. *)
Definition authLogout (getConfig : config.Config * option error)
    (script : list FormResult) (w : W) : Result W :=
  let '(cfg, err) := getConfig in
  match err with
  | Some e => Done w None (Some (Wrapf "failed to get config: %w" [] e))
  | None =>
      match map config.Name (config.Providers cfg) with
      | [] => Done w None (Some (Errorf "not logged in to any provider" []))
      | first :: _ =>
          match script with
          | [] => Blocked
          | Abort e :: _ =>
              Done w None (Some (Wrapf "failed to run logout form: %w" [] e))
          | Submit values :: _ =>
              let providerName := hd first values in
              match GetProviderByName registry providerName with
              | (_, Some e) =>
                  Done w None (Some (Wrapf "failed to get provider: %w" [] e))
              | (None, None) =>
                  (* not reached: [GetProviderByName] fails or finds *)
                  Done w None (Some (Sentinel "runtime.nilPointerDereference"))
              | (Some provider, None) =>
                  let '(w1, derr) := DeleteCredentials provider w in
                  match derr with
                  | Some e =>
                      Done w1 None
                        (Some (Wrapf "failed to delete credentials: %w" [] e))
                  | None =>
                      let cfg' :=
                        {| config.Providers :=
                             List.filter
                               (fun p =>
                                  negb (String.eqb (config.Name p) providerName))
                               (config.Providers cfg);
                           config.DefaultModel := config.DefaultModel cfg;
                           config.DefaultModelSettings :=
                             config.DefaultModelSettings cfg |} in
                      match Save cfg' with
                      | Some e =>
                          Done w1 (Some cfg')
                            (Some (Wrapf "failed to save config: %w" [] e))
                      | None => Done w1 (Some cfg') None
                      end
                  end
              end
          end
      end
  end.

End Auth.

End auth.

(** ** Package [downloads]: the cached downloads directory *)

Module downloads.

(** The package variables [cacheOnce], [cachedDir] and [cacheErr]; [once]
    says whether [cacheOnce] has run. *)
Record Cache := {
  once : bool;
  cachedDir : string;
  cacheErr : option error
}.

Definition initial : Cache :=
  {| once := false; cachedDir := ""; cacheErr := None |}.

(** [GetUserDownloadsDir], given what the platform's [getDownloadsDir]
    would return if it were called now. *)
Definition GetUserDownloadsDir (getDownloadsDir : string * option error)
    (c : Cache) : (string * option error) * Cache :=
  if once c then ((cachedDir c, cacheErr c), c)
  else
    (getDownloadsDir,
     {| once := true; cachedDir := fst getDownloadsDir;
        cacheErr := snd getDownloadsDir |}).

End downloads.

(** * Specification-side definitions and sample inputs *)

(** The properties below compare the program with what the specification
    says of it, and evaluate it on sample inputs.  [Spec] holds the
    definitions that follow the specification's words or name what a
    property talks about; [Samples] holds the inputs. *)

Local Open Scope list_scope.

Module Spec.

Import providers cmd.

(** The value of a string of decimal digits, continuing from [n]; [None]
    when a byte is no digit. *)
Fixpoint digitsValue (s : string) (n : Z) : option Z :=
  match s with
  | EmptyString => Some n
  | String c s' =>
      if strconv.isDigit c then digitsValue s' (n * 10 + strconv.digitVal c)%Z
      else None
  end.

(** The integer a string denotes in decimal: an optional sign, then one
    digit or more. *)
Definition decimal (s : string) : option Z :=
  match s with
  | EmptyString => None
  | String c rest =>
      if strconv.isSign c then
        match rest with
        | EmptyString => None
        | _ =>
            match digitsValue rest 0 with
            | Some n => Some (if Ascii.eqb c "-" then - n else n)%Z
            | None => None
            end
        end
      else digitsValue s 0
  end.

(** The setting an accessor reads: the first cell of the collection
    whose [Name] is [name]. *)
Fixpoint firstNamed (h : Store) (ms : ModelSettings) (name : string)
    : option ModelSetting :=
  match ms with
  | [] => None
  | m :: ms' =>
      if String.eqb (Name (h m)) name then Some (h m)
      else firstNamed h ms' name
  end.

(** [GetBool] in the words of the specification: [true] for the value
    ["true"], the default for any other value and for no setting. *)
Definition GetBool_spec (h : Store) (ms : ModelSettings) (name : string)
    (defaultValue : bool) : bool :=
  match firstNamed h ms name with
  | Some m => if String.eqb (Value m) "true" then true else defaultValue
  | None => defaultValue
  end.

(** What each provider's [Close] returns when the providers are closed
    one after the other, each on the state the previous one left. *)
Fixpoint closeResults {W : Type} (ps : list (Provider W)) (w : W)
    : list (Provider W * option error) :=
  match ps with
  | [] => []
  | p :: ps' => (p, snd (Close p w)) :: closeResults ps' (fst (Close p w))
  end.

(** The failures among them, each wrapped under its provider's name. *)
Definition closeFailures {W : Type} (ps : list (Provider W)) (w : W)
    : list error :=
  omap (fun '(p, r) =>
          match r with
          | Some err =>
              Some (Wrapf "failed to close provider %q: %w" [GetName p] err)
          | None => None
          end)
       (closeResults ps w).

Section Grammar.

Context {float64 : Type}.
Variable ParseFloat : string -> Z -> float64 * option strconv.NumError.

(** The variants a type declares, in the words of the specification:
    the pipe-separated variants after the prefix, none when nothing
    follows it. *)
Definition variants_spec (union : string) : list string :=
  if String.eqb union "" then [] else strings.Split union "|".

(** The grammar of type strings as the specification describes it. *)
Definition IsOfType_spec (v t : string) : bool :=
  if String.eqb t "int" then
    match snd (strconv.Atoi v) with None => true | Some _ => false end
  else if String.eqb t "float" then
    match snd (ParseFloat v 64) with None => true | Some _ => false end
  else if String.eqb t "string" then true
  else if String.eqb t "boolean" then
    String.eqb v "true" || String.eqb v "false"
  else
    match strings.trimPrefix t "enum:" with
    | Some union => existsb (String.eqb v) (variants_spec union)
    | None => false
    end.

End Grammar.

(** What the command returned and the forms it left unread, if it ended. *)
Definition returned {W : Type} (o : Outcome (W := W))
    : option (list FormResult * option error) :=
  match o with
  | Finished unread _ err => Some (unread, err)
  | _ => None
  end.

Section Images.

Context {K : Type} `{!keyring.Keyring K}.
Variable env : Env.
Variables dir nowDateTime : string.

(** The path the image at index [i] is written to. *)
Definition imagePath (i : nat) (img : genai.GeneratedImage) : string :=
  filepath_Join dir
    (nowDateTime ++ "_" ++ fmt_x i ++ "_"
     ++ default "" (extension (genai.MIMEType (genai.Image_ img))))%string.

(** Why the image at index [i] makes the call fail, if it does: its
    content type is not supported, or its file cannot be written. *)
Definition imageError (i : nat) (img : genai.GeneratedImage) : option error :=
  match extension (genai.MIMEType (genai.Image_ img)) with
  | None =>
      Some (Errorf "unsupported image type: %q"
              [genai.MIMEType (genai.Image_ img)])
  | Some _ =>
      match WriteFile env (imagePath i img) (genai.ImageBytes (genai.Image_ img)) with
      | Some err => Some (Wrapf "failed to write image: %w" [] err)
      | None => None
      end
  end.

Fixpoint allAccepted (imgs : list genai.GeneratedImage) (i : nat) : Prop :=
  match imgs with
  | [] => True
  | img :: imgs' => imageError i img = None /\ allAccepted imgs' (S i)
  end.

Fixpoint allPaths (imgs : list genai.GeneratedImage) (i : nat) : list string :=
  match imgs with
  | [] => []
  | img :: imgs' => imagePath i img :: allPaths imgs' (S i)
  end.

(** The state once every image of [imgs] is written, from index [i] on. *)
Fixpoint writeAll (imgs : list genai.GeneratedImage) (i : nat)
    (w : GoogleState K) : GoogleState K :=
  match imgs with
  | [] => w
  | img :: imgs' =>
      writeAll imgs' (S i)
        (withFile w (imagePath i img) (genai.ImageBytes (genai.Image_ img)))
  end.

End Images.

End Spec.

Module Samples.

Import providers cmd.

(** A store with one boolean setting whose value is no boolean. *)
Definition verboseCells : Store := fun _ =>
  {| DisplayName := "Verbose"; Name := "verbose"; Type_ := "boolean";
     DefaultValue := "true"; Value := "maybe" |}.

(** A provider over a log of the names closed so far: its [Close] adds
    its name to the log, and fails when asked to. *)
Definition logging (name : string) (fails : bool) : Provider (list string) := {|
  GetName := name;
  GetLoginFields := [];
  SaveCredentials _ w := (w, None);
  LoadCredentials w := (w, (∅, None));
  DeleteCredentials w := (w, None);
  Login _ w := (w, None);
  GenerateImage _ _ _ _ w := (w, ([], None));
  GetModels := [];
  Close w :=
    (w ++ [name],
     if fails then Some (Errorf "handle is busy" []) else None)
|}.

(** An environment in which the backend refuses every request. *)
Definition refusing : Env := {|
  NewClient apiKey := inl {| genai.APIKey := apiKey |};
  GenerateImages _ _ _ _ := inr (Errorf "connection refused" []);
  GetUserDownloadsDir := ("/home/user/Downloads", None);
  Now := "2025-09-01T12:00:00Z";
  WriteFile _ _ := None
|}.

(** The registry of the program: the Google provider alone. *)
Definition googleOnly (env : Env)
    : list (Provider (GoogleState (gmap (string * string) string))) :=
  [GoogleProvider env].

Definition mkConfig (ps : list config.Provider) (defaultModel : string)
    : config.Config :=
  {| config.Providers := ps; config.DefaultModel := defaultModel;
     config.DefaultModelSettings := ∅ |}.

(** A configuration that lists a provider the program does not know
    before the Google provider. *)
Definition staleFirst : config.Config :=
  mkConfig [{| config.Name := "openai" |}; {| config.Name := "google" |}]
    "google/imagen-4.0-generate-001".

Definition loggedOut : GoogleState (gmap (string * string) string) :=
  {| client := None; secrets := ∅; files := ∅ |}.

Definition loggedIn : GoogleState (gmap (string * string) string) :=
  {| client := None;
     secrets := {[ (keyringServiceName, "google") := "secret-key" ]};
     files := ∅ |}.

(** A provider over no state at all, with a given catalog, whose
    [GenerateImage] always returns [result]. *)
Definition stub (name : string) (models : list Model)
    (result : list string * option error) : Provider unit := {|
  GetName := name;
  GetLoginFields := [];
  SaveCredentials _ w := (w, None);
  LoadCredentials w := (w, (∅, None));
  DeleteCredentials w := (w, None);
  Login _ w := (w, None);
  GenerateImage _ _ _ _ w := (w, result);
  GetModels := models;
  Close w := (w, None)
|}.

(** Two models of one provider with a settings collection each: the
    cell at address 0 for the first, the cell at address 1 for the second. *)
Definition sketch : Model :=
  {| ModelName := "sketch"; ModelDisplayName := "Sketch"; Settings := [0] |}.

Definition photo : Model :=
  {| ModelName := "photo"; ModelDisplayName := "Photo"; Settings := [1] |}.

Definition studio : list (Provider unit) :=
  [stub "studio" [sketch; photo] (["/out/a.png"], None)].

Definition studioConfig : config.Config :=
  mkConfig [{| config.Name := "studio" |}] "studio/sketch".

(** The session on the first model, before any prompt. *)
Definition onSketch : State (W := unit) :=
  {| prompt := ""; lastPrompt := ""; model := "studio/sketch";
     modelSettings := [0]; cells := googleCells; world := tt; stdout := [] |}.

Definition googleConfig : config.Config :=
  mkConfig [{| config.Name := "google" |}] "google/imagen-4.0-generate-001".

(** The session on the default Google model, before any prompt. *)
Definition onImagen (w : GoogleState (gmap (string * string) string))
    : State (W := GoogleState (gmap (string * string) string)) :=
  {| prompt := ""; lastPrompt := "";
     model := "google/imagen-4.0-generate-001";
     modelSettings := googleSettings; cells := googleCells; world := w;
     stdout := [] |}.

Definition pngImage : genai.GeneratedImage :=
  {| genai.Image_ :=
       {| genai.ImageBytes := [Byte.x89; Byte.x50; Byte.x4e; Byte.x47];
          genai.MIMEType := "image/png" |};
     genai.RAIFilteredReason := "" |}.

(** An image filtered upstream: no payload, no content type, a reason. *)
Definition filteredImage : genai.GeneratedImage :=
  {| genai.Image_ := {| genai.ImageBytes := []; genai.MIMEType := "" |};
     genai.RAIFilteredReason := "blocked by the safety filter" |}.

(** An environment whose backend answers every request with [images]. *)
Definition answering (images : list genai.GeneratedImage) : Env := {|
  NewClient apiKey := inl {| genai.APIKey := apiKey |};
  GenerateImages _ _ _ _ := inl {| genai.GeneratedImages := images |};
  GetUserDownloadsDir := ("/home/user/Downloads", None);
  Now := "2025-09-01T12:00:00Z";
  WriteFile _ _ := None
|}.

End Samples.

(** ** Definitions and samples for the further properties *)

Module SpecExtra.

Import providers cmd.

(** A [range] loop over a list of keyed models whose body is [yield]: it
    stops at the first [false]; the flag returned says whether it ran to
    the end. *)
Fixpoint rangeOver {A : Type} (yield : string -> Model -> A -> A * bool)
    (l : list (string * Model)) (a : A) : A * bool :=
  match l with
  | [] => (a, true)
  | (k, m) :: l' =>
      let '(a', continue) := yield k m a in
      if continue then rangeOver yield l' a' else (a', false)
  end.

(** The models of a provider under their composite identifiers. *)
Definition keyed {W : Type} (pp : Provider W) : list (string * Model) :=
  map (fun m => ((GetName pp ++ "/" ++ ModelName m)%string, m)) (GetModels pp).

(** The configured providers that come before the first one the registry
    does not know, each resolved to the registered provider. *)
Fixpoint resolved {W : Type} (registry : list (Provider W))
    (ps : list config.Provider) : list (Provider W) :=
  match ps with
  | [] => []
  | p :: ps' =>
      match config.Get registry p with
      | (Some pp, None) => pp :: resolved registry ps'
      | _ => []
      end
  end.

(** Whether the byte [c] occurs in [s]. *)
Fixpoint hasByte (c : ascii) (s : string) : bool :=
  match s with
  | EmptyString => false
  | String c' s' => Ascii.eqb c' c || hasByte c s'
  end.

(** The variables of the root command when its loop starts. *)
Definition start {W : Type} (model : string) (settings : ModelSettings)
    (h : Store) (w : W) : State (W := W) :=
  {| prompt := ""; lastPrompt := ""; model := model;
     modelSettings := settings; cells := h; world := w; stdout := [] |}.

(** Whether the cell [p] belongs to the settings of a model the iterator
    yields. *)
Definition reachable {W : Type} (registry : list (Provider W))
    (cfg : config.Config) (p : ptr) : bool :=
  existsb (fun km => existsb (Nat.eqb p) (Settings (snd km)))
    (config.allModels registry cfg).

(** The value a setting has once the user's defaults are applied to it:
    the default configured under its name if there is one and it is of the
    setting's type, else the value it had. *)
Definition userDefault {float64 : Type}
    (ParseFloat : string -> Z -> float64 * option strconv.NumError)
    (cfg : config.Config) (c : ModelSetting) : string :=
  match config.DefaultModelSettings cfg !! Name c with
  | Some v => if IsOfType ParseFloat v (Type_ c) then v else Value c
  | None => Value c
  end.

(** One turn of the loop that applies the user's defaults to the
    settings of a model. *)
Definition applyOne {float64 : Type}
    (ParseFloat : string -> Z -> float64 * option strconv.NumError)
    (cfg : config.Config) (h : Store) (s : ptr) : Store :=
  match config.DefaultModelSettings cfg !! Name (h s) with
  | Some v => if IsOfType ParseFloat v (Type_ (h s)) then setValue h s v else h
  | None => h
  end.

(** Successive calls of [GetUserDownloadsDir]: what each returns, the
    n-th when the platform's [getDownloadsDir] would answer the n-th
    entry of [rs]. *)
Fixpoint calls (rs : list (string * option error)) (c : downloads.Cache)
    : list (string * option error) :=
  match rs with
  | [] => []
  | r :: rs' =>
      fst (downloads.GetUserDownloadsDir r c)
      :: calls rs' (snd (downloads.GetUserDownloadsDir r c))
  end.

End SpecExtra.

Module SamplesExtra.

Import providers cmd Samples.

(** A configuration with a default for the number of images. *)
Definition threeImages : config.Config :=
  {| config.Providers := [{| config.Name := "google" |}];
     config.DefaultModel := "";
     config.DefaultModelSettings := {[ "number_of_images" := "3" ]} |}.

(** A configuration with a boolean default. *)
Definition verboseOn : config.Config :=
  {| config.Providers := [];
     config.DefaultModel := "";
     config.DefaultModelSettings := {[ "verbose" := "true" ]} |}.

(** Two login fields, a text and a file. *)
Definition projectField : LoginField :=
  {| FieldName := "project"; FieldDisplayName := "Project";
     FieldType := "string"; Secret := false |}.

Definition keyFile : LoginField :=
  {| FieldName := "key_file"; FieldDisplayName := "Key file";
     FieldType := "file"; Secret := false |}.

(** A file system with one readable file, holding the two bytes of
    an empty JSON object, and an encoder that knows that content. *)
Definition oneFile (path : string) : auth.FileContent :=
  if String.eqb path "/home/u/key.json"
  then auth.Content [Byte.x7b; Byte.x7d]
  else auth.CannotOpen (Errorf "open %s: no such file or directory" [path]).

Definition encodeSample (b : list Byte.byte) : string :=
  match b with
  | [Byte.x7b; Byte.x7d] => "e30="
  | _ => ""
  end.

(** An environment in which no client can be made. *)
Definition offline : Env := {|
  NewClient _ := inr (Errorf "no route to host" []);
  GenerateImages _ _ _ _ := inl {| genai.GeneratedImages := [pngImage] |};
  GetUserDownloadsDir := ("/home/user/Downloads", None);
  Now := "2025-09-01T12:00:00Z";
  WriteFile _ _ := None
|}.

End SamplesExtra.

(** * Properties *)

(** ** [strconv.Atoi] *)

Module StrconvProps.

Import strconv Spec.

Local Open Scope Z_scope.

Lemma digitVal_range (c : ascii) : isDigit c = true -> 0 <= digitVal c <= 9.
Proof.
  unfold isDigit, digitVal. rewrite andb_true_iff.
  intros [H1 H2]. apply Nat.leb_le in H1, H2. lia.
Qed.

Lemma isSign_not_digit (c : ascii) : isSign c = true -> isDigit c = false.
Proof.
  unfold isSign. rewrite orb_true_iff. intros [H|H];
    apply Ascii.eqb_eq in H; subst c; reflexivity.
Qed.

Lemma digitsValue_ge (s : string) (n v : Z) :
  0 <= n -> digitsValue s n = Some v -> n <= v.
Proof.
  revert n. induction s as [|c s' IH]; intros n Hn; simpl.
  - intros [= <-]. lia.
  - destruct (isDigit c) eqn:Ec; [|discriminate].
    intros H. pose proof (digitVal_range c Ec).
    apply IH in H; lia.
Qed.

Lemma digitsValue_lt (s : string) (n v : Z) :
  0 <= n -> digitsValue s n = Some v ->
  v < (n + 1) * 10 ^ Z.of_nat (String.length s).
Proof.
  revert n. induction s as [|c s' IH]; intros n Hn.
  - simpl. intros [= <-]. lia.
  - cbn [digitsValue String.length]. destruct (isDigit c) eqn:Ec; [|discriminate].
    intros H. pose proof (digitVal_range c Ec) as Hd.
    apply IH in H; [|lia].
    rewrite Nat2Z.inj_succ, Z.pow_succ_r by lia.
    assert (0 < 10 ^ Z.of_nat (String.length s')) by (apply Z.pow_pos_nonneg; lia).
    nia.
Qed.

Lemma Atoi_fast_digitsValue (s : string) (n : Z) :
  Atoi_fast s n =
  match digitsValue s n with
  | Some v => (v, None)
  | None => (0, Some ErrSyntax)
  end.
Proof.
  revert n. induction s as [|c s' IH]; intros n; simpl; [reflexivity|].
  destruct (isDigit c); [apply IH | reflexivity].
Qed.

(** The digit loop of [ParseUint] against the value of the digits. *)
Lemma ParseUint_loop_digitsValue (s : string) (n : Z) :
  0 <= n <= maxUint64 ->
  match digitsValue s n with
  | Some v =>
      if v <=? maxUint64 then ParseUint_loop s n = (v, None)
      else ParseUint_loop s n = (maxUint64, Some ErrRange)
  | None =>
      ParseUint_loop s n = (0, Some ErrSyntax) \/
      ParseUint_loop s n = (maxUint64, Some ErrRange)
  end.
Proof.
  revert n. induction s as [|c s' IH]; intros n Hn; cbn [digitsValue ParseUint_loop].
  - destruct (Z.leb_spec n maxUint64); [reflexivity | lia].
  - destruct (isDigit c) eqn:Ec; [|left; reflexivity].
    pose proof (digitVal_range c Ec) as Hd.
    destruct (Z.geb_spec n (maxUint64 / 10 + 1)) as [Hcut|Hcut].
    + destruct (digitsValue s' (n * 10 + digitVal c)) as [v|] eqn:Ev;
        [|right; reflexivity].
      apply digitsValue_ge in Ev; [|lia].
      assert (maxUint64 < n * 10).
      { unfold maxUint64 in *. change (2 ^ 64 - 1) with 18446744073709551615 in *.
        change (18446744073709551615 / 10) with 1844674407370955161 in Hcut. lia. }
      destruct (Z.leb_spec v maxUint64); [lia | reflexivity].
    + destruct (Z.gtb_spec (n * 10 + digitVal c) maxUint64) as [Hov|Hov].
      * destruct (digitsValue s' (n * 10 + digitVal c)) as [v|] eqn:Ev;
          [|right; reflexivity].
        apply digitsValue_ge in Ev; [|lia].
        destruct (Z.leb_spec v maxUint64); [lia | reflexivity].
      * apply IH. lia.
Qed.

Lemma ParseUint_digitsValue (s : string) :
  s <> EmptyString ->
  match digitsValue s 0 with
  | Some v =>
      if v <=? maxUint64 then ParseUint s = (v, None)
      else ParseUint s = (maxUint64, Some ErrRange)
  | None =>
      ParseUint s = (0, Some ErrSyntax) \/
      ParseUint s = (maxUint64, Some ErrRange)
  end.
Proof.
  intros Hs. destruct s as [|c s']; [contradiction|].
  change (ParseUint (String c s')) with (ParseUint_loop (String c s') 0).
  apply ParseUint_loop_digitsValue. unfold maxUint64. lia.
Qed.

(** The integer [ParseInt] returns for the digits [s1] read after the
    sign, whose value is [v]. *)
Lemma ParseInt_signed (c : ascii) (rest : string) (v : Z) :
  (if isSign c then rest else String c rest) <> EmptyString ->
  digitsValue (if isSign c then rest else String c rest) 0 = Some v ->
  let n := if Ascii.eqb c "-" then - v else v in
  if (- 2 ^ 63 <=? n) && (n <=? 2 ^ 63 - 1)
  then ParseInt (String c rest) = (n, None)
  else snd (ParseInt (String c rest)) = Some ErrRange.
Proof.
  intros Hs Hv. cbv zeta.
  pose proof (digitsValue_ge _ _ _ (Z.le_refl 0) Hv) as Hge.
  pose proof (ParseUint_digitsValue _ Hs) as Hu. rewrite Hv in Hu.
  unfold ParseInt.
  change (2 ^ 63) with 9223372036854775808.
  change (9223372036854775808 - 1) with 9223372036854775807.
  destruct (Z.leb_spec v maxUint64) as [Hmax|Hmax]; rewrite Hu;
    unfold maxUint64 in *; change (2 ^ 64 - 1) with 18446744073709551615 in *;
    destruct (Ascii.eqb c "-"); cbn [negb andb];
    repeat match goal with
           | |- context [Z.geb ?a ?b] => destruct (Z.geb_spec a b)
           | |- context [Z.gtb ?a ?b] => destruct (Z.gtb_spec a b)
           | |- context [Z.leb ?a ?b] => destruct (Z.leb_spec a b)
           end; cbn [andb snd]; try reflexivity; try lia.
Qed.

(** [Atoi] accepts exactly the decimal integers of the 64-bit range, and
    returns their value; the fast path for short strings and [ParseInt]
    agree on it. *)
Theorem Atoi_decimal (s : string) :
  match decimal s with
  | Some n =>
      if (- 2 ^ 63 <=? n) && (n <=? 2 ^ 63 - 1) then Atoi s = (n, None)
      else snd (Atoi s) = Some ErrRange
  | None => snd (Atoi s) <> None
  end.
Proof.
  unfold Atoi.
  destruct ((0 <? String.length s)%nat && (String.length s <? 19)%nat) eqn:Elen.
  - (* the fast path *)
    apply andb_true_iff in Elen. destruct Elen as [H0 H19].
    apply Nat.ltb_lt in H0, H19.
    destruct s as [|c rest]; [simpl in H0; lia|].
    cbn [decimal]. rewrite Atoi_fast_digitsValue.
    destruct (isSign c) eqn:Es; cbn [andb].
    + destruct rest as [|c' rest']; [simpl; discriminate|].
      change (String.length (String c' rest') <? 1)%nat with false.
      destruct (digitsValue (String c' rest') 0) as [v|] eqn:Ev;
        [|simpl; discriminate].
      pose proof (digitsValue_ge _ _ _ (Z.le_refl 0) Ev) as Hge.
      pose proof (digitsValue_lt _ _ _ (Z.le_refl 0) Ev) as Hlt.
      assert (v < 10 ^ 18).
      { eapply Z.lt_le_trans; [exact Hlt|]. rewrite Z.mul_1_l.
        apply Z.pow_le_mono_r; [lia|]. cbn [String.length] in *. lia. }
      change (10 ^ 18) with 1000000000000000000 in *.
      change (2 ^ 63) with 9223372036854775808.
      destruct (Ascii.eqb c "-");
        repeat match goal with
               | |- context [Z.leb ?a ?b] => destruct (Z.leb_spec a b)
               end; cbn [andb]; try reflexivity; lia.
    + destruct (digitsValue (String c rest) 0) as [v|] eqn:Ev;
        [|simpl; discriminate].
      pose proof (digitsValue_ge _ _ _ (Z.le_refl 0) Ev) as Hge.
      pose proof (digitsValue_lt _ _ _ (Z.le_refl 0) Ev) as Hlt.
      assert (v < 10 ^ 18).
      { eapply Z.lt_le_trans; [exact Hlt|]. rewrite Z.mul_1_l.
        apply Z.pow_le_mono_r; [lia|]. lia. }
      change (10 ^ 18) with 1000000000000000000 in *.
      change (2 ^ 63) with 9223372036854775808.
      assert (Ec : Ascii.eqb c "-" = false).
      { destruct (Ascii.eqb c "-") eqn:E; [|reflexivity].
        unfold isSign in Es. rewrite E, orb_true_r in Es. discriminate. }
      rewrite Ec.
      repeat match goal with
             | |- context [Z.leb ?a ?b] => destruct (Z.leb_spec a b)
             end; cbn [andb]; try reflexivity; lia.
  - (* [ParseInt] *)
    clear Elen. destruct s as [|c rest]; [simpl; discriminate|].
    cbn [decimal].
    destruct (isSign c) eqn:Es.
    + destruct rest as [|c' rest']; [simpl; rewrite Es; simpl; discriminate|].
      destruct (digitsValue (String c' rest') 0) as [v|] eqn:Ev.
      * pose proof (ParseInt_signed c (String c' rest') v) as H.
        rewrite Es in H. apply H; [discriminate | exact Ev].
      * pose proof (ParseUint_digitsValue (String c' rest')) as Hu.
        rewrite Ev in Hu. unfold ParseInt. rewrite Es.
        destruct Hu as [Hu|Hu]; [discriminate| |]; rewrite Hu;
          [simpl; discriminate|].
        unfold maxUint64. change (2 ^ 64 - 1) with 18446744073709551615.
        change (2 ^ 63) with 9223372036854775808.
        destruct (Ascii.eqb c "-"); simpl; discriminate.
    + destruct (digitsValue (String c rest) 0) as [v|] eqn:Ev.
      * pose proof (ParseInt_signed c rest v) as H.
        rewrite Es in H. specialize (H ltac:(discriminate) Ev).
        assert (Ec : Ascii.eqb c "-" = false).
        { destruct (Ascii.eqb c "-") eqn:E; [|reflexivity].
          unfold isSign in Es. rewrite E, orb_true_r in Es. discriminate. }
        rewrite Ec in H. exact H.
      * pose proof (ParseUint_digitsValue (String c rest)) as Hu.
        rewrite Ev in Hu. unfold ParseInt. rewrite Es.
        destruct Hu as [Hu|Hu]; [discriminate| |]; rewrite Hu;
          [simpl; discriminate|].
        unfold maxUint64. change (2 ^ 64 - 1) with 18446744073709551615.
        change (2 ^ 63) with 9223372036854775808.
        destruct (Ascii.eqb c "-"); simpl; discriminate.
Qed.

End StrconvProps.

(** ** Model settings accessors *)

Module AccessorProps.

Import providers Spec Samples.

Lemma firstNamed_absent h ms name :
  Forall (fun p => Name (h p) <> name) ms -> firstNamed h ms name = None.
Proof.
  induction 1 as [|p ms' Hp _ IH]; simpl; [reflexivity|].
  apply String.eqb_neq in Hp. rewrite Hp. exact IH.
Qed.

Lemma firstNamed_first h pre m post name :
  Forall (fun p => Name (h p) <> name) pre -> Name (h m) = name ->
  firstNamed h (pre ++ m :: post) name = Some (h m).
Proof.
  intros Hpre Hm. induction Hpre as [|p pre' Hp _ IH]; simpl.
  - apply String.eqb_eq in Hm. rewrite Hm. reflexivity.
  - apply String.eqb_neq in Hp. rewrite Hp. exact IH.
Qed.

Lemma GetModelSettingString_firstNamed h ms name d :
  GetModelSettingString h ms name d =
  match firstNamed h ms name with Some m => Value m | None => d end.
Proof.
  induction ms as [|m ms' IH]; simpl; [reflexivity|].
  destruct (String.eqb (Name (h m)) name); [reflexivity | exact IH].
Qed.

Lemma GetModelSettingBool_firstNamed h ms name d :
  GetModelSettingBool h ms name d =
  match firstNamed h ms name with
  | Some m => String.eqb (Value m) "true"
  | None => d
  end.
Proof.
  induction ms as [|m ms' IH]; simpl; [reflexivity|].
  destruct (String.eqb (Name (h m)) name); [reflexivity | exact IH].
Qed.

Lemma GetModelSettingInt_firstNamed h ms name d :
  GetModelSettingInt h ms name d =
  match firstNamed h ms name with
  | Some m =>
      match snd (strconv.Atoi (Value m)) with
      | None => fst (strconv.Atoi (Value m))
      | Some _ => d
      end
  | None => d
  end.
Proof.
  induction ms as [|m ms' IH]; simpl; [reflexivity|].
  destruct (String.eqb (Name (h m)) name); [|exact IH].
  destruct (strconv.Atoi (Value (h m))) as [v [e|]]; reflexivity.
Qed.

(** C5, as stated, fails: a present setting with the value ["maybe"]
    and the default [true] gives [false], not the default. *)
Lemma GetBool_malformed_not_default :
  Value (verboseCells 0) = "maybe" /\
  GetBool_spec verboseCells [0] "verbose" true = true /\
  GetModelSettingBool verboseCells [0] "verbose" true = false.
Proof. repeat split. Qed.

(** C5, amended: [GetBool] returns the default only when no setting has
    the name; for the first setting with the name it returns whether its
    value is the literal ["true"], whatever the default. *)
Theorem GetBool_present_ignores_default :
  forall (h : Store) (ms : ModelSettings) (name : string) (d : bool),
    (Forall (fun p => Name (h p) <> name) ms ->
     GetModelSettingBool h ms name d = d) /\
    (forall pre m post,
       ms = pre ++ m :: post ->
       Forall (fun p => Name (h p) <> name) pre ->
       Name (h m) = name ->
       GetModelSettingBool h ms name d = String.eqb (Value (h m)) "true").
Proof.
  intros h ms name d. split.
  - intros Habs. rewrite GetModelSettingBool_firstNamed.
    rewrite (firstNamed_absent _ _ _ Habs). reflexivity.
  - intros pre m post -> Hpre Hm. rewrite GetModelSettingBool_firstNamed.
    rewrite (firstNamed_first _ _ _ _ _ Hpre Hm). reflexivity.
Qed.

Lemma GetBool_present_ignores_default_witness :
  GetModelSettingBool verboseCells [] "verbose" true = true /\
  GetModelSettingBool verboseCells [0] "verbose" true = false.
Proof.
  split.
  - apply (GetBool_present_ignores_default verboseCells [] "verbose" true).
    constructor.
  - apply (proj2 (GetBool_present_ignores_default verboseCells [0] "verbose" true)
             [] 0 []); [reflexivity | constructor | reflexivity].
Defined.

(** C7: [GetString] and [GetInt] return the default when no setting has
    the name, and [GetInt] returns it as well when the first setting
    with the name holds a value [Atoi] rejects.  Both are total
    functions into [string] and [Z]: there is no error to surface. *)
Theorem GetString_GetInt_fall_back_to_default :
  forall (h : Store) (ms : ModelSettings) (name ds : string) (dz : Z),
    (Forall (fun p => Name (h p) <> name) ms ->
     GetModelSettingString h ms name ds = ds /\
     GetModelSettingInt h ms name dz = dz) /\
    (forall pre m post,
       ms = pre ++ m :: post ->
       Forall (fun p => Name (h p) <> name) pre ->
       Name (h m) = name ->
       snd (strconv.Atoi (Value (h m))) <> None ->
       GetModelSettingInt h ms name dz = dz).
Proof.
  intros h ms name ds dz. split.
  - intros Habs.
    rewrite GetModelSettingString_firstNamed, GetModelSettingInt_firstNamed.
    rewrite (firstNamed_absent _ _ _ Habs). split; reflexivity.
  - intros pre m post -> Hpre Hm Hbad.
    rewrite GetModelSettingInt_firstNamed.
    rewrite (firstNamed_first _ _ _ _ _ Hpre Hm).
    destruct (snd (strconv.Atoi (Value (h m)))); [reflexivity | contradiction].
Qed.

Lemma GetString_GetInt_fall_back_to_default_witness :
  (GetModelSettingString googleCells googleSettings "seed" "none" = "none" /\
   GetModelSettingInt googleCells googleSettings "seed" 7 = 7%Z) /\
  GetModelSettingInt verboseCells [0] "verbose" 7 = 7%Z.
Proof.
  split.
  - apply (GetString_GetInt_fall_back_to_default
             googleCells googleSettings "seed" "none" 7).
    repeat constructor; discriminate.
  - apply (proj2 (GetString_GetInt_fall_back_to_default
                    verboseCells [0] "verbose" "" 7) [] 0 []);
      [reflexivity | constructor | reflexivity | discriminate].
Defined.

End AccessorProps.

(** ** Provider registry *)

Module RegistryProps.

Import providers Spec Samples.

Lemma closeResults_all {W : Type} (ps : list (Provider W)) (w : W) :
  map fst (closeResults ps w) = ps.
Proof.
  revert w. induction ps as [|p ps' IH]; intros w; simpl; [reflexivity|].
  f_equal. apply IH.
Qed.

Lemma closeFailures_cons {W : Type} (p : Provider W) (ps : list (Provider W))
    (w : W) :
  closeFailures (p :: ps) w =
  match snd (Close p w) with
  | Some err =>
      Wrapf "failed to close provider %q: %w" [GetName p] err
      :: closeFailures ps (fst (Close p w))
  | None => closeFailures ps (fst (Close p w))
  end.
Proof. unfold closeFailures. simpl. destruct (snd (Close p w)); reflexivity. Qed.

Lemma Close_loop_spec {W : Type} (ps : list (Provider W)) (w : W)
    (errs : list error) :
  Close_loop ps w errs =
  (fold_left (fun w p => fst (Close p w)) ps w, errs ++ closeFailures ps w).
Proof.
  revert w errs. induction ps as [|p ps' IH]; intros w errs.
  - simpl. rewrite app_nil_r. reflexivity.
  - rewrite closeFailures_cons. simpl.
    destruct (Close p w) as [w' [err|]]; simpl; rewrite IH.
    + rewrite <- app_assoc. reflexivity.
    + reflexivity.
Qed.

Lemma closeFailures_nil {W : Type} (ps : list (Provider W)) (w : W) :
  closeFailures ps w = [] <->
  Forall (fun pr => snd pr = None) (closeResults ps w).
Proof.
  unfold closeFailures.
  induction (closeResults ps w) as [|[p [err|]] rs IH]; simpl.
  - split; constructor.
  - split; [discriminate | intros H; inversion H; discriminate].
  - rewrite IH. split; intros H; [constructor; auto | inversion H; auto].
Qed.

(** C8: [CloseAll] closes every registered provider, in registration
    order, each on the state the previous one left, whether or not an
    earlier [Close] failed; it returns the join of all failures, one
    wrapped error per failing provider, and [nil] exactly when no [Close]
    failed. *)
Theorem CloseAll_closes_all_and_joins_failures :
  forall (W : Type) (registry : list (Provider W)) (w : W),
    map fst (closeResults registry w) = registry /\
    fst (CloseAll registry w) =
      fold_left (fun w p => fst (Close p w)) registry w /\
    snd (CloseAll registry w) =
      match closeFailures registry w with
      | [] => None
      | errs => Some (Join errs)
      end /\
    (snd (CloseAll registry w) = None <->
     Forall (fun pr => snd pr = None) (closeResults registry w)).
Proof.
  intros W registry w.
  assert (Hc : CloseAll registry w =
               (fold_left (fun w p => fst (Close p w)) registry w,
                match closeFailures registry w with
                | [] => None
                | errs => Some (Join errs)
                end)).
  { unfold CloseAll. rewrite Close_loop_spec. simpl.
    destruct (closeFailures registry w); reflexivity. }
  split; [apply closeResults_all|].
  split; [rewrite Hc; reflexivity|].
  split; [rewrite Hc; reflexivity|].
  rewrite Hc. simpl. rewrite <- closeFailures_nil.
  destruct (closeFailures registry w); split; congruence.
Qed.

(** One failing and one succeeding provider: both are closed, and the
    failure is reported. *)
Example CloseAll_one_fails_one_succeeds :
  CloseAll [logging "a" true; logging "b" false] [] =
  (["a"; "b"],
   Some (Join [Wrapf "failed to close provider %q: %w" ["a"]
                 (Errorf "handle is busy" [])])).
Proof. reflexivity. Qed.

Lemma GetProviderByName_loop_absent {W : Type} (ps : list (Provider W)) name :
  Forall (fun p => GetName p <> name) ps ->
  GetProviderByName_loop ps name =
  (None, Some (Errorf "provider %q not found" [name])).
Proof.
  induction 1 as [|p ps' Hp _ IH]; simpl; [reflexivity|].
  apply String.eqb_neq in Hp. rewrite Hp. exact IH.
Qed.

Lemma GetProviderByName_loop_first {W : Type} (pre : list (Provider W)) p post name :
  Forall (fun q => GetName q <> name) pre -> GetName p = name ->
  GetProviderByName_loop (pre ++ p :: post) name = (Some p, None).
Proof.
  intros Hpre Hp. induction Hpre as [|q pre' Hq _ IH]; simpl.
  - apply String.eqb_eq in Hp. rewrite Hp. reflexivity.
  - apply String.eqb_neq in Hq. rewrite Hq. exact IH.
Qed.

Lemma GetProviderByName_loop_found {W : Type} (ps : list (Provider W)) name :
  snd (GetProviderByName_loop ps name) = None ->
  exists p, fst (GetProviderByName_loop ps name) = Some p /\
            In p ps /\ GetName p = name.
Proof.
  induction ps as [|q ps' IH]; simpl; [discriminate|].
  destruct (String.eqb (GetName q) name) eqn:E; simpl.
  - intros _. exists q. apply String.eqb_eq in E. auto.
  - intros H. destruct (IH H) as (p & Hf & Hin & Hn). exists p. auto.
Qed.

(** C9: [GetByName] of a name no registered provider has fails with the
    not-found error and no provider; a call that returns no error returns
    a registered provider of that name, never [nil]; and of several
    providers with the name, each call returns the one registered first.
    The result is a function of the registry and the name alone. *)
Theorem GetProviderByName_not_found_or_first :
  forall (W : Type) (registry : list (Provider W)) (name : string),
    (Forall (fun p => GetName p <> name) registry ->
     GetProviderByName registry name =
     (None, Some (Errorf "provider %q not found" [name]))) /\
    (snd (GetProviderByName registry name) = None ->
     exists p, fst (GetProviderByName registry name) = Some p /\
               In p registry /\ GetName p = name) /\
    (forall pre p1 mid p2 post,
       registry = pre ++ p1 :: mid ++ p2 :: post ->
       Forall (fun q => GetName q <> name) pre ->
       GetName p1 = name -> GetName p2 = name ->
       GetProviderByName registry name = (Some p1, None)).
Proof.
  intros W registry name. unfold GetProviderByName. split; [|split].
  - apply GetProviderByName_loop_absent.
  - apply GetProviderByName_loop_found.
  - intros pre p1 mid p2 post -> Hpre H1 _.
    apply GetProviderByName_loop_first; assumption.
Qed.

Lemma GetProviderByName_not_found_or_first_witness :
  GetProviderByName [logging "a" true; logging "a" false] "nonexistent" =
    (None, Some (Errorf "provider %q not found" ["nonexistent"])) /\
  (exists p, fst (GetProviderByName [logging "a" true; logging "a" false] "a") = Some p /\
             In p [logging "a" true; logging "a" false] /\ GetName p = "a") /\
  GetProviderByName [logging "a" true; logging "a" false] "a" =
    (Some (logging "a" true), None).
Proof.
  split; [|split].
  - apply (GetProviderByName_not_found_or_first (list string)
             [logging "a" true; logging "a" false] "nonexistent").
    repeat constructor; discriminate.
  - apply (GetProviderByName_not_found_or_first (list string)
             [logging "a" true; logging "a" false] "a").
    reflexivity.
  - apply (proj2 (proj2 (GetProviderByName_not_found_or_first (list string)
             [logging "a" true; logging "a" false] "a"))
             [] (logging "a" true) [] (logging "a" false) []);
      [reflexivity | constructor | reflexivity | reflexivity].
Defined.

End RegistryProps.

(** ** Settings schema *)

Module SchemaProps.

Import providers Spec Samples.

Lemma trimPrefix_Some (s prefix after : string) :
  strings.trimPrefix s prefix = Some after -> s = (prefix ++ after)%string.
Proof.
  revert s. induction prefix as [|p prefix' IH]; intros s.
  - destruct s; simpl; intros [= <-]; reflexivity.
  - destruct s as [|c s']; simpl; [discriminate|].
    destruct (Ascii.eqb p c) eqn:E; [|discriminate].
    apply Ascii.eqb_eq in E. subst c. intros H. rewrite (IH _ H). reflexivity.
Qed.

Lemma trimPrefix_app (prefix after : string) :
  strings.trimPrefix (prefix ++ after)%string prefix = Some after.
Proof.
  induction prefix as [|p prefix' IH]; simpl.
  - destruct after; reflexivity.
  - rewrite Ascii.eqb_refl. exact IH.
Qed.

Lemma Split_not_empty (s : string) (sep : ascii) :
  Nat.eqb (length (strings.Split s sep)) 0 = false.
Proof.
  destruct s as [|c s']; simpl; [reflexivity|].
  destruct (Ascii.eqb c sep); [reflexivity|].
  destruct (strings.Split s' sep); reflexivity.
Qed.

Section Grammar.

Context {float64 : Type}.
Variable ParseFloat : string -> Z -> float64 * option strconv.NumError.

Lemma IsOfType_int (v : string) :
  IsOfType ParseFloat v "int" = true <-> snd (strconv.Atoi v) = None.
Proof.
  unfold IsOfType. simpl.
  destruct (snd (strconv.Atoi v)); split; congruence.
Qed.

(** The type ["int"] accepts the decimal integers of the 64-bit range. *)
Lemma IsOfType_int_decimal (v : string) :
  IsOfType ParseFloat v "int" = true <->
  exists n, decimal v = Some n /\ (- 2 ^ 63 <= n <= 2 ^ 63 - 1)%Z.
Proof.
  rewrite IsOfType_int. pose proof (StrconvProps.Atoi_decimal v) as H.
  destruct (decimal v) as [n|].
  - destruct (Z.leb_spec (- 2 ^ 63) n); destruct (Z.leb_spec n (2 ^ 63 - 1));
      cbn [andb] in H.
    + rewrite H. split; [exists n; auto | reflexivity].
    + rewrite H. split; [discriminate | intros (m & [= <-] & ?); lia].
    + rewrite H. split; [discriminate | intros (m & [= <-] & ?); lia].
    + rewrite H. split; [discriminate | intros (m & [= <-] & ?); lia].
  - split; [contradiction | intros (m & Hm & _); discriminate].
Qed.

Lemma IsOfType_float (v : string) :
  IsOfType ParseFloat v "float" = true <-> snd (ParseFloat v 64) = None.
Proof.
  unfold IsOfType. simpl.
  destruct (snd (ParseFloat v 64)); split; congruence.
Qed.

Lemma IsOfType_string (v : string) : IsOfType ParseFloat v "string" = true.
Proof. reflexivity. Qed.

Lemma IsOfType_boolean (v : string) :
  IsOfType ParseFloat v "boolean" = true <-> v = "true" \/ v = "false".
Proof.
  unfold IsOfType. simpl. rewrite orb_true_iff, !String.eqb_eq. reflexivity.
Qed.

(** An [enum:] type accepts exactly the fields [strings.Split] cuts the
    rest of the type string into. *)
Lemma IsOfType_enum (v union : string) :
  IsOfType ParseFloat v ("enum:" ++ union)%string = true <->
  In v (strings.Split union "|").
Proof.
  unfold IsOfType.
  change (String.eqb ("enum:" ++ union) "int") with false.
  change (String.eqb ("enum:" ++ union) "float") with false.
  change (String.eqb ("enum:" ++ union) "string") with false.
  change (String.eqb ("enum:" ++ union) "boolean") with false.
  unfold strings.CutPrefix. rewrite trimPrefix_app.
  rewrite Split_not_empty.
  assert (H : slices.Contains (strings.Split union "|") v = true <->
              In v (strings.Split union "|")).
  { unfold slices.Contains. rewrite existsb_exists. split.
    - intros (x & Hin & Heq). apply String.eqb_eq in Heq. subst x. exact Hin.
    - intros Hin. exists v. split; [exact Hin | apply String.eqb_refl]. }
  destruct (Nat.leb (length (strings.Split union "|")) 8); exact H.
Qed.

Lemma IsOfType_unknown (v t : string) :
  t <> "int" -> t <> "float" -> t <> "string" -> t <> "boolean" ->
  strings.HasPrefix t "enum:" = false ->
  IsOfType ParseFloat v t = false.
Proof.
  intros H1 H2 H3 H4 H5. unfold IsOfType.
  apply String.eqb_neq in H1, H2, H3, H4. rewrite H1, H2, H3, H4.
  unfold strings.HasPrefix in H5. unfold strings.CutPrefix.
  destruct (strings.trimPrefix t "enum:"); [discriminate | reflexivity].
Qed.

(** The program and the grammar of the specification agree everywhere
    but on the type ["enum:"] and the empty candidate. *)
Lemma IsOfType_agrees_with_spec (v t : string) :
  (t = "enum:" -> v <> "") ->
  IsOfType ParseFloat v t = IsOfType_spec ParseFloat v t.
Proof.
  intros Hne. unfold IsOfType, IsOfType_spec.
  destruct (String.eqb t "int"); [reflexivity|].
  destruct (String.eqb t "float"); [reflexivity|].
  destruct (String.eqb t "string"); [reflexivity|].
  destruct (String.eqb t "boolean"); [reflexivity|].
  unfold strings.CutPrefix.
  destruct (strings.trimPrefix t "enum:") as [union|] eqn:E; [|reflexivity].
  rewrite Split_not_empty. unfold variants_spec, slices.Contains.
  destruct (String.eqb union "") eqn:Eu.
  - apply String.eqb_eq in Eu. subst union.
    apply trimPrefix_Some in E. simpl in E.
    specialize (Hne E). apply String.eqb_neq in Hne.
    simpl. rewrite Hne. reflexivity.
  - destruct (Nat.leb (length (strings.Split union "|")) 8); reflexivity.
Qed.

End Grammar.

(** C3 at its failing input: for the type ["enum:"], whose variant list
    is empty, the program accepts the empty candidate, where the grammar
    of the specification rejects every candidate.  [strings.Split] never
    returns an empty slice, so the guard on an empty list is never taken. *)
Theorem IsOfType_empty_variant_list_accepts_empty :
  forall (float64 : Type)
         (ParseFloat : string -> Z -> float64 * option strconv.NumError),
    strings.Split "" "|" = [""] /\
    IsOfType ParseFloat "" "enum:" = true /\
    IsOfType_spec ParseFloat "" "enum:" = false.
Proof. intros. repeat split. Qed.

(** The examples of the specification. *)
Example IsOfType_examples :
  forall (float64 : Type)
         (ParseFloat : string -> Z -> float64 * option strconv.NumError),
    IsOfType ParseFloat "3" "int" = true /\
    IsOfType ParseFloat "3.5" "int" = false /\
    IsOfType ParseFloat "true" "boolean" = true /\
    IsOfType ParseFloat "maybe" "boolean" = false /\
    IsOfType ParseFloat "16:9" "enum:1:1|16:9|4:3" = true /\
    IsOfType ParseFloat "2:1" "enum:1:1|16:9|4:3" = false.
Proof. intros. repeat split. Qed.

End SchemaProps.

(** ** Configured providers and their models *)

Module ConfigProps.

Import providers Spec Samples.

Lemma Get_absent {W : Type} (registry : list (Provider W)) (p : config.Provider) :
  Forall (fun pp => GetName pp <> config.Name p) registry ->
  config.Get registry p =
  (None, Some (Errorf "provider %q not found" [config.Name p])).
Proof.
  unfold config.Get.
  induction 1 as [|pp pps Hpp _ IH]; simpl; [reflexivity|].
  apply String.eqb_neq in Hpp. rewrite Hpp. exact IH.
Qed.

Lemma GetModels_loop_stops {W A : Type} (registry : list (Provider W))
    (yield : string -> Model -> A -> A * bool) (p : config.Provider)
    (before after : list config.Provider) (a : A) :
  Forall (fun pp => GetName pp <> config.Name p) registry ->
  config.GetModels_loop registry yield (before ++ p :: after) a =
  config.GetModels_loop registry yield before a.
Proof.
  intros Hstale. revert a.
  induction before as [|q before' IH]; intros a; simpl.
  - rewrite (Get_absent _ _ Hstale). reflexivity.
  - destruct (config.Get registry q) as [[pp|] [err|]]; try reflexivity.
    destruct (config.yieldModels yield (GetName pp) (GetModels pp) a)
      as [a' [|]]; [apply IH | reflexivity].
Qed.

(** C10: the iterator returns at the first configured provider the
    registry does not know; it yields nothing for it nor for any provider
    listed after it.  With such an entry first, no model is yielded at
    all, and the root command fails with "no model is available". *)
Theorem GetModels_stops_at_unknown_provider :
  forall (W : Type) (registry : list (Provider W)) (p : config.Provider),
    Forall (fun pp => GetName pp <> config.Name p) registry ->
    (forall (A : Type) (yield : string -> Model -> A -> A * bool)
            (before after : list config.Provider) (dm : string)
            (ds : gmap string string) (a : A),
       config.GetModels registry yield
         {| config.Providers := before ++ p :: after;
            config.DefaultModel := dm; config.DefaultModelSettings := ds |} a =
       config.GetModels registry yield
         {| config.Providers := before;
            config.DefaultModel := dm; config.DefaultModelSettings := ds |} a) /\
    (forall (after : list config.Provider) (dm : string)
            (ds : gmap string string),
       config.allModels registry
         {| config.Providers := p :: after;
            config.DefaultModel := dm; config.DefaultModelSettings := ds |} = []) /\
    (forall (after : list config.Provider) (dm : string)
            (ds : gmap string string) (h : Store) (w : W)
            (script : list cmd.FormResult),
       exists st,
         cmd.RunE registry
           ({| config.Providers := p :: after;
               config.DefaultModel := dm; config.DefaultModelSettings := ds |},
            None) h w script =
         cmd.Finished script st (Some (Errorf "no model is available" []))).
Proof.
  intros W registry p Hstale. split; [|split].
  - intros A yield before after dm ds a. unfold config.GetModels. simpl.
    apply GetModels_loop_stops. exact Hstale.
  - intros after dm ds. unfold config.allModels, config.GetModels. simpl.
    rewrite (Get_absent _ _ Hstale). reflexivity.
  - intros after dm ds h w script. eexists.
    unfold cmd.RunE, cmd.findDefault, cmd.firstModel, config.GetModels. simpl.
    rewrite (Get_absent _ _ Hstale). simpl. reflexivity.
Qed.

Lemma GetModels_stops_at_unknown_provider_witness :
  config.allModels (googleOnly refusing) staleFirst = [] /\
  exists st,
    cmd.RunE (googleOnly refusing) (staleFirst, None) googleCells loggedIn
      [cmd.Submit ["a lighthouse at dusk"]] =
    cmd.Finished [cmd.Submit ["a lighthouse at dusk"]] st
      (Some (Errorf "no model is available" [])).
Proof.
  assert (Hstale : Forall (fun pp => GetName pp <> "openai") (googleOnly refusing)).
  { repeat constructor. discriminate. }
  split.
  - apply (proj1 (proj2 (GetModels_stops_at_unknown_provider _
             (googleOnly refusing) {| config.Name := "openai" |} Hstale))).
  - apply (proj2 (proj2 (GetModels_stops_at_unknown_provider _
             (googleOnly refusing) {| config.Name := "openai" |} Hstale))).
Defined.

End ConfigProps.

(** ** Interactive session *)

Module SessionProps.

Import providers cmd Spec Samples.

Lemma length_append (a b : string) :
  String.length (a ++ b)%string = String.length a + String.length b.
Proof. induction a as [|c a' IH]; simpl; [reflexivity | rewrite IH; reflexivity]. Qed.

(** The key the iterator yields for a model is never the model's own
    name: it is longer by the provider's name and the slash. *)
Lemma key_not_name (providerName name : string) :
  String.eqb name (providerName ++ "/" ++ name)%string = false.
Proof.
  apply String.eqb_neq. intros H.
  apply (f_equal String.length) in H.
  rewrite !length_append in H. simpl in H. lia.
Qed.

Section Session.

Context {W : Type}.
Variable registry : list (Provider W).
Variable cfg : config.Config.

Lemma yieldModels_update (providerName : string) (ms : list Model)
    (current : ModelSettings) :
  config.yieldModels
    (fun modelName m settings =>
       if String.eqb (ModelName m) modelName then (Settings m, false)
       else (settings, true))
    providerName ms current = (current, true).
Proof.
  induction ms as [|m ms' IH]; simpl; [reflexivity|].
  rewrite key_not_name. exact IH.
Qed.

(** The loop that should update the settings never finds its model: it
    compares a model's name with the key of the same model. *)
Lemma updateModelSettings_unchanged (current : ModelSettings) :
  updateModelSettings registry cfg current = current.
Proof.
  unfold updateModelSettings, config.GetModels.
  induction (config.Providers cfg) as [|p ps IH]; simpl; [reflexivity|].
  destruct (config.Get registry p) as [[pp|] [err|]]; try reflexivity.
  rewrite yieldModels_update. exact IH.
Qed.

(** [/models] followed by a selection: the form shows the options, the
    model becomes the selection, the settings stay what they were. *)
Lemma run_models (selection : string) (rest : list FormResult) (st : State) :
  run registry cfg (Submit ["/models"] :: Submit [selection] :: rest) st =
  Returned rest
    (setModelSettings
       (setModel
          (print (setPrompt st "/models") [ModelForm (modelOptions registry cfg)])
          selection)
       (modelSettings st))
    None.
Proof.
  unfold run, runModels. simpl. rewrite updateModelSettings_unchanged.
  reflexivity.
Qed.

Lemma yieldModels_collect {B : Type} (f : string -> Model -> B)
    (providerName : string) (ms : list Model) (acc : list B) :
  config.yieldModels (fun modelName m options => (options ++ [f modelName m], true))
    providerName ms acc =
  (acc ++ map (fun m => f (providerName ++ "/" ++ ModelName m)%string m) ms, true).
Proof.
  revert acc. induction ms as [|m ms' IH]; intros acc; simpl.
  - rewrite app_nil_r. reflexivity.
  - rewrite IH, <- app_assoc. reflexivity.
Qed.

Lemma GetModels_loop_collect {B : Type} (g : string * Model -> B)
    (ps : list config.Provider) (acc : list (string * Model)) :
  config.GetModels_loop registry
    (fun modelName m options => (options ++ [g (modelName, m)], true))
    ps (map g acc) =
  map g (config.GetModels_loop registry
           (fun modelName m options => (options ++ [(modelName, m)], true))
           ps acc).
Proof.
  revert acc. induction ps as [|p ps' IH]; intros acc; simpl; [reflexivity|].
  destruct (config.Get registry p) as [[pp|] [err|]]; try reflexivity.
  rewrite (yieldModels_collect (fun k m => g (k, m))).
  rewrite (yieldModels_collect (fun k m => (k, m))).
  rewrite <- IH. f_equal. rewrite map_app, map_map. reflexivity.
Qed.

Lemma HasPrefix_slash (c : ascii) (p' : string) :
  strings.HasPrefix (String c p') "/" = Ascii.eqb "/" c.
Proof.
  unfold strings.HasPrefix. cbn [strings.trimPrefix].
  destruct (Ascii.eqb "/" c); [destruct p'|]; reflexivity.
Qed.

Lemma not_slash_not_command (p : string) :
  strings.HasPrefix p "/" = false ->
  String.eqb p "/models" = false /\ String.eqb p "/settings" = false /\
  String.eqb p "/exit" = false /\ String.eqb p "/retry" = false.
Proof.
  destruct p as [|c p']; [intros _; repeat split|].
  rewrite HasPrefix_slash, Ascii.eqb_sym. intros E.
  cbn [String.eqb]. rewrite E. repeat split.
Qed.

Lemma run_consumes (script rest : list FormResult) (st st' : State)
    (err : option error) :
  run registry cfg script st = Returned rest st' err ->
  length rest < length script.
Proof.
  unfold run. destruct script as [|[values|e] script']; [discriminate| |].
  - set (st1 := setPrompt st (hd (prompt st) values)).
    destruct (String.eqb (prompt st1) "/models").
    { unfold runModels. destruct script' as [|[vs|e] script''];
        [discriminate | |]; intros [= <- _ _]; simpl; lia. }
    destruct (String.eqb (prompt st1) "/settings").
    { unfold runSettings.
      destruct (HuhGroup (cells st1) (modelSettings st1)) as [h fields].
      destruct script' as [|[vs|e] script''];
        [discriminate | |]; intros [= <- _ _]; simpl; lia. }
    destruct (String.eqb (prompt st1) "/exit").
    { intros [= <- _ _]. simpl. lia. }
    assert (Hgen : forall s, generate registry script' s = Returned rest st' err ->
                             length rest < length (Submit values :: script')).
    { intros s. unfold generate.
      destruct (strings.HasPrefix (prompt s) "/");
        [intros [= <- _ _]; simpl; lia|].
      destruct (strings.SplitN2 (model s) "/") as [|a [|b [|c l]]];
        try (intros [= <- _ _]; simpl; lia).
      destruct (GetProviderByName registry a) as [[pp|] [e|]];
        try (intros [= <- _ _]; simpl; lia).
      destruct (GenerateImage pp b (prompt s) (cells s) (modelSettings s) (world s))
        as [w [out [e|]]]; intros [= <- _ _]; simpl; lia. }
    destruct (String.eqb (prompt st1) "/retry"); apply Hgen.
  - intros [= <- _ _]. simpl. lia.
Qed.

(** The loop never runs out of fuel when given more fuel than forms. *)
Lemma loop_fuel_suffices (fuel : nat) (script : list FormResult) (st : State) :
  length script < fuel -> loop registry cfg fuel script st <> OutOfFuel.
Proof.
  revert script st. induction fuel as [|fuel' IH]; intros script st Hlt; [lia|].
  simpl. destruct (run registry cfg script st) as [rest st' [err|]|st'] eqn:E.
  - destruct (Is err "errExit"); [discriminate|].
    destruct (Is err "huh.ErrUserAborted"); discriminate.
  - apply IH. apply run_consumes in E. lia.
  - discriminate.
Qed.

(** The options of the model form are the models of all configured
    providers, in the order the iterator yields them. *)
Lemma modelOptions_allModels :
  modelOptions registry cfg =
  map (fun km => (ModelDisplayName (snd km), fst km))
    (config.allModels registry cfg).
Proof.
  unfold modelOptions, config.allModels, config.GetModels.
  rewrite <- GetModels_loop_collect. reflexivity.
Qed.

(** A prompt that is no command, on a model whose provider is found:
    when [GenerateImage] fails, [run] returns the error wrapped, and the
    loop returns at once, leaving the forms to come unread. *)
Lemma loop_generate_error (fuel : nat) (p : string) (rest : list FormResult)
    (st : State) (providerName modelName : string) (pp : Provider W) (w' : W)
    (out : list string) (e : error) :
  strings.HasPrefix p "/" = false ->
  strings.SplitN2 (model st) "/" = [providerName; modelName] ->
  GetProviderByName registry providerName = (Some pp, None) ->
  GenerateImage pp modelName p (cells st) (modelSettings st) (world st) =
    (w', (out, Some e)) ->
  loop registry cfg (S fuel) (Submit [p] :: rest) st =
  Finished rest (setWorld (setPrompt st p) w')
    (if Is e "errExit" || Is e "huh.ErrUserAborted" then None
     else Some (Wrapf "failed to generate image: %w" [] e)).
Proof.
  intros Hp Hsplit Hfind Hgen.
  destruct (not_slash_not_command p Hp) as (H1 & H2 & H3 & H4).
  cbn [loop run hd]. cbn [prompt setPrompt].
  rewrite H1, H2, H3, H4. unfold generate.
  cbn [prompt setPrompt model cells modelSettings world].
  rewrite Hp, Hsplit, Hfind, Hgen.
  cbn [Is]. destruct (Is e "errExit"); [reflexivity|].
  destruct (Is e "huh.ErrUserAborted"); reflexivity.
Qed.

End Session.

(** C2 at its failing input: on the first model of a provider, the user
    enters [/models] and selects the second model.  The form shows both
    models and the model identifier becomes the second model's, but the
    settings collection stays the first model's. *)
Theorem models_command_leaves_settings_stale :
  exists st,
    run studio studioConfig [Submit ["/models"]; Submit ["studio/photo"]]
      onSketch = Returned [] st None /\
    stdout st =
      [ModelForm [("Sketch", "studio/sketch"); ("Photo", "studio/photo")]] /\
    model st = "studio/photo" /\
    modelSettings st = Settings sketch /\
    In ("studio/photo", photo) (config.allModels studio studioConfig) /\
    Settings photo <> Settings sketch.
Proof.
  eexists. split; [apply run_models|].
  repeat split; [right; left; reflexivity | discriminate].
Qed.

(** C1, as stated, fails: the backend refuses the first prompt, and the
    command returns the error with the second prompt never read. *)
Lemma backend_error_ends_session :
  returned
    (RunE (googleOnly refusing) (googleConfig, None) googleCells loggedIn
       [Submit ["a lighthouse at dusk"]; Submit ["a harbour at dawn"]]) =
  Some ([Submit ["a harbour at dawn"]],
        Some (Wrapf "failed to generate image: %w" []
                (Wrapf "google: %w" [] (Errorf "connection refused" [])))).
Proof. vm_compute. reflexivity. Qed.

(** C1, amended: the Google provider wraps a backend error under its
    name, and the session wraps the error of [GenerateImage] once more and
    returns it: the loop ends at once, the forms to come are never read,
    and the last prompt is not recorded.  (An error that wraps the form
    library's abort error ends the loop as well, without an error.) *)
Theorem generate_error_is_wrapped_and_ends_loop :
  (forall (K : Type) (KI : keyring.Keyring K) (env : Env) (c : genai.Client)
          (modelName p : string) (h : Store) (settings : ModelSettings)
          (w : GoogleState K) (err : error),
     client w = Some c ->
     GenerateImages env c modelName p
       {| genai.NumberOfImages :=
            int32 (GetModelSettingInt h settings "number_of_images" 1);
          genai.AspectRatio :=
            GetModelSettingString h settings "aspect_ratio" "1:1";
          genai.IncludeRAIReason := true |} = inr err ->
     Google_GenerateImage env modelName p h settings w =
     (w, ([], Some (Wrapf "google: %w" [] err)))) /\
  (forall (W : Type) (registry : list (Provider W)) (cfg : config.Config)
          (fuel : nat) (p : string) (rest : list FormResult)
          (st : State) (providerName modelName : string) (pp : Provider W)
          (w' : W) (out : list string) (e : error),
     strings.HasPrefix p "/" = false ->
     strings.SplitN2 (model st) "/" = [providerName; modelName] ->
     GetProviderByName registry providerName = (Some pp, None) ->
     GenerateImage pp modelName p (cells st) (modelSettings st) (world st) =
       (w', (out, Some e)) ->
     loop registry cfg (S fuel) (Submit [p] :: rest) st =
     Finished rest (setWorld (setPrompt st p) w')
       (if Is e "errExit" || Is e "huh.ErrUserAborted" then None
        else Some (Wrapf "failed to generate image: %w" [] e)) /\
     lastPrompt (setWorld (setPrompt st p) w') = lastPrompt st).
Proof.
  split.
  - intros K KI env c modelName p h settings w err Hc Hgen.
    unfold Google_GenerateImage. rewrite Hc. unfold generateWith.
    rewrite Hgen. reflexivity.
  - intros. split; [apply loop_generate_error with providerName modelName pp out;
                    assumption | reflexivity].
Qed.

Lemma generate_error_is_wrapped_and_ends_loop_witness :
  Google_GenerateImage refusing "imagen-4.0-generate-001"
    "a lighthouse at dusk" googleCells googleSettings
    (withClient loggedIn (Some {| genai.APIKey := "secret-key" |})) =
  (withClient loggedIn (Some {| genai.APIKey := "secret-key" |}),
   ([], Some (Wrapf "google: %w" [] (Errorf "connection refused" [])))) /\
  loop (googleOnly refusing) googleConfig 3
    [Submit ["a lighthouse at dusk"]; Submit ["a harbour at dawn"]]
    (onImagen loggedIn) =
  Finished [Submit ["a harbour at dawn"]]
    (setWorld (setPrompt (onImagen loggedIn) "a lighthouse at dusk")
       (withClient loggedIn (Some {| genai.APIKey := "secret-key" |})))
    (Some (Wrapf "failed to generate image: %w" []
             (Wrapf "google: %w" [] (Errorf "connection refused" [])))).
Proof.
  split.
  - apply (proj1 generate_error_is_wrapped_and_ends_loop
             _ _ refusing {| genai.APIKey := "secret-key" |});
      reflexivity.
  - apply (proj2 generate_error_is_wrapped_and_ends_loop
             _ (googleOnly refusing) googleConfig 2 "a lighthouse at dusk"
             [Submit ["a harbour at dawn"]] (onImagen loggedIn)
             "google" "imagen-4.0-generate-001" (GoogleProvider refusing)
             (withClient loggedIn (Some {| genai.APIKey := "secret-key" |}))
             [] (Wrapf "google: %w" [] (Errorf "connection refused" [])));
      reflexivity.
Defined.

(** The root command always ends or waits for input: the fuel it gives
    the loop is never used up. *)
Lemma RunE_never_out_of_fuel {W : Type} (registry : list (Provider W))
    (getConfig : config.Config * option error) (h : Store) (w : W)
    (script : list FormResult) :
  RunE registry getConfig h w script <> OutOfFuel.
Proof.
  unfold RunE. destruct getConfig as [cfg [e|]]; [discriminate|].
  destruct (findDefault registry cfg (config.DefaultModel cfg)) as [found settings].
  destruct (if found then (config.DefaultModel cfg, settings)
            else firstModel registry cfg settings) as [model1 settings1].
  destruct (String.eqb model1 ""); [discriminate|].
  apply loop_fuel_suffices. lia.
Qed.

End SessionProps.

(** ** The Google provider *)

Module GoogleProps.

Import providers Spec Samples.

Section Images.

Context {K : Type} `{!keyring.Keyring K}.
Variable env : Env.
Variables dir nowDateTime : string.

Lemma allPaths_length (imgs : list genai.GeneratedImage) (i : nat) :
  length (allPaths dir nowDateTime imgs i) = length imgs.
Proof.
  revert i. induction imgs as [|img imgs' IH]; intros i; simpl;
    [reflexivity | rewrite IH; reflexivity].
Qed.

Lemma writeImages_accepted (img : genai.GeneratedImage)
    (imgs : list genai.GeneratedImage) (i : nat) (w : GoogleState K)
    (filePaths : list string) :
  imageError env dir nowDateTime i img = None ->
  writeImages env dir nowDateTime (img :: imgs) i w filePaths =
  writeImages env dir nowDateTime imgs (S i)
    (withFile w (imagePath dir nowDateTime i img) (genai.ImageBytes (genai.Image_ img)))
    (filePaths ++ [imagePath dir nowDateTime i img]).
Proof.
  unfold imageError, imagePath. simpl.
  destruct (extension (genai.MIMEType (genai.Image_ img))) as [ext|];
    [|discriminate].
  simpl.
  destruct (WriteFile env _ _); [discriminate | reflexivity].
Qed.

Lemma writeImages_rejected (img : genai.GeneratedImage)
    (imgs : list genai.GeneratedImage) (i : nat) (w : GoogleState K)
    (filePaths : list string) (e : error) :
  imageError env dir nowDateTime i img = Some e ->
  writeImages env dir nowDateTime (img :: imgs) i w filePaths =
  (w, ([], Some e)).
Proof.
  unfold imageError, imagePath. simpl.
  destruct (extension (genai.MIMEType (genai.Image_ img))) as [ext|].
  - simpl. destruct (WriteFile env _ _); [|discriminate].
    intros [= <-]. reflexivity.
  - intros [= <-]. reflexivity.
Qed.

(** Every image accepted: one path per image, in order. *)
Lemma writeImages_all (imgs : list genai.GeneratedImage) (i : nat)
    (w : GoogleState K) (filePaths : list string) :
  allAccepted env dir nowDateTime imgs i ->
  writeImages env dir nowDateTime imgs i w filePaths =
  (writeAll dir nowDateTime imgs i w, (filePaths ++ allPaths dir nowDateTime imgs i, None)).
Proof.
  revert i w filePaths.
  induction imgs as [|img imgs' IH]; intros i w filePaths.
  - intros _. simpl. rewrite app_nil_r. reflexivity.
  - intros [Hacc Hrest]. rewrite (writeImages_accepted _ _ _ _ _ Hacc).
    rewrite (IH _ _ _ Hrest). simpl. rewrite <- app_assoc. reflexivity.
Qed.

(** The first image that is not accepted: the call fails with its error
    and no path, after the images before it were written. *)
Lemma writeImages_first_rejected (before : list genai.GeneratedImage)
    (img : genai.GeneratedImage) (after : list genai.GeneratedImage) (i : nat)
    (w : GoogleState K) (filePaths : list string) (e : error) :
  allAccepted env dir nowDateTime before i ->
  imageError env dir nowDateTime (i + length before) img = Some e ->
  writeImages env dir nowDateTime (before ++ img :: after) i w filePaths =
  (writeAll dir nowDateTime before i w, ([], Some e)).
Proof.
  revert i w filePaths.
  induction before as [|b before' IH]; intros i w filePaths.
  - intros _ He. simpl in He. rewrite Nat.add_0_r in He.
    apply writeImages_rejected. exact He.
  - intros [Hacc Hrest] He. simpl app.
    rewrite (writeImages_accepted _ _ _ _ _ Hacc).
    apply IH; [exact Hrest|].
    simpl in He. rewrite <- Nat.add_succ_comm in He. exact He.
Qed.

End Images.

(** A [Login] that succeeds leaves the provider with a live client. *)
Lemma Login_sets_client {K : Type} `{!keyring.Keyring K} (env : Env)
    (credentials : gmap string string) (w w' : GoogleState K) :
  Google_Login env credentials w = (w', None) -> client w' <> None.
Proof.
  unfold Google_Login. destruct (client w) as [c|] eqn:Ec.
  - intros [= <-]. rewrite Ec. discriminate.
  - destruct (credentials !! "api_key") as [apiKey|]; [|discriminate].
    destruct (NewClient env apiKey) as [c|err]; [|discriminate].
    intros [= <-]. discriminate.
Qed.

(** Not logged in: [GenerateImage] returns the error of
    [LoadCredentials] and asks nothing of the backend, whatever the
    environment would answer. *)
Lemma GenerateImage_not_logged_in (env : Env) (modelName p : string)
    (h : Store) (settings : ModelSettings) :
  Google_GenerateImage env modelName p h settings loggedOut =
  (loggedOut, ([], Some (Errorf "not logged in to Google" []))).
Proof. reflexivity. Qed.

(** A login that fails while [GenerateImage] logs in: the error names the
    provider, and the backend is not asked to generate. *)
Lemma GenerateImage_login_fails {K : Type} `{!keyring.Keyring K} (env : Env)
    (modelName p : string) (h : Store) (settings : ModelSettings)
    (w : GoogleState K) (apiKey : string) (err : error) :
  client w = None ->
  keyring.Get keyringServiceName "google" (secrets w) = (apiKey, None) ->
  NewClient env apiKey = inr err ->
  Google_GenerateImage env modelName p h settings w =
  (w, ([], Some (Wrapf "failed to login to Google: %w" []
                   (Wrapf "failed to create GenAI client: %w" [] err)))).
Proof.
  intros Hc Hget Hnew.
  unfold Google_GenerateImage, Google_LoadCredentials, Google_Login.
  rewrite Hc, Hget, Hc.
  rewrite lookup_singleton_eq. rewrite Hnew. reflexivity.
Qed.

(** C4, as stated, fails twice.  Of three images, the second filtered
    upstream: the call fails with no path, and the third image is never
    written, while the first stays on disk.  Of no image at all: the call
    succeeds with an empty list of paths. *)
Lemma filtered_image_fails_call_and_no_image_succeeds :
  snd (Google_GenerateImage (answering [pngImage; filteredImage; pngImage])
         "imagen-4.0-generate-001" "a lighthouse at dusk" googleCells
         googleSettings loggedIn) =
    ([], Some (Errorf "unsupported image type: %q" [""])) /\
  files (fst (Google_GenerateImage
                (answering [pngImage; filteredImage; pngImage])
                "imagen-4.0-generate-001" "a lighthouse at dusk" googleCells
                googleSettings loggedIn))
    !! "/home/user/Downloads/climage/2025-09-01T12:00:00Z_0_.png" =
    Some [Byte.x89; Byte.x50; Byte.x4e; Byte.x47] /\
  files (fst (Google_GenerateImage
                (answering [pngImage; filteredImage; pngImage])
                "imagen-4.0-generate-001" "a lighthouse at dusk" googleCells
                googleSettings loggedIn))
    !! "/home/user/Downloads/climage/2025-09-01T12:00:00Z_2_.png" = None /\
  snd (Google_GenerateImage (answering []) "imagen-4.0-generate-001"
         "a lighthouse at dusk" googleCells googleSettings loggedIn) =
    ([], None).
Proof. vm_compute. repeat split. Qed.

(** C4, amended: with a live client, a backend answer and an output
    directory, [GenerateImage] skips nothing.  If every image of the
    answer has a supported content type and its file can be written, the
    call writes them all and returns one path per image, in order: an
    answer of no image is a success with no path.  Otherwise the first
    image that is not accepted makes the whole call fail with that
    image's error and no path; the images before it stay written. *)
Theorem GenerateImage_writes_all_or_fails :
  forall (K : Type) (KI : keyring.Keyring K) (env : Env) (c : genai.Client)
         (modelName p : string) (h : Store) (settings : ModelSettings)
         (w : GoogleState K) (resp : genai.GenerateImagesResponse)
         (d : string),
    client w = Some c ->
    GenerateImages env c modelName p
      {| genai.NumberOfImages :=
           int32 (GetModelSettingInt h settings "number_of_images" 1);
         genai.AspectRatio :=
           GetModelSettingString h settings "aspect_ratio" "1:1";
         genai.IncludeRAIReason := true |} = inl resp ->
    GetUserDownloadsDir env = (d, None) ->
    (allAccepted env (filepath_Join d "climage") (Now env)
       (genai.GeneratedImages resp) 0 ->
     Google_GenerateImage env modelName p h settings w =
     (writeAll (filepath_Join d "climage") (Now env)
        (genai.GeneratedImages resp) 0 w,
      (allPaths (filepath_Join d "climage") (Now env)
         (genai.GeneratedImages resp) 0, None)) /\
     length (allPaths (filepath_Join d "climage") (Now env)
               (genai.GeneratedImages resp) 0) =
     length (genai.GeneratedImages resp)) /\
    (forall before img after e,
       genai.GeneratedImages resp = before ++ img :: after ->
       allAccepted env (filepath_Join d "climage") (Now env) before 0 ->
       imageError env (filepath_Join d "climage") (Now env)
         (length before) img = Some e ->
       Google_GenerateImage env modelName p h settings w =
       (writeAll (filepath_Join d "climage") (Now env) before 0 w,
        ([], Some e))).
Proof.
  intros K KI env c modelName p h settings w resp d Hc Hgen Hdir.
  assert (Hrun : Google_GenerateImage env modelName p h settings w =
                 writeImages env (filepath_Join d "climage") (Now env)
                   (genai.GeneratedImages resp) 0 w []).
  { unfold Google_GenerateImage. rewrite Hc. unfold generateWith.
    rewrite Hgen. unfold getOutDir. rewrite Hdir. reflexivity. }
  split.
  - intros Hall. split; [|apply allPaths_length].
    rewrite Hrun. rewrite (writeImages_all _ _ _ _ _ _ _ Hall). reflexivity.
  - intros before img after e Himgs Hall He.
    rewrite Hrun, Himgs. apply writeImages_first_rejected; assumption.
Qed.

Lemma GenerateImage_writes_all_or_fails_witness :
  Google_GenerateImage (answering []) "imagen-4.0-generate-001"
    "a lighthouse at dusk" googleCells googleSettings
    (withClient loggedIn (Some {| genai.APIKey := "secret-key" |})) =
  (withClient loggedIn (Some {| genai.APIKey := "secret-key" |}), ([], None)) /\
  Google_GenerateImage (answering [pngImage; filteredImage; pngImage])
    "imagen-4.0-generate-001" "a lighthouse at dusk" googleCells
    googleSettings
    (withClient loggedIn (Some {| genai.APIKey := "secret-key" |})) =
  (writeAll "/home/user/Downloads/climage" "2025-09-01T12:00:00Z"
     [pngImage] 0
     (withClient loggedIn (Some {| genai.APIKey := "secret-key" |})),
   ([], Some (Errorf "unsupported image type: %q" [""]))).
Proof.
  split.
  - apply (proj1 (GenerateImage_writes_all_or_fails _ _ (answering [])
             {| genai.APIKey := "secret-key" |} "imagen-4.0-generate-001"
             "a lighthouse at dusk" googleCells googleSettings
             (withClient loggedIn (Some {| genai.APIKey := "secret-key" |}))
             {| genai.GeneratedImages := [] |} "/home/user/Downloads"
             eq_refl eq_refl eq_refl) I).
  - apply (proj2 (GenerateImage_writes_all_or_fails _ _
             (answering [pngImage; filteredImage; pngImage])
             {| genai.APIKey := "secret-key" |} "imagen-4.0-generate-001"
             "a lighthouse at dusk" googleCells googleSettings
             (withClient loggedIn (Some {| genai.APIKey := "secret-key" |}))
             {| genai.GeneratedImages := [pngImage; filteredImage; pngImage] |}
             "/home/user/Downloads" eq_refl eq_refl eq_refl)
             [pngImage] filteredImage [pngImage]
             (Errorf "unsupported image type: %q" [""]));
      [reflexivity | split; [reflexivity | exact I] | reflexivity].
Defined.

(** [DeleteCredentials] hands the provider's entry to the secret store
    and returns what the store's [Delete] returns. *)
Lemma DeleteCredentials_returns_store_result {K : Type} `{!keyring.Keyring K}
    (w : GoogleState K) :
  Google_DeleteCredentials w =
  (withSecrets w (fst (keyring.Delete keyringServiceName "google" (secrets w))),
   snd (keyring.Delete keyringServiceName "google" (secrets w))).
Proof.
  unfold Google_DeleteCredentials.
  destruct (keyring.Delete keyringServiceName "google" (secrets w)).
  reflexivity.
Qed.

(** C6, as stated, fails: with nothing stored, [DeleteCredentials]
    returns the store's not-found error; and so does a second call after
    a first one that succeeded. *)
Lemma DeleteCredentials_absent_is_an_error :
  snd (Google_DeleteCredentials loggedOut) = Some keyring.ErrNotFound /\
  snd (Google_DeleteCredentials loggedIn) = None /\
  snd (Google_DeleteCredentials (fst (Google_DeleteCredentials loggedIn))) =
    Some keyring.ErrNotFound.
Proof. repeat split. Qed.

(** C6, amended: [DeleteCredentials] removes the provider's secret and
    returns success when one is stored; when none is stored it changes
    nothing and returns the secret store's not-found error. *)
Theorem DeleteCredentials_removes_or_reports_absent :
  forall (w : GoogleState (gmap (string * string) string)),
    Google_DeleteCredentials w =
    match secrets w !! (keyringServiceName, "google") with
    | Some _ =>
        (withSecrets w (delete (keyringServiceName, "google") (secrets w)),
         None)
    | None => (w, Some keyring.ErrNotFound)
    end.
Proof.
  intros w. rewrite DeleteCredentials_returns_store_result. simpl.
  destruct (secrets w !! (keyringServiceName, "google")); simpl;
    [reflexivity|].
  destruct w; reflexivity.
Qed.

End GoogleProps.

(** * Further properties of the code *)

Module IteratorExtra.

Import providers cmd Spec SpecExtra.

Section Iterator.

Context {W : Type}.
Variable registry : list (Provider W).

Lemma rangeOver_app {A : Type} (yield : string -> Model -> A -> A * bool)
    (l1 l2 : list (string * Model)) (a : A) :
  rangeOver yield (l1 ++ l2) a =
  (if snd (rangeOver yield l1 a) then rangeOver yield l2 (fst (rangeOver yield l1 a))
   else (fst (rangeOver yield l1 a), false)).
Proof.
  revert a. induction l1 as [|[k m] l1' IH]; intros a; simpl; [reflexivity|].
  destruct (yield k m a) as [a' [|]]; [apply IH | reflexivity].
Qed.

Lemma yieldModels_rangeOver {A : Type} (yield : string -> Model -> A -> A * bool)
    (providerName : string) (ms : list Model) (a : A) :
  config.yieldModels yield providerName ms a =
  rangeOver yield
    (map (fun m => ((providerName ++ "/" ++ ModelName m)%string, m)) ms) a.
Proof.
  revert a. induction ms as [|m ms' IH]; intros a; simpl; [reflexivity|].
  destruct (yield _ m a) as [a' [|]]; [apply IH | reflexivity].
Qed.

Lemma GetModels_loop_rangeOver {A : Type}
    (yield : string -> Model -> A -> A * bool) (ps : list config.Provider)
    (a : A) :
  config.GetModels_loop registry yield ps a =
  fst (rangeOver yield (concat (map keyed (resolved registry ps))) a).
Proof.
  revert a. induction ps as [|p ps' IH]; intros a; simpl; [reflexivity|].
  destruct (config.Get registry p) as [[pp|] [err|]]; try reflexivity.
  simpl. rewrite rangeOver_app, yieldModels_rangeOver. unfold keyed.
  destruct (rangeOver yield _ a) as [a' [|]]; simpl; [apply IH | reflexivity].
Qed.

Lemma rangeOver_collect (l acc : list (string * Model)) :
  rangeOver (fun modelName m acc' => (acc' ++ [(modelName, m)], true)) l acc =
  (acc ++ l, true).
Proof.
  revert acc. induction l as [|[k m] l' IH]; intros acc; simpl.
  - rewrite app_nil_r. reflexivity.
  - rewrite IH, <- app_assoc. reflexivity.
Qed.

Lemma allModels_resolved (cfg : config.Config) :
  config.allModels registry cfg =
  concat (map keyed (resolved registry (config.Providers cfg))).
Proof.
  unfold config.allModels, config.GetModels.
  rewrite GetModels_loop_rangeOver, rangeOver_collect. reflexivity.
Qed.

End Iterator.

Lemma GetModels_rangeOver {W A : Type}
    (registry : list (Provider W)) (yield : string -> Model -> A -> A * bool)
    (cfg : config.Config) (a : A) :
  config.GetModels registry yield cfg a =
  fst (rangeOver yield (config.allModels registry cfg) a).
Proof.
  rewrite allModels_resolved. apply GetModels_loop_rangeOver.
Qed.

(** X1: ranging over [Config.GetModels] with any loop body, breaking or
    not, is ranging over the list of the models it yields to a body that
    never breaks: the iterator stops exactly where the body says so. *)
Theorem GetModels_is_range_over_allModels :
  forall (W A : Type) (registry : list (Provider W))
         (yield : string -> Model -> A -> A * bool) (cfg : config.Config)
         (a : A),
    config.GetModels registry yield cfg a =
    fst (rangeOver yield (config.allModels registry cfg) a).
Proof.
  intros. rewrite allModels_resolved. apply GetModels_loop_rangeOver.
Qed.

Lemma Get_is_GetProviderByName {W : Type} (registry : list (Provider W))
    (p : config.Provider) :
  config.Get registry p = GetProviderByName registry (config.Name p).
Proof.
  unfold config.Get, GetProviderByName.
  induction registry as [|pp pps IH]; simpl; [reflexivity|].
  destruct (String.eqb (GetName pp) (config.Name p)); [reflexivity | exact IH].
Qed.

Lemma GetProviderByName_Some {W : Type} (registry : list (Provider W))
    (name : string) (pp : Provider W) :
  GetProviderByName registry name = (Some pp, None) ->
  GetName pp = name /\ In pp registry.
Proof.
  unfold GetProviderByName.
  induction registry as [|q qs IH]; simpl; [discriminate|].
  destruct (String.eqb (GetName q) name) eqn:E.
  - intros [= <-]. apply String.eqb_eq in E. auto.
  - intros H. destruct (IH H). auto.
Qed.

Lemma resolved_found {W : Type} (registry : list (Provider W))
    (ps : list config.Provider) (pp : Provider W) :
  In pp (resolved registry ps) ->
  In pp registry /\
  GetProviderByName registry (GetName pp) = (Some pp, None) /\
  In (GetName pp) (map config.Name ps).
Proof.
  induction ps as [|p ps' IH]; simpl; [contradiction|].
  rewrite Get_is_GetProviderByName.
  destruct (GetProviderByName registry (config.Name p)) as [[q|] [err|]] eqn:E;
    try contradiction.
  intros [<-|Hin].
  - destruct (GetProviderByName_Some _ _ _ E) as [Hn Hr].
    rewrite Hn. auto.
  - destruct (IH Hin) as (H1 & H2 & H3). auto.
Qed.

Lemma SplitN2_key (a b : string) :
  hasByte "/" a = false ->
  strings.SplitN2 (a ++ "/" ++ b)%string "/" = [a; b].
Proof.
  induction a as [|c a' IH]; simpl.
  - intros _. destruct b; reflexivity.
  - intros H. apply orb_false_iff in H. destruct H as [Hc Ha].
    rewrite Hc. rewrite (IH Ha). reflexivity.
Qed.

(** X2: the models [Config.GetModels] yields are the catalogs of the
    configured providers, in the order of the configuration and of each
    catalog, each model under the key [provider/model]; every provider
    they come from is the registered provider [GetProviderByName] returns
    for its name, and is named in the configuration. *)
Theorem allModels_are_the_catalogs_of_the_resolved_providers :
  forall (W : Type) (registry : list (Provider W)) (cfg : config.Config),
    config.allModels registry cfg =
      concat (map keyed (resolved registry (config.Providers cfg))) /\
    Forall (fun pp =>
              In pp registry /\
              GetProviderByName registry (GetName pp) = (Some pp, None) /\
              In (GetName pp) (map config.Name (config.Providers cfg)))
           (resolved registry (config.Providers cfg)).
Proof.
  intros W registry cfg. split; [apply allModels_resolved|].
  apply List.Forall_forall. intros pp Hin. apply resolved_found. exact Hin.
Qed.

Lemma key_resolves {W : Type} (registry : list (Provider W))
    (cfg : config.Config) (k : string) (m : Model) :
  Forall (fun pp => hasByte "/" (GetName pp) = false) registry ->
  In (k, m) (config.allModels registry cfg) ->
  exists pp,
    strings.SplitN2 k "/" = [GetName pp; ModelName m] /\
    GetProviderByName registry (GetName pp) = (Some pp, None) /\
    In m (GetModels pp).
Proof.
  intros Hslash Hin.
  rewrite allModels_resolved in Hin.
  apply in_concat in Hin. destruct Hin as (l & Hl & Hkm).
  apply in_map_iff in Hl. destruct Hl as (pp & <- & Hpp).
  unfold keyed in Hkm. apply in_map_iff in Hkm.
  destruct Hkm as (m' & [= <- <-] & Hm).
  destruct (resolved_found _ _ _ Hpp) as (Hreg & Hget & _).
  exists pp. split; [|auto].
  apply SplitN2_key. rewrite List.Forall_forall in Hslash. auto.
Qed.

(** X3: when no registered provider has a slash in its name, every key
    the iterator yields splits at its first slash into the name of a
    provider and the name of one of its models, and [GetProviderByName]
    returns that very provider for the name. *)
Theorem yielded_key_resolves_to_its_provider :
  forall (W : Type) (registry : list (Provider W)) (cfg : config.Config)
         (k : string) (m : Model),
    Forall (fun pp => hasByte "/" (GetName pp) = false) registry ->
    In (k, m) (config.allModels registry cfg) ->
    exists pp,
      strings.SplitN2 k "/" = [GetName pp; ModelName m] /\
      GetProviderByName registry (GetName pp) = (Some pp, None) /\
      In m (GetModels pp).
Proof.
  intros W registry cfg k m. apply key_resolves.
Qed.

Lemma yielded_key_resolves_to_its_provider_witness :
  exists pp,
    strings.SplitN2 "google/imagen-4.0-ultra-generate-001" "/" =
      [GetName pp; "imagen-4.0-ultra-generate-001"] /\
    GetProviderByName (Samples.googleOnly Samples.refusing) (GetName pp) =
      (Some pp, None) /\
    In {| ModelName := "imagen-4.0-ultra-generate-001";
          ModelDisplayName := "Imagen 4 Ultra"; Settings := googleSettings |}
       (GetModels pp).
Proof.
  apply (yielded_key_resolves_to_its_provider _
           (Samples.googleOnly Samples.refusing) Samples.googleConfig
           "google/imagen-4.0-ultra-generate-001"
           {| ModelName := "imagen-4.0-ultra-generate-001";
              ModelDisplayName := "Imagen 4 Ultra";
              Settings := googleSettings |}).
  - repeat constructor.
  - right. left. reflexivity.
Defined.

End IteratorExtra.

Module SessionExtra.

Import providers cmd Spec SpecExtra Samples.

Section Session.

Context {W : Type}.
Variable registry : list (Provider W).
Variable cfg : config.Config.

Lemma run_prompt (p : string) (rest : list FormResult) (st : State) :
  strings.HasPrefix p "/" = false ->
  run registry cfg (Submit [p] :: rest) st =
  generate registry rest (setPrompt st p).
Proof.
  intros Hp. destruct (SessionProps.not_slash_not_command p Hp) as (H1 & H2 & H3 & H4).
  cbn [run hd]. cbn [prompt setPrompt]. rewrite H1, H2, H3, H4. reflexivity.
Qed.

Lemma rangeOver_find (model0 : string) (l : list (string * Model))
    (acc : bool * ModelSettings) :
  rangeOver
    (fun modelName pm '(found, settings) =>
       if String.eqb model0 modelName then ((true, Settings pm), false)
       else ((found, settings), true))
    l acc =
  match List.find (fun km => String.eqb model0 (fst km)) l with
  | Some km => ((true, Settings (snd km)), false)
  | None => (acc, true)
  end.
Proof.
  induction l as [|[k m] l' IH]; simpl; [reflexivity|].
  destruct acc as [found settings].
  destruct (String.eqb model0 k); [reflexivity | apply IH].
Qed.

Lemma key_not_empty (k : string) (m : Model) :
  In (k, m) (config.allModels registry cfg) -> k <> "".
Proof.
  rewrite IteratorExtra.allModels_resolved. intros Hin.
  apply in_concat in Hin. destruct Hin as (l & Hl & Hkm).
  apply in_map_iff in Hl. destruct Hl as (pp & <- & _).
  unfold keyed in Hkm. apply in_map_iff in Hkm.
  destruct Hkm as (m' & [= <- <-] & _).
  destruct (GetName pp); discriminate.
Qed.

End Session.

(** X4: the root command starts on the configured default model when the
    iterator yields a model under that identifier, with the settings of
    the first such model; otherwise on the first model yielded; and it
    fails with "no model is available" exactly when nothing is yielded. *)
Theorem RunE_initial_model :
  forall (W : Type) (registry : list (Provider W)) (cfg : config.Config)
         (h : Store) (w : W) (script : list FormResult),
    RunE registry (cfg, None) h w script =
    match List.find (fun km => String.eqb (config.DefaultModel cfg) (fst km))
            (config.allModels registry cfg) with
    | Some km =>
        loop registry cfg (S (length script)) script
          (start (config.DefaultModel cfg) (Settings (snd km)) h w)
    | None =>
        match config.allModels registry cfg with
        | [] =>
            Finished script (start "" [] h w)
              (Some (Errorf "no model is available" []))
        | km :: _ =>
            loop registry cfg (S (length script)) script
              (start (fst km) (Settings (snd km)) h w)
        end
    end.
Proof.
  intros W registry cfg h w script. unfold RunE, findDefault, firstModel.
  rewrite IteratorExtra.GetModels_rangeOver.
  rewrite rangeOver_find.
  destruct (List.find _ (config.allModels registry cfg)) as [[k m]|] eqn:Ef.
  - cbn [fst snd]. apply List.find_some in Ef. destruct Ef as [Hin Heq].
    apply String.eqb_eq in Heq. cbn [fst] in Heq.
    assert (Hne : String.eqb (config.DefaultModel cfg) "" = false).
    { apply String.eqb_neq. rewrite Heq. eapply key_not_empty. exact Hin. }
    rewrite Hne. reflexivity.
  - cbn [fst snd].
    rewrite IteratorExtra.GetModels_rangeOver.
    destruct (config.allModels registry cfg) as [|[k m] l] eqn:El;
      [reflexivity|].
    cbn [rangeOver fst snd].
    assert (Hne : String.eqb k "" = false).
    { apply String.eqb_neq. apply (key_not_empty registry cfg k m).
      rewrite El. left. reflexivity. }
    rewrite Hne. reflexivity.
Qed.

(** X5: with no slash in the registered names and the session on a model
    the iterator yields, a prompt that is no command always reaches
    [GenerateImage] of the provider the identifier names, for the model it
    names, with the prompt and the current settings: the only error such a
    round can return is the wrapped error of [GenerateImage]. *)
Theorem prompt_reaches_the_provider_of_the_model :
  forall (W : Type) (registry : list (Provider W)) (cfg : config.Config)
         (p : string) (rest : list FormResult) (st : State) (m : Model),
    Forall (fun pp => hasByte "/" (GetName pp) = false) registry ->
    In (model st, m) (config.allModels registry cfg) ->
    strings.HasPrefix p "/" = false ->
    exists pp,
      GetProviderByName registry (GetName pp) = (Some pp, None) /\
      In m (GetModels pp) /\
      run registry cfg (Submit [p] :: rest) st =
      match GenerateImage pp (ModelName m) p (cells st) (modelSettings st)
              (world st) with
      | (w', (_, Some e)) =>
          Returned rest (setWorld (setPrompt st p) w')
            (Some (Wrapf "failed to generate image: %w" [] e))
      | (w', (out, None)) =>
          Returned rest
            (print (setLastPrompt (setWorld (setPrompt st p) w') p)
               (map FilePath out))
            None
      end.
Proof.
  intros W registry cfg p rest st m Hslash Hin Hp.
  destruct (IteratorExtra.key_resolves registry cfg _ _ Hslash Hin)
    as (pp & Hsplit & Hget & Hm).
  exists pp. split; [exact Hget|]. split; [exact Hm|].
  rewrite run_prompt by exact Hp. unfold generate.
  cbn [prompt setPrompt model cells modelSettings world].
  rewrite Hp, Hsplit, Hget.
  destruct (GenerateImage pp (ModelName m) p (cells st) (modelSettings st)
              (world st)) as [w' [out [e|]]]; reflexivity.
Qed.

Lemma prompt_reaches_the_provider_of_the_model_witness :
  exists pp,
    GetProviderByName (googleOnly refusing) (GetName pp) = (Some pp, None) /\
    In (List.hd sketch GoogleModels) (GetModels pp) /\
    run (googleOnly refusing) googleConfig
      [Submit ["a lighthouse at dusk"]] (onImagen loggedOut) =
    match GenerateImage pp (ModelName (List.hd sketch GoogleModels))
            "a lighthouse at dusk" (cells (onImagen loggedOut))
            (modelSettings (onImagen loggedOut)) (world (onImagen loggedOut))
    with
    | (w', (_, Some e)) =>
        Returned [] (setWorld (setPrompt (onImagen loggedOut)
                                 "a lighthouse at dusk") w')
          (Some (Wrapf "failed to generate image: %w" [] e))
    | (w', (out, None)) =>
        Returned []
          (print (setLastPrompt
                    (setWorld (setPrompt (onImagen loggedOut)
                                 "a lighthouse at dusk") w')
                    "a lighthouse at dusk")
             (map FilePath out))
          None
    end.
Proof.
  apply (prompt_reaches_the_provider_of_the_model _ (googleOnly refusing)
           googleConfig "a lighthouse at dusk" [] (onImagen loggedOut)
           (List.hd sketch GoogleModels)).
  - repeat constructor.
  - left. reflexivity.
  - reflexivity.
Defined.

(** X6: a successful generation records the prompt as the last prompt,
    prints the paths in the order returned, leaves the model, its settings
    and their cells as they were, and the loop goes on to the next form
    with an empty prompt. *)
Theorem successful_generation_continues :
  forall (W : Type) (registry : list (Provider W)) (cfg : config.Config)
         (fuel : nat) (p : string) (rest : list FormResult) (st : State)
         (providerName modelName : string) (pp : Provider W) (w' : W)
         (out : list string),
    strings.HasPrefix p "/" = false ->
    strings.SplitN2 (model st) "/" = [providerName; modelName] ->
    GetProviderByName registry providerName = (Some pp, None) ->
    GenerateImage pp modelName p (cells st) (modelSettings st) (world st) =
      (w', (out, None)) ->
    loop registry cfg (S fuel) (Submit [p] :: rest) st =
    loop registry cfg fuel rest
      {| prompt := ""; lastPrompt := p; model := model st;
         modelSettings := modelSettings st; cells := cells st; world := w';
         stdout := stdout st ++ map FilePath out |}.
Proof.
  intros W registry cfg fuel p rest st providerName modelName pp w' out
    Hp Hsplit Hfind Hgen.
  cbn [loop]. rewrite run_prompt by exact Hp. unfold generate.
  cbn [prompt setPrompt model cells modelSettings world].
  rewrite Hp, Hsplit, Hfind, Hgen. reflexivity.
Qed.

Lemma successful_generation_continues_witness :
  loop studio studioConfig 2 [Submit ["a lighthouse at dusk"]; Submit ["/exit"]]
    onSketch =
  loop studio studioConfig 1 [Submit ["/exit"]]
    {| prompt := ""; lastPrompt := "a lighthouse at dusk";
       model := model onSketch; modelSettings := modelSettings onSketch;
       cells := cells onSketch; world := tt;
       stdout := stdout onSketch ++ map FilePath ["/out/a.png"] |}.
Proof.
  apply (successful_generation_continues _ studio studioConfig 1
           "a lighthouse at dusk" [Submit ["/exit"]] onSketch "studio" "sketch"
           (stub "studio" [sketch; photo] (["/out/a.png"], None)) tt
           ["/out/a.png"]); reflexivity.
Defined.

(** X7: a line that starts with a slash and is none of the four commands
    is reported as an invalid command and nothing else happens: no
    provider is asked, and the loop goes on to the next form. *)
Theorem invalid_command_is_reported_and_skipped :
  forall (W : Type) (registry : list (Provider W)) (cfg : config.Config)
         (fuel : nat) (p : string) (rest : list FormResult) (st : State),
    strings.HasPrefix p "/" = true ->
    p <> "/models" -> p <> "/settings" -> p <> "/exit" -> p <> "/retry" ->
    loop registry cfg (S fuel) (Submit [p] :: rest) st =
    loop registry cfg fuel rest
      {| prompt := ""; lastPrompt := lastPrompt st; model := model st;
         modelSettings := modelSettings st; cells := cells st;
         world := world st; stdout := stdout st ++ [InvalidCommand p] |}.
Proof.
  intros W registry cfg fuel p rest st Hp H1 H2 H3 H4.
  apply String.eqb_neq in H1, H2, H3, H4.
  cbn [loop run hd]. cbn [prompt setPrompt]. rewrite H1, H2, H3, H4.
  unfold generate. cbn [prompt setPrompt]. rewrite Hp. reflexivity.
Qed.

Lemma invalid_command_is_reported_and_skipped_witness :
  loop studio studioConfig 2 [Submit ["/help"]; Submit ["/exit"]] onSketch =
  loop studio studioConfig 1 [Submit ["/exit"]]
    {| prompt := ""; lastPrompt := lastPrompt onSketch; model := model onSketch;
       modelSettings := modelSettings onSketch; cells := cells onSketch;
       world := world onSketch;
       stdout := stdout onSketch ++ [InvalidCommand "/help"] |}.
Proof.
  apply (invalid_command_is_reported_and_skipped _ studio studioConfig 1
           "/help" [Submit ["/exit"]] onSketch);
    [reflexivity | discriminate..].
Defined.

(** X8: the last prompt never starts with a slash, in any state a round
    of the session leaves; and then [/retry] is the same round as
    entering the last prompt again (the empty prompt when no generation
    has succeeded yet). *)
Theorem retry_is_the_last_prompt_again :
  forall (W : Type) (registry : list (Provider W)) (cfg : config.Config)
         (st : State),
    strings.HasPrefix (lastPrompt st) "/" = false ->
    (forall script rest st' err,
       run registry cfg script st = Returned rest st' err ->
       strings.HasPrefix (lastPrompt st') "/" = false) /\
    (forall rest,
       run registry cfg (Submit ["/retry"] :: rest) st =
       run registry cfg (Submit [lastPrompt st] :: rest) st).
Proof.
  intros W registry cfg st Hinv. split.
  - intros script rest st' err. unfold run.
    destruct script as [|[values|e] script']; [discriminate| |].
    + set (st1 := setPrompt st (hd (prompt st) values)).
      assert (Hgen : forall s, lastPrompt s = lastPrompt st ->
                generate registry script' s = Returned rest st' err ->
                strings.HasPrefix (lastPrompt st') "/" = false).
      { intros s Hs. unfold generate.
        destruct (strings.HasPrefix (prompt s) "/") eqn:Hp;
          [intros [= _ <- _]; cbn; rewrite Hs; exact Hinv|].
        destruct (strings.SplitN2 (model s) "/") as [|a [|b [|c l]]];
          try (intros [= _ <- _]; cbn; rewrite ?Hs; exact Hinv).
        destruct (GetProviderByName registry a) as [[pp|] [e|]];
          try (intros [= _ <- _]; cbn; rewrite ?Hs; exact Hinv).
        destruct (GenerateImage pp b (prompt s) (cells s) (modelSettings s)
                    (world s)) as [w [out [e|]]]; intros [= _ <- _]; cbn.
        - rewrite Hs. exact Hinv.
        - exact Hp. }
      destruct (String.eqb (prompt st1) "/models").
      { unfold runModels. destruct script' as [|[vs|e] script''];
          [discriminate | |]; intros [= _ <- _]; exact Hinv. }
      destruct (String.eqb (prompt st1) "/settings").
      { unfold runSettings.
        destruct (HuhGroup (cells st1) (modelSettings st1)) as [h fields].
        destruct script' as [|[vs|e] script''];
          [discriminate | |]; intros [= _ <- _]; exact Hinv. }
      destruct (String.eqb (prompt st1) "/exit").
      { intros [= _ <- _]. exact Hinv. }
      destruct (String.eqb (prompt st1) "/retry"); apply Hgen; reflexivity.
    + intros [= _ <- _]. exact Hinv.
  - intros rest. rewrite (run_prompt _ _ (lastPrompt st) rest st Hinv).
    reflexivity.
Qed.

Lemma retry_is_the_last_prompt_again_witness :
  run studio studioConfig [Submit ["/retry"]] onSketch =
  run studio studioConfig [Submit [lastPrompt onSketch]] onSketch.
Proof.
  apply (proj2 (retry_is_the_last_prompt_again _ studio studioConfig onSketch
                  eq_refl)).
Defined.

(** X9: [/exit], and the user's abort of the prompt form, of the model
    form or of the settings form, end the command without an error, with
    the forms to come unread and the providers' state, the model and the
    last prompt as they were.  Any other failure of the prompt form is
    returned, wrapped. *)
Theorem exit_and_abort_end_the_session_cleanly :
  forall (W : Type) (registry : list (Provider W)) (cfg : config.Config)
         (fuel : nat) (rest : list FormResult) (st : State),
    (forall script,
       In script
         [Submit ["/exit"] :: rest;
          Abort ErrUserAborted :: rest;
          Submit ["/models"] :: Abort ErrUserAborted :: rest;
          Submit ["/settings"] :: Abort ErrUserAborted :: rest] ->
       exists st',
         loop registry cfg (S fuel) script st = Finished rest st' None /\
         world st' = world st /\ model st' = model st /\
         modelSettings st' = modelSettings st /\
         lastPrompt st' = lastPrompt st) /\
    (forall e,
       Is e "errExit" = false -> Is e "huh.ErrUserAborted" = false ->
       loop registry cfg (S fuel) (Abort e :: rest) st =
       Finished rest st (Some (Wrapf "failed to run prompt form: %w" [] e))).
Proof.
  intros W registry cfg fuel rest st. split.
  - intros script [<-|[<-|[<-|[<-|[]]]]].
    + eexists. split; [reflexivity|]. repeat split.
    + eexists. split; [reflexivity|]. repeat split.
    + eexists. split; [reflexivity|]. repeat split.
    + cbn [loop run hd]. cbn [prompt setPrompt].
      change (String.eqb "/settings" "/models") with false.
      change (String.eqb "/settings" "/settings") with true.
      cbv iota. unfold runSettings.
      destruct (HuhGroup _ _) as [h fields].
      eexists. split; [reflexivity|]. repeat split.
  - intros e H1 H2. cbn [loop run Is]. rewrite H1, H2. reflexivity.
Qed.

Lemma exit_and_abort_end_the_session_cleanly_witness :
  loop studio studioConfig 1 [Abort (Errorf "terminal closed" [])] onSketch =
  Finished [] onSketch
    (Some (Wrapf "failed to run prompt form: %w" []
             (Errorf "terminal closed" []))).
Proof.
  apply (proj2 (exit_and_abort_end_the_session_cleanly _ studio studioConfig
                  0 [] onSketch) (Errorf "terminal closed" []));
    reflexivity.
Defined.

End SessionExtra.

Module SettingsExtra.

Import providers cmd Spec SpecExtra Samples.

Lemma setValue_same (h : Store) (p : ptr) (v : string) :
  Value (setValue h p v p) = v /\
  Name (setValue h p v p) = Name (h p) /\
  Type_ (setValue h p v p) = Type_ (h p) /\
  DefaultValue (setValue h p v p) = DefaultValue (h p) /\
  DisplayName (setValue h p v p) = DisplayName (h p).
Proof. unfold setValue. rewrite Nat.eqb_refl. repeat split. Qed.

Lemma setValue_other (h : Store) (p q : ptr) (v : string) :
  q <> p -> setValue h p v q = h q.
Proof.
  intros Hne. unfold setValue. apply Nat.eqb_neq in Hne. rewrite Hne.
  reflexivity.
Qed.

(** Writing a value to a cell changes no cell's name, type, default or
    label. *)
Lemma setValue_frame (h : Store) (p q : ptr) (v : string) :
  Name (setValue h p v q) = Name (h q) /\
  Type_ (setValue h p v q) = Type_ (h q) /\
  DefaultValue (setValue h p v q) = DefaultValue (h q) /\
  DisplayName (setValue h p v q) = DisplayName (h q).
Proof.
  unfold setValue. destruct (Nat.eqb q p) eqn:E; [|repeat split].
  apply Nat.eqb_eq in E. subst q. repeat split.
Qed.

(** The cell [p] after the seeding step for the setting [m]. *)
Lemma seed_step (h : Store) (m p : ptr) :
  let h1 := if String.eqb (Value (h m)) ""
               && negb (String.eqb (DefaultValue (h m)) "")
            then setValue h m (DefaultValue (h m)) else h in
  Name (h1 p) = Name (h p) /\ Type_ (h1 p) = Type_ (h p) /\
  DefaultValue (h1 p) = DefaultValue (h p) /\
  DisplayName (h1 p) = DisplayName (h p) /\
  Value (h1 p) =
    if Nat.eqb p m && String.eqb (Value (h p)) ""
    then DefaultValue (h p) else Value (h p).
Proof.
  cbv zeta. destruct (Nat.eqb p m) eqn:Epm; cbn [andb].
  - apply Nat.eqb_eq in Epm. subst p.
    destruct (String.eqb (Value (h m)) "") eqn:Ev; cbn [andb];
      [|repeat split].
    destruct (String.eqb (DefaultValue (h m)) "") eqn:Ed; cbn [negb].
    + apply String.eqb_eq in Ev, Ed. rewrite Ev, Ed. repeat split.
    + destruct (setValue_same h m (DefaultValue (h m))) as (A & B & C & D & E).
      rewrite A, B, C, D, E. repeat split.
  - apply Nat.eqb_neq in Epm.
    destruct (_ && _); [rewrite setValue_other by exact Epm|]; repeat split.
Qed.

Lemma HuhGroup_cells (h : Store) (ms : ModelSettings) (p : ptr) :
  Name (fst (HuhGroup h ms) p) = Name (h p) /\
  Type_ (fst (HuhGroup h ms) p) = Type_ (h p) /\
  DefaultValue (fst (HuhGroup h ms) p) = DefaultValue (h p) /\
  DisplayName (fst (HuhGroup h ms) p) = DisplayName (h p) /\
  Value (fst (HuhGroup h ms) p) =
    if existsb (Nat.eqb p) ms && String.eqb (Value (h p)) ""
    then DefaultValue (h p) else Value (h p).
Proof.
  revert h. induction ms as [|m ms' IH]; intros h.
  - simpl. repeat split.
  - cbn [HuhGroup existsb].
    pose proof (seed_step h m p) as Hs. cbv zeta in Hs.
    set (h1 := if String.eqb (Value (h m)) ""
                  && negb (String.eqb (DefaultValue (h m)) "")
               then setValue h m (DefaultValue (h m)) else h) in *.
    specialize (IH h1).
    destruct (HuhGroup h1 ms') as [h2 fields]. cbn [fst] in *.
    destruct IH as (IN & IT & ID & IL & IV).
    destruct Hs as (FN & FT & FD & FL & FV).
    rewrite IN, IT, ID, IL, IV, FN, FT, FD, FL, FV.
    repeat split.
    destruct (Nat.eqb p m); cbn [andb orb]; [|reflexivity].
    destruct (String.eqb (Value (h p)) "") eqn:Ev.
    + destruct (existsb (Nat.eqb p) ms'); cbn [andb].
      * destruct (String.eqb (DefaultValue (h p)) ""); reflexivity.
      * reflexivity.
    + rewrite Ev, andb_false_r. reflexivity.
Qed.

Lemma HuhGroup_fields (h : Store) (ms : ModelSettings) :
  snd (HuhGroup h ms) = List.filter (fun p => hasField (Type_ (h p))) ms.
Proof.
  revert h. induction ms as [|m ms' IH]; intros h; [reflexivity|].
  cbn [HuhGroup List.filter].
  set (h1 := if String.eqb (Value (h m)) ""
                && negb (String.eqb (DefaultValue (h m)) "")
             then setValue h m (DefaultValue (h m)) else h).
  assert (Hframe : forall q, Type_ (h1 q) = Type_ (h q)).
  { intros q. subst h1. destruct (_ && _); [apply setValue_frame | reflexivity]. }
  specialize (IH h1). destruct (HuhGroup h1 ms') as [h2 fields].
  cbn [snd] in *. rewrite IH, Hframe.
  assert (Hf : List.filter (fun p => hasField (Type_ (h1 p))) ms' =
               List.filter (fun p => hasField (Type_ (h p))) ms').
  { apply List.filter_ext. intros q. rewrite Hframe. reflexivity. }
  rewrite Hf. reflexivity.
Qed.

(** X10: building the settings form changes nothing but values: a setting
    of the collection whose value is empty takes its default value, every
    other value stays, and no name, type, default or label changes; the
    form has one field for each setting of the collection whose type is
    known, in the order of the collection. *)
Theorem HuhGroup_seeds_empty_values :
  forall (h : Store) (ms : ModelSettings),
    (forall p,
       Name (fst (HuhGroup h ms) p) = Name (h p) /\
       Type_ (fst (HuhGroup h ms) p) = Type_ (h p) /\
       DefaultValue (fst (HuhGroup h ms) p) = DefaultValue (h p) /\
       DisplayName (fst (HuhGroup h ms) p) = DisplayName (h p) /\
       Value (fst (HuhGroup h ms) p) =
         if existsb (Nat.eqb p) ms && String.eqb (Value (h p)) ""
         then DefaultValue (h p) else Value (h p)) /\
    snd (HuhGroup h ms) = List.filter (fun p => hasField (Type_ (h p))) ms.
Proof.
  intros h ms. split; [intros p; apply HuhGroup_cells | apply HuhGroup_fields].
Qed.

Lemma writeFields_frame (h : Store) (fields : list ptr) (values : list string)
    (q : ptr) :
  Name (writeFields h fields values q) = Name (h q) /\
  Type_ (writeFields h fields values q) = Type_ (h q) /\
  DefaultValue (writeFields h fields values q) = DefaultValue (h q) /\
  DisplayName (writeFields h fields values q) = DisplayName (h q).
Proof.
  revert h values. induction fields as [|p fields' IH]; intros h values.
  - simpl. repeat split.
  - destruct values as [|v values']; [simpl; repeat split|].
    cbn [writeFields]. destruct (IH (setValue h p v) values') as (A & B & C & D).
    destruct (setValue_frame h p q v) as (A' & B' & C' & D').
    rewrite A, B, C, D. auto.
Qed.

Lemma writeFields_other (h : Store) (fields : list ptr) (values : list string)
    (q : ptr) :
  ~ In q fields -> writeFields h fields values q = h q.
Proof.
  revert h values. induction fields as [|p fields' IH]; intros h values Hq.
  - reflexivity.
  - destruct values as [|v values']; [reflexivity|].
    cbn [writeFields]. rewrite IH by (intros H; apply Hq; right; exact H).
    apply setValue_other. intros ->. apply Hq. left. reflexivity.
Qed.

Lemma writeFields_nth (h : Store) (fields : list ptr) (values : list string)
    (i : nat) (p : ptr) (v : string) :
  List.NoDup fields -> nth_error fields i = Some p -> nth_error values i = Some v ->
  Value (writeFields h fields values p) = v.
Proof.
  revert h values i. induction fields as [|q fields' IH]; intros h values i Hnd Hp Hv.
  - destruct i; discriminate.
  - destruct values as [|v0 values']; [destruct i; discriminate|].
    apply List.NoDup_cons_iff in Hnd as [Hq Hnd'].
    cbn [writeFields]. destruct i as [|i'].
    + simpl in Hp, Hv. injection Hp as <-. injection Hv as <-.
      rewrite writeFields_other by exact Hq.
      apply setValue_same.
    + simpl in Hp, Hv. eapply IH; eauto.
Qed.

(** X11: [/settings] followed by a submitted form stores the submitted
    values as they are, unchecked against the settings' types: when the
    collection points to distinct cells, the cell of the i-th field holds
    the i-th value; a cell that has no field holds what the seeding left
    in it; the model, its settings collection, the last prompt and the
    providers' state stay, and the round returns no error. *)
Theorem settings_command_stores_submitted_values :
  forall (W : Type) (registry : list (Provider W)) (cfg : config.Config)
         (values : list string) (rest : list FormResult) (st : State),
    List.NoDup (modelSettings st) ->
    exists st',
      run registry cfg (Submit ["/settings"] :: Submit values :: rest) st =
        Returned rest st' None /\
      model st' = model st /\ modelSettings st' = modelSettings st /\
      lastPrompt st' = lastPrompt st /\ world st' = world st /\
      (forall i p v,
         nth_error (List.filter (fun q => hasField (Type_ (cells st q)))
                      (modelSettings st)) i = Some p ->
         nth_error values i = Some v ->
         Value (cells st' p) = v) /\
      (forall q,
         ~ In q (List.filter (fun q => hasField (Type_ (cells st q)))
                   (modelSettings st)) ->
         cells st' q = fst (HuhGroup (cells st) (modelSettings st)) q).
Proof.
  intros W registry cfg values rest st Hnd.
  cbn [run hd]. cbn [prompt setPrompt].
  change (String.eqb "/settings" "/models") with false.
  change (String.eqb "/settings" "/settings") with true. cbv iota.
  unfold runSettings. cbn [cells modelSettings setPrompt].
  pose proof (HuhGroup_fields (cells st) (modelSettings st)) as Hf.
  destruct (HuhGroup (cells st) (modelSettings st)) as [h fields] eqn:E.
  cbn [snd fst] in *. subst fields.
  eexists. split; [reflexivity|]. cbn.
  repeat split.
  - intros i p v Hp Hv. eapply writeFields_nth; eauto.
    apply List.NoDup_filter. exact Hnd.
  - intros q Hq. apply writeFields_other. exact Hq.
Qed.

Lemma settings_command_stores_submitted_values_witness :
  exists st',
    run (googleOnly refusing) googleConfig [Submit ["/settings"]; Submit ["7"; "16:9"]]
      (onImagen loggedOut) = Returned [] st' None /\
    model st' = model (onImagen loggedOut) /\
    modelSettings st' = modelSettings (onImagen loggedOut) /\
    lastPrompt st' = lastPrompt (onImagen loggedOut) /\
    world st' = world (onImagen loggedOut) /\
    (forall i p v,
       nth_error (List.filter (fun q => hasField (Type_ (cells (onImagen loggedOut) q)))
                    (modelSettings (onImagen loggedOut))) i = Some p ->
       nth_error ["7"; "16:9"] i = Some v ->
       Value (cells st' p) = v) /\
    (forall q,
       ~ In q (List.filter (fun q => hasField (Type_ (cells (onImagen loggedOut) q)))
                 (modelSettings (onImagen loggedOut))) ->
       cells st' q =
       fst (HuhGroup (cells (onImagen loggedOut)) (modelSettings (onImagen loggedOut))) q).
Proof.
  apply (settings_command_stores_submitted_values _ (googleOnly refusing) googleConfig
           ["7"; "16:9"] [] (onImagen loggedOut)).
  repeat constructor; simpl; intuition discriminate.
Defined.

End SettingsExtra.

Module GoogleExtra.

Import providers cmd Spec SpecExtra Samples SamplesExtra.

(** X12: saving credentials and loading them again gives back the API key
    and nothing else of what was saved; saving changes neither the live
    client nor the files; without an [api_key] entry nothing is stored and
    the call fails. *)
Theorem SaveCredentials_then_LoadCredentials :
  forall (w : GoogleState (gmap (string * string) string))
         (credentials : gmap string string),
    match credentials !! "api_key" with
    | Some apiKey =>
        exists w1,
          Google_SaveCredentials credentials w = (w1, None) /\
          Google_LoadCredentials w1 = (w1, ({[ "api_key" := apiKey ]}, None)) /\
          client w1 = client w /\ files w1 = files w
    | None =>
        Google_SaveCredentials credentials w =
        (w, Some (Errorf "api_key not provided" []))
    end.
Proof.
  intros w credentials. unfold Google_SaveCredentials.
  destruct (credentials !! "api_key") as [apiKey|]; [|reflexivity].
  eexists. split; [reflexivity|]. split; [|split; reflexivity].
  unfold Google_LoadCredentials. cbn [keyring.Get keyring.mockProvider secrets withSecrets].
  rewrite lookup_insert_eq. reflexivity.
Qed.

Lemma not_logged_in {K : Type} `{!keyring.Keyring K} (env : Env)
    (modelName p : string) (h : Store) (settings : ModelSettings)
    (w : GoogleState K) :
  client w = None ->
  snd (keyring.Get keyringServiceName "google" (secrets w)) <> None ->
  Google_GenerateImage env modelName p h settings w =
  (w, ([], Some (Errorf "not logged in to Google" []))).
Proof.
  intros Hc Hget. unfold Google_GenerateImage, Google_LoadCredentials.
  rewrite Hc.
  destruct (keyring.Get keyringServiceName "google" (secrets w)) as [k [e|]];
    [reflexivity | contradiction].
Qed.

(** X13: a provider with no live client and no stored secret answers
    [GenerateImage] with "not logged in to Google", changes nothing, and
    asks nothing of the backend: the answer is the same in every
    environment. *)
Theorem GenerateImage_without_credentials :
  forall (K : Type) (KI : keyring.Keyring K) (env : Env)
         (modelName p : string) (h : Store) (settings : ModelSettings)
         (w : GoogleState K),
    client w = None ->
    snd (keyring.Get keyringServiceName "google" (secrets w)) <> None ->
    Google_GenerateImage env modelName p h settings w =
    (w, ([], Some (Errorf "not logged in to Google" []))).
Proof. intros. apply not_logged_in; assumption. Qed.

Lemma GenerateImage_without_credentials_witness :
  Google_GenerateImage (answering [pngImage]) "imagen-4.0-generate-001"
    "a lighthouse at dusk" googleCells googleSettings loggedOut =
  (loggedOut, ([], Some (Errorf "not logged in to Google" []))).
Proof.
  apply (GenerateImage_without_credentials _ _ (answering [pngImage])
           "imagen-4.0-generate-001" "a lighthouse at dusk" googleCells
           googleSettings loggedOut); [reflexivity | discriminate].
Defined.

(** X14: a login that fails while [GenerateImage] logs in lazily is
    returned under "failed to login to Google", the provider stays
    without a client, and the backend is not asked to generate. *)
Theorem GenerateImage_lazy_login_failure :
  forall (K : Type) (KI : keyring.Keyring K) (env : Env)
         (modelName p : string) (h : Store) (settings : ModelSettings)
         (w : GoogleState K) (apiKey : string) (err : error),
    client w = None ->
    keyring.Get keyringServiceName "google" (secrets w) = (apiKey, None) ->
    NewClient env apiKey = inr err ->
    Google_GenerateImage env modelName p h settings w =
    (w, ([], Some (Wrapf "failed to login to Google: %w" []
                     (Wrapf "failed to create GenAI client: %w" [] err)))).
Proof. intros. eapply GoogleProps.GenerateImage_login_fails; eassumption. Qed.

Lemma GenerateImage_lazy_login_failure_witness :
  Google_GenerateImage offline "imagen-4.0-generate-001"
    "a lighthouse at dusk" googleCells googleSettings loggedIn =
  (loggedIn,
   ([], Some (Wrapf "failed to login to Google: %w" []
                (Wrapf "failed to create GenAI client: %w" []
                   (Errorf "no route to host" []))))).
Proof.
  apply (GenerateImage_lazy_login_failure _ _ offline "imagen-4.0-generate-001"
           "a lighthouse at dusk" googleCells googleSettings loggedIn
           "secret-key" (Errorf "no route to host" []));
    reflexivity.
Defined.

(** X15: [Login] is idempotent: once a login has succeeded, every further
    [Login] succeeds and changes nothing, whatever credentials it is given
    and whatever the environment would answer. *)
Theorem Login_is_idempotent :
  forall (K : Type) (KI : keyring.Keyring K) (env env' : Env)
         (credentials credentials' : gmap string string)
         (w w' : GoogleState K),
    Google_Login env credentials w = (w', None) ->
    Google_Login env' credentials' w' = (w', None).
Proof.
  intros K KI env env' credentials credentials' w w' H.
  apply GoogleProps.Login_sets_client in H.
  unfold Google_Login. destruct (client w'); [reflexivity | contradiction].
Qed.

Lemma Login_is_idempotent_witness :
  Google_Login offline ∅
    (withClient loggedIn (Some {| genai.APIKey := "secret-key" |})) =
  (withClient loggedIn (Some {| genai.APIKey := "secret-key" |}), None).
Proof.
  apply (Login_is_idempotent _ _ refusing offline {[ "api_key" := "secret-key" ]}
           ∅ loggedIn).
  reflexivity.
Defined.

Section Invariants.

Context {K : Type} `{!keyring.Keyring K}.
Variable env : Env.

Lemma writeImages_keeps (dir nowDateTime : string)
    (imgs : list genai.GeneratedImage) (i : nat) (w : GoogleState K)
    (filePaths : list string) :
  client (fst (writeImages env dir nowDateTime imgs i w filePaths)) = client w /\
  secrets (fst (writeImages env dir nowDateTime imgs i w filePaths)) = secrets w /\
  forall path,
    is_Some (files w !! path) ->
    is_Some (files (fst (writeImages env dir nowDateTime imgs i w filePaths))
               !! path).
Proof.
  revert i w filePaths. induction imgs as [|img imgs' IH]; intros i w filePaths.
  - simpl. auto.
  - cbn [writeImages].
    destruct (extension (genai.MIMEType (genai.Image_ img))) as [ext|];
      [|simpl; auto].
    destruct (WriteFile env _ _); [simpl; auto|].
    match goal with
    | |- context [writeImages env dir nowDateTime imgs' (S i) ?w1 ?fp] =>
        destruct (IH (S i) w1 fp) as (Hc & Hs & Hf)
    end.
    rewrite Hc, Hs. split; [reflexivity|]. split; [reflexivity|].
    intros path Hpath. apply Hf. cbn [files withFile].
    destruct (decide (filepath_Join dir
                (nowDateTime ++ "_" ++ fmt_x i ++ "_" ++ ext)%string = path))
      as [->|Hne].
    + rewrite lookup_insert_eq. eauto.
    + rewrite lookup_insert_ne by exact Hne. exact Hpath.
Qed.

Lemma generateWith_keeps (c : genai.Client) (modelName p : string)
    (h : Store) (settings : ModelSettings) (w : GoogleState K) :
  client (fst (generateWith env c modelName p h settings w)) = client w /\
  secrets (fst (generateWith env c modelName p h settings w)) = secrets w /\
  forall path,
    is_Some (files w !! path) ->
    is_Some (files (fst (generateWith env c modelName p h settings w)) !! path).
Proof.
  unfold generateWith.
  destruct (GenerateImages env c modelName p _) as [resp|err]; [|simpl; auto].
  destruct (getOutDir env) as [dir [e|]]; [simpl; auto|].
  apply writeImages_keeps.
Qed.

End Invariants.

(** X16: [GenerateImage] never touches the secret store, never removes a
    file it or anything else has written, and never drops a live client:
    whatever it returns, the secrets are the same, every path that held a
    file still holds one, and a provider that had a client still has it. *)
Theorem GenerateImage_keeps_secrets_files_and_client :
  forall (K : Type) (KI : keyring.Keyring K) (env : Env)
         (modelName p : string) (h : Store) (settings : ModelSettings)
         (w : GoogleState K),
    secrets (fst (Google_GenerateImage env modelName p h settings w)) =
      secrets w /\
    (forall path,
       is_Some (files w !! path) ->
       is_Some (files (fst (Google_GenerateImage env modelName p h settings w))
                  !! path)) /\
    (forall c,
       client w = Some c ->
       client (fst (Google_GenerateImage env modelName p h settings w)) =
       Some c).
Proof.
  intros K KI env modelName p h settings w.
  unfold Google_GenerateImage.
  destruct (client w) as [c|] eqn:Ec.
  - destruct (generateWith_keeps env c modelName p h settings w) as (Hc & Hs & Hf).
    split; [exact Hs|]. split; [exact Hf|].
    intros c' [= <-]. rewrite Hc. exact Ec.
  - unfold Google_LoadCredentials.
    destruct (keyring.Get keyringServiceName "google" (secrets w)) as [k [e|]].
    + simpl. split; [reflexivity|]. split; [auto | discriminate].
    + unfold Google_Login. rewrite Ec.
      destruct (_ !! "api_key") as [apiKey|];
        [|simpl; split; [reflexivity|]; split; [auto | discriminate]].
      destruct (NewClient env apiKey) as [c|err];
        [|simpl; split; [reflexivity|]; split; [auto | discriminate]].
      cbn [client withClient].
      destruct (generateWith_keeps env c modelName p h settings
                  (withClient w (Some c))) as (Hc & Hs & Hf).
      split; [exact Hs|]. split; [exact Hf | discriminate].
Qed.

Lemma writeImages_result {K : Type} `{!keyring.Keyring K} (env : Env)
    (dir nowDateTime : string) (imgs : list genai.GeneratedImage) (i : nat)
    (w w' : GoogleState K) (filePaths : list string) :
  snd (writeImages env dir nowDateTime imgs i w filePaths) =
  snd (writeImages env dir nowDateTime imgs i w' filePaths).
Proof.
  revert i w w' filePaths.
  induction imgs as [|img imgs' IH]; intros i w w' filePaths; [reflexivity|].
  cbn [writeImages].
  destruct (extension (genai.MIMEType (genai.Image_ img))) as [ext|];
    [|reflexivity].
  destruct (WriteFile env _ _); [reflexivity | apply IH].
Qed.

Lemma generateWith_result {K : Type} `{!keyring.Keyring K} (env : Env)
    (c : genai.Client) (modelName p : string) (h : Store)
    (settings : ModelSettings) (w w' : GoogleState K) :
  snd (generateWith env c modelName p h settings w) =
  snd (generateWith env c modelName p h settings w').
Proof.
  unfold generateWith.
  destruct (GenerateImages env c modelName p _) as [resp|err]; [|reflexivity].
  destruct (getOutDir env) as [dir [e|]]; [reflexivity|].
  apply writeImages_result.
Qed.

(** X18: deleting the credentials does not log a live provider out: with
    a client, [GenerateImage] returns after [DeleteCredentials] what it
    returned before.  Only once [Close] has dropped the client as well
    does it answer "not logged in to Google". *)
Theorem DeleteCredentials_keeps_a_live_provider_generating :
  forall (env : Env) (modelName p : string) (h : Store)
         (settings : ModelSettings)
         (w : GoogleState (gmap (string * string) string)) (c : genai.Client),
    client w = Some c ->
    snd (Google_GenerateImage env modelName p h settings
           (fst (Google_DeleteCredentials w))) =
    snd (Google_GenerateImage env modelName p h settings w) /\
    snd (Google_GenerateImage env modelName p h settings
           (fst (Google_Close (fst (Google_DeleteCredentials w))))) =
    ([], Some (Errorf "not logged in to Google" [])).
Proof.
  intros env modelName p h settings w c Hc. split.
  - unfold Google_GenerateImage.
    rewrite GoogleProps.DeleteCredentials_returns_store_result.
    cbn [fst client withSecrets]. rewrite Hc. apply generateWith_result.
  - rewrite not_logged_in; [reflexivity | reflexivity |].
    rewrite GoogleProps.DeleteCredentials_returns_store_result.
    cbn [fst Google_Close secrets withClient withSecrets].
    cbn [keyring.Delete keyring.Get keyring.mockProvider].
    destruct (secrets w !! (keyringServiceName, "google")) eqn:E; cbn [fst].
    + rewrite lookup_delete_eq. discriminate.
    + rewrite E. discriminate.
Qed.

Lemma DeleteCredentials_keeps_a_live_provider_generating_witness :
  snd (Google_GenerateImage refusing "imagen-4.0-generate-001"
         "a lighthouse at dusk" googleCells googleSettings
         (fst (Google_DeleteCredentials
                 (withClient loggedIn (Some {| genai.APIKey := "secret-key" |}))))) =
  snd (Google_GenerateImage refusing "imagen-4.0-generate-001"
         "a lighthouse at dusk" googleCells googleSettings
         (withClient loggedIn (Some {| genai.APIKey := "secret-key" |}))) /\
  snd (Google_GenerateImage refusing "imagen-4.0-generate-001"
         "a lighthouse at dusk" googleCells googleSettings
         (fst (Google_Close
                 (fst (Google_DeleteCredentials
                         (withClient loggedIn
                            (Some {| genai.APIKey := "secret-key" |}))))))) =
  ([], Some (Errorf "not logged in to Google" [])).
Proof.
  apply (DeleteCredentials_keeps_a_live_provider_generating refusing
           "imagen-4.0-generate-001" "a lighthouse at dusk" googleCells
           googleSettings
           (withClient loggedIn (Some {| genai.APIKey := "secret-key" |}))
           {| genai.APIKey := "secret-key" |}).
  reflexivity.
Defined.

End GoogleExtra.

Module PathsExtra.

Import providers cmd Spec SpecExtra Samples.

Lemma to_hex_uint_not_Nil (n : nat) : Nat.to_hex_uint n <> Hexadecimal.Nil.
Proof.
  intros H. pose proof (HexadecimalNat.Unsigned.of_to n) as Hof.
  rewrite H in Hof. simpl in Hof. subst n. discriminate H.
Qed.

Lemma fmt_x_inj (i j : nat) : fmt_x i = fmt_x j -> i = j.
Proof.
  unfold fmt_x. intros H.
  apply HexadecimalNat.Unsigned.to_uint_inj.
  pose proof (HexadecimalString.NilZero.usu _ (to_hex_uint_not_Nil i)) as Hi.
  pose proof (HexadecimalString.NilZero.usu _ (to_hex_uint_not_Nil j)) as Hj.
  rewrite H in Hi. rewrite Hi in Hj. injection Hj as Hj. exact Hj.
Qed.

Lemma hex_no_underscore (d : Hexadecimal.uint) :
  hasByte "_" (HexadecimalString.NilEmpty.string_of_uint d) = false.
Proof. induction d; simpl; auto. Qed.

Lemma fmt_x_no_underscore (i : nat) : hasByte "_" (fmt_x i) = false.
Proof.
  unfold fmt_x, HexadecimalString.NilZero.string_of_uint.
  destruct (Nat.to_hex_uint i); try apply hex_no_underscore. reflexivity.
Qed.

Lemma append_inv_head (a x y : string) :
  (a ++ x)%string = (a ++ y)%string -> x = y.
Proof.
  induction a as [|c a' IH]; simpl; [auto|].
  intros [= H]. auto.
Qed.

(** Two strings cut at a byte that neither has before the cut are cut at
    the same place. *)
Lemma cut_unique (c : ascii) (a b x y : string) :
  hasByte c a = false -> hasByte c b = false ->
  (a ++ String c x)%string = (b ++ String c y)%string -> a = b.
Proof.
  revert b. induction a as [|ca a' IH]; intros [|cb b'] Ha Hb; simpl in *.
  - reflexivity.
  - intros [= -> _]. rewrite Ascii.eqb_refl in Hb. discriminate.
  - intros [= -> _]. rewrite Ascii.eqb_refl in Ha. discriminate.
  - apply orb_false_iff in Ha, Hb. destruct Ha as [_ Ha'], Hb as [_ Hb'].
    intros [= -> Heq]. f_equal. eapply IH; eauto.
Qed.

Lemma filepath_Join_inj (dir x y : string) :
  filepath_Join dir x = filepath_Join dir y -> x = y.
Proof.
  unfold filepath_Join. destruct (String.eqb dir ""); [auto|].
  intros H. apply append_inv_head in H. simpl in H. injection H as H. exact H.
Qed.

Lemma imagePath_inj (dir nowDateTime : string) (i j : nat)
    (img img' : genai.GeneratedImage) :
  imagePath dir nowDateTime i img = imagePath dir nowDateTime j img' -> i = j.
Proof.
  unfold imagePath. intros H. apply filepath_Join_inj in H.
  apply append_inv_head in H. simpl in H. injection H as H'.
  apply fmt_x_inj. eapply cut_unique; [| |exact H']; apply fmt_x_no_underscore.
Qed.

Lemma allPaths_index (dir nowDateTime : string)
    (imgs : list genai.GeneratedImage) (i : nat) (path : string) :
  In path (allPaths dir nowDateTime imgs i) ->
  exists k img, i <= k /\ path = imagePath dir nowDateTime k img.
Proof.
  revert i. induction imgs as [|img imgs' IH]; intros i; simpl; [contradiction|].
  intros [<-|Hin].
  - exists i, img. auto.
  - destruct (IH _ Hin) as (k & img' & Hk & ->). exists k, img'. split; [lia | reflexivity].
Qed.

Lemma imagePath_fresh (dir nowDateTime : string)
    (imgs : list genai.GeneratedImage) (i : nat) (img : genai.GeneratedImage) :
  ~ In (imagePath dir nowDateTime i img) (allPaths dir nowDateTime imgs (S i)).
Proof.
  intros Hin. apply allPaths_index in Hin. destruct Hin as (k & img' & Hk & Heq).
  apply imagePath_inj in Heq. lia.
Qed.

Lemma allPaths_NoDup (dir nowDateTime : string)
    (imgs : list genai.GeneratedImage) (i : nat) :
  List.NoDup (allPaths dir nowDateTime imgs i).
Proof.
  revert i. induction imgs as [|img imgs' IH]; intros i; simpl; constructor.
  - apply imagePath_fresh.
  - apply IH.
Qed.

Section Written.

Context {K : Type} `{!keyring.Keyring K}.
Variable env : Env.
Variables dir nowDateTime : string.

Lemma writeAll_other (imgs : list genai.GeneratedImage) (i : nat)
    (w : GoogleState K) (path : string) :
  ~ In path (allPaths dir nowDateTime imgs i) ->
  files (writeAll dir nowDateTime imgs i w) !! path = files w !! path.
Proof.
  revert i w. induction imgs as [|img imgs' IH]; intros i w Hnot; [reflexivity|].
  cbn [writeAll]. rewrite IH by (intros Hin; apply Hnot; right; exact Hin).
  cbn [files withFile]. apply lookup_insert_ne.
  intros Heq. apply Hnot. left. exact Heq.
Qed.

Lemma writeAll_nth (imgs : list genai.GeneratedImage) (i : nat)
    (w : GoogleState K) (k : nat) (img : genai.GeneratedImage) :
  nth_error imgs k = Some img ->
  nth_error (allPaths dir nowDateTime imgs i) k =
    Some (imagePath dir nowDateTime (i + k) img) /\
  files (writeAll dir nowDateTime imgs i w)
    !! imagePath dir nowDateTime (i + k) img =
    Some (genai.ImageBytes (genai.Image_ img)).
Proof.
  revert i w k. induction imgs as [|img0 imgs' IH]; intros i w k Hk.
  - destruct k; discriminate.
  - destruct k as [|k'].
    + simpl in Hk. injection Hk as ->. rewrite Nat.add_0_r.
      split; [reflexivity|]. cbn [writeAll].
      rewrite writeAll_other by apply imagePath_fresh.
      cbn [files withFile]. apply lookup_insert_eq.
    + simpl in Hk. rewrite Nat.add_succ_r, <- Nat.add_succ_l.
      cbn [allPaths nth_error writeAll]. apply IH. exact Hk.
Qed.

(** A call of the loop that returns no error has accepted every image. *)
Lemma writeImages_success (imgs : list genai.GeneratedImage) (i : nat)
    (w w' : GoogleState K) (filePaths paths : list string) :
  writeImages env dir nowDateTime imgs i w filePaths = (w', (paths, None)) ->
  w' = writeAll dir nowDateTime imgs i w /\
  paths = filePaths ++ allPaths dir nowDateTime imgs i.
Proof.
  revert i w filePaths. induction imgs as [|img imgs' IH]; intros i w filePaths.
  - simpl. intros [= <- <-]. rewrite app_nil_r. auto.
  - destruct (imageError env dir nowDateTime i img) as [e|] eqn:E.
    + rewrite (GoogleProps.writeImages_rejected _ _ _ _ _ _ _ _ _ E).
      discriminate.
    + rewrite (GoogleProps.writeImages_accepted _ _ _ _ _ _ _ _ E).
      intros Hrun. apply IH in Hrun. destruct Hrun as [-> ->].
      split; [reflexivity|]. rewrite <- app_assoc. reflexivity.
Qed.

End Written.

(** X17: when [GenerateImage] succeeds it returns one path per image of
    the backend's answer, in order, no two of them equal, and after the
    call the file at the k-th path holds the bytes of the k-th image: no
    image of one call overwrites another. *)
Theorem GenerateImage_paths_are_distinct_files :
  forall (K : Type) (KI : keyring.Keyring K) (env : Env) (c : genai.Client)
         (modelName p : string) (h : Store) (settings : ModelSettings)
         (w w' : GoogleState K) (resp : genai.GenerateImagesResponse)
         (paths : list string),
    client w = Some c ->
    GenerateImages env c modelName p
      {| genai.NumberOfImages :=
           int32 (GetModelSettingInt h settings "number_of_images" 1);
         genai.AspectRatio :=
           GetModelSettingString h settings "aspect_ratio" "1:1";
         genai.IncludeRAIReason := true |} = inl resp ->
    Google_GenerateImage env modelName p h settings w = (w', (paths, None)) ->
    List.NoDup paths /\
    length paths = length (genai.GeneratedImages resp) /\
    forall k img,
      nth_error (genai.GeneratedImages resp) k = Some img ->
      exists path,
        nth_error paths k = Some path /\
        files w' !! path = Some (genai.ImageBytes (genai.Image_ img)).
Proof.
  intros K KI env c modelName p h settings w w' resp paths Hc Hgen Hrun.
  unfold Google_GenerateImage in Hrun. rewrite Hc in Hrun.
  unfold generateWith in Hrun. rewrite Hgen in Hrun.
  destruct (getOutDir env) as [dir [e|]]; [discriminate|].
  apply writeImages_success in Hrun. destruct Hrun as [-> ->]. simpl.
  split; [apply allPaths_NoDup|].
  split; [apply GoogleProps.allPaths_length|].
  intros k img Hk.
  destruct (writeAll_nth dir (Now env) (genai.GeneratedImages resp) 0 w k img Hk)
    as [Hp Hf].
  eexists. split; [exact Hp | exact Hf].
Qed.

Lemma GenerateImage_paths_are_distinct_files_witness :
  List.NoDup
    ["/home/user/Downloads/climage/2025-09-01T12:00:00Z_0_.png";
     "/home/user/Downloads/climage/2025-09-01T12:00:00Z_1_.png"] /\
  length
    ["/home/user/Downloads/climage/2025-09-01T12:00:00Z_0_.png";
     "/home/user/Downloads/climage/2025-09-01T12:00:00Z_1_.png"] =
  length [pngImage; pngImage] /\
  forall k img,
    nth_error [pngImage; pngImage] k = Some img ->
    exists path,
      nth_error
        ["/home/user/Downloads/climage/2025-09-01T12:00:00Z_0_.png";
         "/home/user/Downloads/climage/2025-09-01T12:00:00Z_1_.png"] k =
        Some path /\
      files
        (writeAll "/home/user/Downloads/climage" "2025-09-01T12:00:00Z"
           [pngImage; pngImage] 0
           (withClient loggedIn (Some {| genai.APIKey := "secret-key" |})))
        !! path = Some (genai.ImageBytes (genai.Image_ img)).
Proof.
  apply (GenerateImage_paths_are_distinct_files _ _
           (answering [pngImage; pngImage]) {| genai.APIKey := "secret-key" |}
           "imagen-4.0-generate-001" "a lighthouse at dusk" googleCells
           googleSettings
           (withClient loggedIn (Some {| genai.APIKey := "secret-key" |}))
           (writeAll "/home/user/Downloads/climage" "2025-09-01T12:00:00Z"
              [pngImage; pngImage] 0
              (withClient loggedIn (Some {| genai.APIKey := "secret-key" |})))
           {| genai.GeneratedImages := [pngImage; pngImage] |});
    reflexivity.
Defined.

End PathsExtra.

Module DefaultsExtra.

Import providers cmd Spec SpecExtra Samples.

Section Defaults.

Context {W : Type} {float64 : Type}.
Variable ParseFloat : string -> Z -> float64 * option strconv.NumError.
Variable registry : list (Provider W).
Variable cfg : config.Config.

Lemma applySettings_cons (h : Store) (s : ptr) (settings : ModelSettings) :
  configfile.applySettings ParseFloat cfg h (s :: settings) =
  configfile.applySettings ParseFloat cfg (applyOne ParseFloat cfg h s) settings.
Proof.
  cbn [configfile.applySettings]. unfold configfile.GetDefaultModelSetting, applyOne.
  destruct (config.DefaultModelSettings cfg !! Name (h s)); reflexivity.
Qed.

Lemma step_cells (h : Store) (s p : ptr) :
  Name (applyOne ParseFloat cfg h s p) = Name (h p) /\ Type_ (applyOne ParseFloat cfg h s p) = Type_ (h p) /\
  DefaultValue (applyOne ParseFloat cfg h s p) = DefaultValue (h p) /\
  DisplayName (applyOne ParseFloat cfg h s p) = DisplayName (h p) /\
  Value (applyOne ParseFloat cfg h s p) =
    (if Nat.eqb p s then userDefault ParseFloat cfg (h p) else Value (h p)) /\
  userDefault ParseFloat cfg (applyOne ParseFloat cfg h s p) = userDefault ParseFloat cfg (h p).
Proof.
  unfold applyOne, userDefault. destruct (Nat.eqb p s) eqn:Eps.
  - apply Nat.eqb_eq in Eps. subst p.
    destruct (config.DefaultModelSettings cfg !! Name (h s)) as [v|] eqn:Ed;
      [|rewrite Ed; repeat split].
    destruct (IsOfType ParseFloat v (Type_ (h s))) eqn:Et;
      [|rewrite Ed, Et; repeat split].
    destruct (SettingsExtra.setValue_same h s v) as (A & B & C & D & E).
    rewrite A, B, C, D, E, Ed, Et. repeat split.
  - apply Nat.eqb_neq in Eps.
    destruct (config.DefaultModelSettings cfg !! Name (h s)) as [v|];
      [|repeat split].
    destruct (IsOfType ParseFloat v (Type_ (h s))); [|repeat split].
    rewrite SettingsExtra.setValue_other by exact Eps. repeat split.
Qed.

Lemma applySettings_cells (h : Store) (settings : ModelSettings) (p : ptr) :
  Name (configfile.applySettings ParseFloat cfg h settings p) = Name (h p) /\
  Type_ (configfile.applySettings ParseFloat cfg h settings p) = Type_ (h p) /\
  DefaultValue (configfile.applySettings ParseFloat cfg h settings p) =
    DefaultValue (h p) /\
  DisplayName (configfile.applySettings ParseFloat cfg h settings p) =
    DisplayName (h p) /\
  Value (configfile.applySettings ParseFloat cfg h settings p) =
    (if existsb (Nat.eqb p) settings then userDefault ParseFloat cfg (h p)
     else Value (h p)) /\
  userDefault ParseFloat cfg (configfile.applySettings ParseFloat cfg h settings p) =
    userDefault ParseFloat cfg (h p).
Proof.
  revert h. induction settings as [|s settings' IH]; intros h.
  - simpl. repeat split.
  - rewrite applySettings_cons. cbn [existsb].
    destruct (IH (applyOne ParseFloat cfg h s)) as (IN & IT & ID & IL & IV & IU).
    destruct (step_cells h s p) as (SN & ST & SD & SL & SV & SU).
    rewrite IN, IT, ID, IL, IV, IU, SN, ST, SD, SL, SV, SU.
    repeat split.
    destruct (Nat.eqb p s); cbn [orb]; [|reflexivity].
    destruct (existsb (Nat.eqb p) settings'); reflexivity.
Qed.

Lemma rangeOver_apply (l : list (string * Model)) (h : Store) (p : ptr) :
  snd (rangeOver
         (fun _ m h' => (configfile.applySettings ParseFloat cfg h' (Settings m), true))
         l h) = true /\
  Name (fst (rangeOver
         (fun _ m h' => (configfile.applySettings ParseFloat cfg h' (Settings m), true))
         l h) p) = Name (h p) /\
  Type_ (fst (rangeOver
         (fun _ m h' => (configfile.applySettings ParseFloat cfg h' (Settings m), true))
         l h) p) = Type_ (h p) /\
  DefaultValue (fst (rangeOver
         (fun _ m h' => (configfile.applySettings ParseFloat cfg h' (Settings m), true))
         l h) p) = DefaultValue (h p) /\
  DisplayName (fst (rangeOver
         (fun _ m h' => (configfile.applySettings ParseFloat cfg h' (Settings m), true))
         l h) p) = DisplayName (h p) /\
  Value (fst (rangeOver
         (fun _ m h' => (configfile.applySettings ParseFloat cfg h' (Settings m), true))
         l h) p) =
    if existsb (fun km => existsb (Nat.eqb p) (Settings (snd km))) l
    then userDefault ParseFloat cfg (h p) else Value (h p).
Proof.
  revert h. induction l as [|[k m] l' IH]; intros h.
  - simpl. repeat split.
  - cbn [rangeOver existsb snd].
    destruct (IH (configfile.applySettings ParseFloat cfg h (Settings m)))
      as (Ic & IN & IT & ID & IL & IV).
    destruct (applySettings_cells h (Settings m) p)
      as (SN & ST & SD & SL & SV & SU).
    rewrite Ic, IN, IT, ID, IL, IV, SN, ST, SD, SL, SV, SU.
    repeat split.
    destruct (existsb (Nat.eqb p) (Settings m)); cbn [orb]; [|reflexivity].
    destruct (existsb _ l'); reflexivity.
Qed.

Lemma applyDefaults_cells (h : Store) (p : ptr) :
  Name (configfile.applyDefaults ParseFloat registry cfg h p) = Name (h p) /\
  Type_ (configfile.applyDefaults ParseFloat registry cfg h p) = Type_ (h p) /\
  DefaultValue (configfile.applyDefaults ParseFloat registry cfg h p) =
    DefaultValue (h p) /\
  DisplayName (configfile.applyDefaults ParseFloat registry cfg h p) =
    DisplayName (h p) /\
  Value (configfile.applyDefaults ParseFloat registry cfg h p) =
    if reachable registry cfg p then userDefault ParseFloat cfg (h p)
    else Value (h p).
Proof.
  unfold configfile.applyDefaults.
  rewrite IteratorExtra.GetModels_rangeOver.
  destruct (rangeOver_apply (config.allModels registry cfg) h p)
    as (_ & A & B & C & D & E).
  auto.
Qed.

End Defaults.

(** X19: [GetConfig] writes to the settings' cells only when the file
    decodes, and then only to values: the value of a setting of a yielded
    model becomes the user's default of its name when there is one and it
    is of the setting's type, and stays otherwise; no other cell and no
    name, type, default or label changes.  A file that does not exist
    gives the empty configuration and no error; every other failure gives
    the empty configuration and an error. *)
Theorem GetConfig_applies_valid_defaults_only :
  forall (W float64 : Type)
         (ParseFloat : string -> Z -> float64 * option strconv.NumError)
         (registry : list (Provider W)) (read : configfile.FileRead)
         (h : Store),
    match read with
    | configfile.Decoded cfg =>
        fst (configfile.GetConfig ParseFloat registry read h) = (cfg, None) /\
        forall p,
          Name (snd (configfile.GetConfig ParseFloat registry read h) p) =
            Name (h p) /\
          Type_ (snd (configfile.GetConfig ParseFloat registry read h) p) =
            Type_ (h p) /\
          DefaultValue (snd (configfile.GetConfig ParseFloat registry read h) p) =
            DefaultValue (h p) /\
          DisplayName (snd (configfile.GetConfig ParseFloat registry read h) p) =
            DisplayName (h p) /\
          Value (snd (configfile.GetConfig ParseFloat registry read h) p) =
            if reachable registry cfg p
            then userDefault ParseFloat cfg (h p) else Value (h p)
    | configfile.NotExist =>
        configfile.GetConfig ParseFloat registry read h =
        ((configfile.zeroConfig, None), h)
    | _ =>
        fst (fst (configfile.GetConfig ParseFloat registry read h)) =
          configfile.zeroConfig /\
        snd (fst (configfile.GetConfig ParseFloat registry read h)) <> None /\
        snd (configfile.GetConfig ParseFloat registry read h) = h
    end.
Proof.
  intros W float64 ParseFloat registry read h.
  destruct read as [err| |err|err|cfg]; cbn [configfile.GetConfig fst snd];
    try (split; [reflexivity | split; [discriminate | reflexivity]]).
  - reflexivity.
  - split; [reflexivity|]. intros p. apply applyDefaults_cells.
Qed.

End DefaultsExtra.

Module AuthExtra.

Import providers cmd Spec SpecExtra Samples.

Section Auth.

Context {W : Type}.
Variable registry : list (Provider W).
Variable ReadFile : string -> auth.FileContent.
Variable EncodeToString : list Byte.byte -> string.
Variable Save : config.Config -> option error.

Lemma providerNames_spec (cfg : config.Config) (a : string) :
  In a (auth.providerNames registry cfg) <->
  In a (GetProviderNames registry) /\
  ~ In a (map config.Name (config.Providers cfg)).
Proof.
  unfold auth.providerNames. rewrite List.filter_In.
  split; intros [Hreg Hcfg]; split; try exact Hreg.
  - intros Hin. apply in_map_iff in Hin. destruct Hin as (b & <- & Hb).
    apply negb_true_iff in Hcfg.
    assert (Hex : existsb (fun b0 => String.eqb (config.Name b) (config.Name b0))
                    (config.Providers cfg) = true).
    { apply existsb_exists. exists b. split; [exact Hb | apply String.eqb_refl]. }
    congruence.
  - apply negb_true_iff. destruct (existsb _ _) eqn:E; [|reflexivity].
    apply existsb_exists in E. destruct E as (b & Hb & Heq).
    apply String.eqb_eq in Heq. exfalso. apply Hcfg. apply in_map_iff.
    exists b. auto.
Qed.

Lemma login_saved (cfg : config.Config) (sel : string)
    (rest : list FormResult) (w w' : W) (cfg' : config.Config)
    (err : option error) :
  auth.authLogin registry ReadFile EncodeToString Save (cfg, None)
    (Submit [sel] :: rest) w = auth.Done w' (Some cfg') err ->
  In sel (auth.providerNames registry cfg) ->
  exists provider values rest' credentials w1,
    GetProviderByName registry sel = (Some provider, None) /\
    rest = Submit values :: rest' /\
    Login provider credentials w = (w1, None) /\
    SaveCredentials provider credentials w1 = (w', None) /\
    cfg' = {| config.Providers :=
                config.Providers cfg ++ [{| config.Name := sel |}];
              config.DefaultModel := config.DefaultModel cfg;
              config.DefaultModelSettings := config.DefaultModelSettings cfg |} /\
    err = match Save cfg' with
          | Some e => Some (Wrapf "failed to save config: %w" [] e)
          | None => None
          end.
Proof.
  intros Hrun Hsel. unfold auth.authLogin in Hrun.
  destruct (auth.providerNames registry cfg) as [|first names];
    [contradiction|].
  cbn [hd] in Hrun. unfold auth.loginWith in Hrun.
  destruct (GetProviderByName registry sel) as [[provider|] [e|]];
    try discriminate.
  destruct rest as [|[values|e] rest']; try discriminate.
  destruct (auth.readFiles ReadFile EncodeToString (GetLoginFields provider) _)
    as [credentials [e|]]; [discriminate|].
  destruct (Login provider credentials w) as [w1 [e|]] eqn:EL; [discriminate|].
  destruct (SaveCredentials provider credentials w1) as [w2 [e|]] eqn:ES;
    [discriminate|].
  exists provider, values, rest', credentials, w1.
  destruct (Save _) as [e|] eqn:Esave; injection Hrun as <- <- <-;
    rewrite ?Esave; repeat split; auto.
Qed.

End Auth.

(** X20: [auth login] hands a configuration to [Save] only after both
    [Login] and [SaveCredentials] of the selected provider succeeded, and
    what it hands over is the old configuration with the selected name
    appended and nothing else changed.  The selection being one of the
    names offered (registered, not configured), a configuration without
    duplicate names stays without duplicates. *)
Theorem login_appends_the_selected_provider :
  forall (W : Type) (registry : list (Provider W))
         (ReadFile : string -> auth.FileContent)
         (EncodeToString : list Byte.byte -> string)
         (Save : config.Config -> option error)
         (cfg : config.Config) (sel : string) (rest : list FormResult)
         (w w' : W) (cfg' : config.Config) (err : option error),
    In sel (auth.providerNames registry cfg) ->
    List.NoDup (map config.Name (config.Providers cfg)) ->
    auth.authLogin registry ReadFile EncodeToString Save (cfg, None)
      (Submit [sel] :: rest) w = auth.Done w' (Some cfg') err ->
    (exists provider credentials w1,
       GetProviderByName registry sel = (Some provider, None) /\
       Login provider credentials w = (w1, None) /\
       SaveCredentials provider credentials w1 = (w', None)) /\
    map config.Name (config.Providers cfg') =
      map config.Name (config.Providers cfg) ++ [sel] /\
    List.NoDup (map config.Name (config.Providers cfg')) /\
    config.DefaultModel cfg' = config.DefaultModel cfg /\
    config.DefaultModelSettings cfg' = config.DefaultModelSettings cfg.
Proof.
  intros W registry ReadFile EncodeToString Save cfg sel rest w w' cfg' err
    Hsel Hnd Hrun.
  destruct (login_saved _ _ _ _ _ _ _ _ _ _ _ Hrun Hsel)
    as (provider & values & rest' & credentials & w1 & Hget & _ & HL & HS & -> & _).
  split; [exists provider, credentials, w1; auto|].
  cbn [config.Providers config.DefaultModel config.DefaultModelSettings].
  rewrite map_app. cbn [map config.Name].
  split; [reflexivity|]. split; [|auto].
  apply providerNames_spec in Hsel. destruct Hsel as [_ Hnot].
  apply List.NoDup_app; [exact Hnd | |].
  - repeat constructor. intros [].
  - intros a Ha [<-|[]]. contradiction.
Qed.

Lemma login_appends_the_selected_provider_witness :
  (exists provider credentials w1,
     GetProviderByName (googleOnly refusing) "google" = (Some provider, None) /\
     Login provider credentials loggedOut = (w1, None) /\
     SaveCredentials provider credentials w1 =
       (withClient loggedIn (Some {| genai.APIKey := "secret-key" |}), None)) /\
  map config.Name
    (config.Providers (mkConfig [{| config.Name := "google" |}] "")) =
    map config.Name (config.Providers (mkConfig [] "")) ++ ["google"] /\
  List.NoDup
    (map config.Name
       (config.Providers (mkConfig [{| config.Name := "google" |}] ""))) /\
  config.DefaultModel (mkConfig [{| config.Name := "google" |}] "") =
    config.DefaultModel (mkConfig [] "") /\
  config.DefaultModelSettings (mkConfig [{| config.Name := "google" |}] "") =
    config.DefaultModelSettings (mkConfig [] "").
Proof.
  apply (login_appends_the_selected_provider _ (googleOnly refusing)
           (fun _ => auth.CannotOpen (Errorf "no such file" []))
           (fun _ => "") (fun _ => None) (mkConfig [] "") "google"
           [Submit ["secret-key"]] loggedOut
           (withClient loggedIn (Some {| genai.APIKey := "secret-key" |}))
           (mkConfig [{| config.Name := "google" |}] "") None).
  - left. reflexivity.
  - constructor.
  - reflexivity.
Defined.

Section Logout.

Context {W : Type}.
Variable registry : list (Provider W).
Variable Save : config.Config -> option error.

Lemma logout_saved (cfg : config.Config) (sel : string)
    (rest : list FormResult) (w w' : W) (cfg' : config.Config)
    (err : option error) :
  auth.authLogout registry Save (cfg, None) (Submit [sel] :: rest) w =
    auth.Done w' (Some cfg') err ->
  exists provider,
    GetProviderByName registry sel = (Some provider, None) /\
    DeleteCredentials provider w = (w', None) /\
    cfg' = {| config.Providers :=
                List.filter
                  (fun p => negb (String.eqb (config.Name p) sel))
                  (config.Providers cfg);
              config.DefaultModel := config.DefaultModel cfg;
              config.DefaultModelSettings := config.DefaultModelSettings cfg |}.
Proof.
  unfold auth.authLogout.
  destruct (map config.Name (config.Providers cfg)) as [|first names];
    [discriminate|].
  cbn [hd].
  destruct (GetProviderByName registry sel) as [[provider|] [e|]];
    try discriminate.
  destruct (DeleteCredentials provider w) as [w1 [e|]] eqn:Hdel;
    [discriminate|].
  intros Hrun. exists provider.
  destruct (Save _); injection Hrun as <- <- _;
    (split; [reflexivity | split; [exact Hdel | reflexivity]]).
Qed.

Lemma filter_out_appended (ps : list config.Provider) (sel : string) :
  ~ In sel (map config.Name ps) ->
  List.filter (fun p => negb (String.eqb (config.Name p) sel))
    (ps ++ [{| config.Name := sel |}]) = ps.
Proof.
  induction ps as [|p ps' IH]; intros Hnot.
  - simpl. rewrite String.eqb_refl. reflexivity.
  - simpl. destruct (String.eqb (config.Name p) sel) eqn:E.
    + apply String.eqb_eq in E. exfalso. apply Hnot. left. exact E.
    + simpl. f_equal. apply IH. intros Hin. apply Hnot. right. exact Hin.
Qed.

End Logout.

(** X21: [auth logout] hands a configuration to [Save] only after the
    selected provider was found in the registry and its credentials were
    deleted; what it hands over has no entry of the selected name left,
    every other entry in its old place, and the defaults unchanged. *)
Theorem logout_removes_every_entry_of_the_name :
  forall (W : Type) (registry : list (Provider W))
         (Save : config.Config -> option error)
         (cfg : config.Config) (sel : string) (rest : list FormResult)
         (w w' : W) (cfg' : config.Config) (err : option error),
    auth.authLogout registry Save (cfg, None) (Submit [sel] :: rest) w =
      auth.Done w' (Some cfg') err ->
    (exists provider,
       GetProviderByName registry sel = (Some provider, None) /\
       DeleteCredentials provider w = (w', None)) /\
    ~ In sel (map config.Name (config.Providers cfg')) /\
    config.Providers cfg' =
      List.filter (fun p => negb (String.eqb (config.Name p) sel))
        (config.Providers cfg) /\
    config.DefaultModel cfg' = config.DefaultModel cfg /\
    config.DefaultModelSettings cfg' = config.DefaultModelSettings cfg.
Proof.
  intros W registry Save cfg sel rest w w' cfg' err Hrun.
  destruct (logout_saved _ _ _ _ _ _ _ _ _ Hrun) as (provider & Hget & Hdel & ->).
  split; [exists provider; auto|].
  cbn [config.Providers config.DefaultModel config.DefaultModelSettings].
  split; [|auto].
  intros Hin. apply in_map_iff in Hin. destruct Hin as (p & Hp & Hf).
  apply List.filter_In in Hf. destruct Hf as [_ Hf].
  apply negb_true_iff, String.eqb_neq in Hf. contradiction.
Qed.

Lemma logout_removes_every_entry_of_the_name_witness :
  (exists provider,
     GetProviderByName (googleOnly refusing) "google" = (Some provider, None) /\
     DeleteCredentials provider loggedIn = (loggedOut, None)) /\
  ~ In "google" (map config.Name (config.Providers (mkConfig [] "google/x"))) /\
  config.Providers (mkConfig [] "google/x") =
    List.filter (fun p => negb (String.eqb (config.Name p) "google"))
      (config.Providers
         (mkConfig [{| config.Name := "google" |}; {| config.Name := "google" |}]
            "google/x")) /\
  config.DefaultModel (mkConfig [] "google/x") =
    config.DefaultModel
      (mkConfig [{| config.Name := "google" |}; {| config.Name := "google" |}]
         "google/x") /\
  config.DefaultModelSettings (mkConfig [] "google/x") =
    config.DefaultModelSettings
      (mkConfig [{| config.Name := "google" |}; {| config.Name := "google" |}]
         "google/x").
Proof.
  apply (logout_removes_every_entry_of_the_name _ (googleOnly refusing)
           (fun _ => None)
           (mkConfig [{| config.Name := "google" |}; {| config.Name := "google" |}]
              "google/x")
           "google" [] loggedIn loggedOut (mkConfig [] "google/x") None).
  vm_compute. reflexivity.
Defined.

(** X22: logging in to a provider that was not configured and then
    logging out of it hands [Save] the configuration there was before the
    login. *)
Theorem login_then_logout_restores_the_configuration :
  forall (W : Type) (registry : list (Provider W))
         (ReadFile : string -> auth.FileContent)
         (EncodeToString : list Byte.byte -> string)
         (Save : config.Config -> option error)
         (cfg cfg1 cfg2 : config.Config) (sel : string)
         (rest rest' : list FormResult) (w w1 w2 : W)
         (err1 err2 : option error),
    In sel (auth.providerNames registry cfg) ->
    auth.authLogin registry ReadFile EncodeToString Save (cfg, None)
      (Submit [sel] :: rest) w = auth.Done w1 (Some cfg1) err1 ->
    auth.authLogout registry Save (cfg1, None) (Submit [sel] :: rest') w1 =
      auth.Done w2 (Some cfg2) err2 ->
    cfg2 = cfg.
Proof.
  intros W registry ReadFile EncodeToString Save cfg cfg1 cfg2 sel rest rest'
    w w1 w2 err1 err2 Hsel Hin Hout.
  destruct (login_saved _ _ _ _ _ _ _ _ _ _ _ Hin Hsel)
    as (_ & _ & _ & _ & _ & _ & _ & _ & _ & -> & _).
  destruct (logout_saved _ _ _ _ _ _ _ _ _ Hout) as (_ & _ & _ & ->).
  cbn [config.Providers config.DefaultModel config.DefaultModelSettings].
  apply providerNames_spec in Hsel. destruct Hsel as [_ Hnot].
  rewrite filter_out_appended by exact Hnot.
  destruct cfg; reflexivity.
Qed.

Lemma login_then_logout_restores_the_configuration_witness :
  mkConfig [] "" = mkConfig [] "".
Proof.
  apply (login_then_logout_restores_the_configuration _ (googleOnly refusing)
           (fun _ => auth.CannotOpen (Errorf "no such file" []))
           (fun _ => "") (fun _ => None) (mkConfig [] "")
           (mkConfig [{| config.Name := "google" |}] "") (mkConfig [] "")
           "google" [Submit ["secret-key"]] [] loggedOut
           (withClient loggedIn (Some {| genai.APIKey := "secret-key" |}))
           (withClient loggedOut (Some {| genai.APIKey := "secret-key" |}))
           None None).
  - left. reflexivity.
  - reflexivity.
  - reflexivity.
Defined.

(** X23: [auth logout] saves nothing when the selected provider is not
    registered, or when its credentials cannot be deleted: for the Google
    provider with no secret in the store the command fails with the
    store's not-found error, and the provider stays configured. *)
Theorem logout_without_secret_saves_nothing :
  forall (env : Env) (Save : config.Config -> option error)
         (cfg : config.Config) (rest : list FormResult)
         (w : GoogleState (gmap (string * string) string)),
    config.Providers cfg <> [] ->
    secrets w !! (keyringServiceName, "google") = None ->
    auth.authLogout (googleOnly env) Save (cfg, None)
      (Submit ["google"] :: rest) w =
    auth.Done w None
      (Some (Wrapf "failed to delete credentials: %w" [] keyring.ErrNotFound)) /\
    forall sel,
      sel <> "google" ->
      auth.authLogout (googleOnly env) Save (cfg, None)
        (Submit [sel] :: rest) w =
      auth.Done w None
        (Some (Wrapf "failed to get provider: %w" []
                 (Errorf "provider %q not found" [sel]))).
Proof.
  intros env Save cfg rest w Hne Hsecret. unfold auth.authLogout.
  destruct (config.Providers cfg) as [|p ps]; [contradiction|].
  cbn [map hd]. split.
  - cbn [GetProviderByName GetProviderByName_loop googleOnly GetName GoogleProvider].
    change (String.eqb "google" "google") with true. cbv iota.
    cbn [DeleteCredentials GoogleProvider].
    rewrite GoogleProps.DeleteCredentials_returns_store_result.
    cbn [keyring.Delete keyring.mockProvider]. rewrite Hsecret.
    cbn [fst snd]. destruct w; reflexivity.
  - intros sel Hsel.
    cbn [GetProviderByName GetProviderByName_loop googleOnly GetName GoogleProvider].
    assert (E : String.eqb "google" sel = false).
    { apply String.eqb_neq. congruence. }
    rewrite E. reflexivity.
Qed.

Lemma logout_without_secret_saves_nothing_witness :
  auth.authLogout (googleOnly refusing) (fun _ => None)
    (googleConfig, None) [Submit ["google"]] loggedOut =
  auth.Done loggedOut None
    (Some (Wrapf "failed to delete credentials: %w" [] keyring.ErrNotFound)).
Proof.
  apply (proj1 (logout_without_secret_saves_nothing refusing (fun _ => None)
                  googleConfig [] loggedOut ltac:(discriminate) eq_refl)).
Defined.

End AuthExtra.

Module ConfigExtra.

Import providers cmd Spec SpecExtra Samples SamplesExtra.

Lemma reachable_yielded {W : Type} (registry : list (Provider W))
    (cfg : config.Config) (key : string) (m : Model) (s : ptr) :
  In (key, m) (config.allModels registry cfg) -> In s (Settings m) ->
  reachable registry cfg s = true.
Proof.
  intros Hm Hs. unfold reachable. apply existsb_exists.
  exists (key, m). split; [exact Hm|]. cbn [snd].
  apply existsb_exists. exists s. split; [exact Hs | apply Nat.eqb_refl].
Qed.

Lemma firstNamed_In (h : Store) (ms : ModelSettings) (name : string)
    (c : ModelSetting) :
  firstNamed h ms name = Some c ->
  exists s, In s ms /\ c = h s /\ Name (h s) = name.
Proof.
  induction ms as [|s ms' IH]; cbn [firstNamed]; [discriminate|].
  destruct (String.eqb (Name (h s)) name) eqn:E.
  - intros [= <-]. exists s. apply String.eqb_eq in E.
    split; [left; reflexivity | split; [reflexivity | exact E]].
  - intros Hf. destruct (IH Hf) as (s' & Hin & Hc & Hn).
    exists s'. split; [right; exact Hin | split; assumption].
Qed.

Lemma firstNamed_ext (h h' : Store) (ms : ModelSettings) (name : string) :
  (forall s, Name (h' s) = Name (h s)) ->
  firstNamed h' ms name =
  match firstNamed h ms name with
  | Some _ =>
      match find (fun s => String.eqb (Name (h s)) name) ms with
      | Some s => Some (h' s)
      | None => None
      end
  | None => None
  end.
Proof.
  intros Hn. induction ms as [|s ms' IH]; cbn [firstNamed find];
    [reflexivity|].
  rewrite Hn. destruct (String.eqb (Name (h s)) name); [reflexivity|].
  exact IH.
Qed.

Lemma find_firstNamed (h : Store) (ms : ModelSettings) (name : string) :
  firstNamed h ms name =
  option_map h (find (fun s => String.eqb (Name (h s)) name) ms).
Proof.
  induction ms as [|s ms' IH]; cbn [firstNamed find]; [reflexivity|].
  destruct (String.eqb (Name (h s)) name); [reflexivity | exact IH].
Qed.

(** X24: a user default that is of its setting's type is what the
    accessors read once [GetConfig] has decoded the file: for a model the
    iterator yields, [GetModelSettingString] returns the default and
    never the fallback, and for an ["int"] setting [GetModelSettingInt]
    returns the number the default spells. *)
Theorem valid_default_is_read_back :
  forall (W float64 : Type)
         (ParseFloat : string -> Z -> float64 * option strconv.NumError)
         (registry : list (Provider W)) (cfg : config.Config) (h : Store)
         (key : string) (m : Model) (name v : string) (c : ModelSetting),
    In (key, m) (config.allModels registry cfg) ->
    firstNamed h (Settings m) name = Some c ->
    config.DefaultModelSettings cfg !! name = Some v ->
    IsOfType ParseFloat v (Type_ c) = true ->
    (forall d,
       GetModelSettingString
         (snd (configfile.GetConfig ParseFloat registry (configfile.Decoded cfg) h))
         (Settings m) name d = v) /\
    (Type_ c = "int" ->
     forall d,
       GetModelSettingInt
         (snd (configfile.GetConfig ParseFloat registry (configfile.Decoded cfg) h))
         (Settings m) name d = fst (strconv.Atoi v)).
Proof.
  intros W float64 ParseFloat registry cfg h key m name v c Hm Hc Hv Ht.
  cbn [configfile.GetConfig snd].
  set (h' := configfile.applyDefaults ParseFloat registry cfg h).
  assert (Hn : forall s, Name (h' s) = Name (h s)).
  { intros s. apply (DefaultsExtra.applyDefaults_cells ParseFloat registry cfg h s). }
  assert (Hf : firstNamed h' (Settings m) name <> None /\
               forall c', firstNamed h' (Settings m) name = Some c' ->
                          Value c' = v).
  { rewrite (firstNamed_ext h h') by exact Hn. rewrite Hc.
    rewrite find_firstNamed in Hc.
    destruct (find (fun s => String.eqb (Name (h s)) name) (Settings m))
      as [s|] eqn:Hfind; [|discriminate].
    injection Hc as Hc. split; [discriminate|]. intros c' [= <-].
    apply List.find_some in Hfind. destruct Hfind as [Hin Hname].
    apply String.eqb_eq in Hname.
    destruct (DefaultsExtra.applyDefaults_cells ParseFloat registry cfg h s)
      as (_ & _ & _ & _ & Hval).
    fold h' in Hval. rewrite Hval.
    rewrite (reachable_yielded registry cfg key m s Hm Hin).
    unfold userDefault. rewrite Hname, Hv, Hc, Ht. reflexivity. }
  destruct Hf as [Hsome Hval]. split.
  - intros d. rewrite AccessorProps.GetModelSettingString_firstNamed.
    destruct (firstNamed h' (Settings m) name) as [c'|]; [|contradiction].
    apply Hval. reflexivity.
  - intros Hint d. rewrite AccessorProps.GetModelSettingInt_firstNamed.
    destruct (firstNamed h' (Settings m) name) as [c'|]; [|contradiction].
    rewrite (Hval c' eq_refl).
    rewrite Hint in Ht. unfold IsOfType in Ht.
    change (String.eqb "int" "int") with true in Ht. cbv iota in Ht.
    destruct (snd (strconv.Atoi v)); [discriminate | reflexivity].
Qed.

Lemma valid_default_is_read_back_witness :
  (forall d,
     GetModelSettingString
       (snd (configfile.GetConfig (fun _ _ => (tt, None : option strconv.NumError))
               (googleOnly refusing) (configfile.Decoded threeImages)
               googleCells))
       googleSettings "number_of_images" d = "3") /\
  (Type_ (googleCells 0) = "int" ->
   forall d,
     GetModelSettingInt
       (snd (configfile.GetConfig (fun _ _ => (tt, None : option strconv.NumError))
               (googleOnly refusing) (configfile.Decoded threeImages)
               googleCells))
       googleSettings "number_of_images" d = fst (strconv.Atoi "3")).
Proof.
  apply (valid_default_is_read_back _ unit
           (fun _ _ => (tt, None : option strconv.NumError))
           (googleOnly refusing) threeImages googleCells
           "google/imagen-4.0-generate-001"
           {| ModelName := "imagen-4.0-generate-001";
              ModelDisplayName := "Imagen 4";
              Settings := googleSettings |}
           "number_of_images" "3" (googleCells 0)).
  - left. reflexivity.
  - reflexivity.
  - vm_compute. reflexivity.
  - vm_compute. reflexivity.
Defined.

(** X25: [GetDefaultModelSettingInt] accepts a default exactly when
    [GetDefaultModelSetting] finds it and [IsOfType] accepts it as an
    ["int"]; what it returns then is the number [strconv.Atoi] reads, and
    zero otherwise. *)
Theorem GetDefaultModelSettingInt_agrees_with_IsOfType :
  forall (float64 : Type)
         (ParseFloat : string -> Z -> float64 * option strconv.NumError)
         (cfg : config.Config) (setting : string),
    configfile.GetDefaultModelSettingInt cfg setting =
    if snd (configfile.GetDefaultModelSetting cfg setting)
       && IsOfType ParseFloat
            (fst (configfile.GetDefaultModelSetting cfg setting)) "int"
    then (fst (strconv.Atoi
                 (fst (configfile.GetDefaultModelSetting cfg setting))), true)
    else (0%Z, false).
Proof.
  intros float64 ParseFloat cfg setting.
  unfold configfile.GetDefaultModelSettingInt, configfile.GetDefaultModelSetting.
  destruct (config.DefaultModelSettings cfg !! setting) as [v|];
    cbn [fst snd andb]; [|reflexivity].
  unfold IsOfType. change (String.eqb "int" "int") with true. cbv iota.
  destruct (strconv.Atoi v) as [i [e|]]; reflexivity.
Qed.

(** X26: a default [IsOfType] accepts as a ["boolean"] is one
    [GetDefaultModelSettingBool] accepts, with the truth value
    [GetModelSettingBool] reads from a setting that holds it. *)
Theorem boolean_default_is_accepted_with_its_value :
  forall (float64 : Type)
         (ParseFloat : string -> Z -> float64 * option strconv.NumError)
         (cfg : config.Config) (setting v : string) (h : Store) (s : ptr)
         (d : bool),
    config.DefaultModelSettings cfg !! setting = Some v ->
    IsOfType ParseFloat v "boolean" = true ->
    Value (h s) = v ->
    configfile.GetDefaultModelSettingBool cfg setting =
      (GetModelSettingBool h [s] (Name (h s)) d, true).
Proof.
  intros float64 ParseFloat cfg setting v h s d Hv Ht Hs.
  unfold configfile.GetDefaultModelSettingBool. rewrite Hv.
  cbn [GetModelSettingBool]. rewrite String.eqb_refl, Hs.
  unfold IsOfType in Ht.
  change (String.eqb "boolean" "int") with false in Ht.
  change (String.eqb "boolean" "float") with false in Ht.
  change (String.eqb "boolean" "string") with false in Ht.
  change (String.eqb "boolean" "boolean") with true in Ht.
  cbv iota in Ht. apply orb_true_iff in Ht.
  destruct Ht as [Ht|Ht]; apply String.eqb_eq in Ht; subst v; reflexivity.
Qed.

Lemma boolean_default_is_accepted_with_its_value_witness :
  configfile.GetDefaultModelSettingBool verboseOn "verbose" =
    (GetModelSettingBool (setValue verboseCells 0 "true") [0]
       (Name (setValue verboseCells 0 "true" 0)) false, true).
Proof.
  apply (boolean_default_is_accepted_with_its_value unit
           (fun _ _ => (tt, None : option strconv.NumError))
           verboseOn "verbose" "true" (setValue verboseCells 0 "true") 0 false).
  - vm_compute. reflexivity.
  - reflexivity.
  - reflexivity.
Defined.

End ConfigExtra.

Module DownloadsExtra.

Import SpecExtra.

Lemma calls_cached (rs : list (string * option error)) (c : downloads.Cache) :
  downloads.once c = true ->
  calls rs c =
  repeat (downloads.cachedDir c, downloads.cacheErr c) (length rs).
Proof.
  intros Honce. induction rs as [|r rs' IH]; cbn [calls length repeat];
    [reflexivity|].
  unfold downloads.GetUserDownloadsDir. rewrite Honce. f_equal. exact IH.
Qed.

(** X27: [GetUserDownloadsDir] asks the platform once: every call
    returns what the first call returned, the directory or the error,
    whatever the platform would answer later. *)
Theorem GetUserDownloadsDir_returns_the_first_answer :
  forall (r : string * option error) (rs : list (string * option error)),
    calls (r :: rs) downloads.initial = repeat r (S (length rs)).
Proof.
  intros r rs. cbn [calls repeat].
  unfold downloads.GetUserDownloadsDir at 1. cbn [downloads.once downloads.initial].
  f_equal. rewrite calls_cached by reflexivity.
  cbn [downloads.cachedDir downloads.cacheErr]. destruct r; reflexivity.
Qed.

End DownloadsExtra.

Module CredentialsExtra.

Import providers cmd SamplesExtra.

Lemma formValues_other (fields : list LoginField) (values : list string)
    (m : gmap string string) (k : string) :
  ~ In k (map FieldName fields) ->
  auth.formValues fields values m !! k = m !! k.
Proof.
  revert values m. induction fields as [|f fields' IH]; intros values m Hk;
    cbn [auth.formValues]; [reflexivity|].
  rewrite IH by (intros Hin; apply Hk; right; exact Hin).
  apply lookup_insert_ne. intros Heq. apply Hk. left. exact Heq.
Qed.

Lemma formValues_nth (fields : list LoginField) (values : list string)
    (m : gmap string string) (i : nat) (f : LoginField) (v : string) :
  List.NoDup (map FieldName fields) ->
  nth_error fields i = Some f -> nth_error values i = Some v ->
  auth.formValues fields values m !! FieldName f = Some v.
Proof.
  revert values m i. induction fields as [|a fields' IH];
    intros values m i Hnd Hf Hv; [destruct i; discriminate|].
  cbn [map] in Hnd. apply List.NoDup_cons_iff in Hnd. destruct Hnd as [Ha Hnd].
  cbn [auth.formValues]. destruct i as [|i'].
  - injection Hf as ->. destruct values as [|v0 values']; [discriminate|].
    injection Hv as ->. cbn [hd tl].
    rewrite formValues_other by exact Ha. apply lookup_insert_eq.
  - destruct values as [|v0 values']; [discriminate|].
    cbn [nth_error] in Hf, Hv. cbn [tl]. exact (IH _ _ _ Hnd Hf Hv).
Qed.

Lemma same_name (fields : list LoginField) (f g : LoginField) :
  List.NoDup (map FieldName fields) -> In f fields -> In g fields ->
  FieldName f = FieldName g -> f = g.
Proof.
  induction fields as [|a fields' IH]; intros Hnd Hf Hg Heq; [contradiction|].
  cbn [map] in Hnd. apply List.NoDup_cons_iff in Hnd. destruct Hnd as [Ha Hnd].
  destruct Hf as [<-|Hf], Hg as [<-|Hg].
  - reflexivity.
  - exfalso. apply Ha. rewrite Heq. apply in_map. exact Hg.
  - exfalso. apply Ha. rewrite <- Heq. apply in_map. exact Hf.
  - exact (IH Hnd Hf Hg Heq).
Qed.

Section Files.

Variable ReadFile : string -> auth.FileContent.
Variable EncodeToString : list Byte.byte -> string.

Lemma readFiles_other (fields : list LoginField) (m m' : gmap string string)
    (k : string) :
  auth.readFiles ReadFile EncodeToString fields m = (m', None) ->
  (forall f, In f fields -> FieldName f = k ->
             String.eqb (FieldType f) "file" = false) ->
  m' !! k = m !! k.
Proof.
  revert m. induction fields as [|a fields' IH]; intros m Hrun Hk;
    cbn [auth.readFiles] in Hrun.
  - injection Hrun as ->. reflexivity.
  - assert (Hk' : forall f, In f fields' -> FieldName f = k ->
                            String.eqb (FieldType f) "file" = false).
    { intros f Hin. apply Hk. right. exact Hin. }
    destruct (String.eqb (FieldType a) "file") eqn:Et;
      [|exact (IH _ Hrun Hk')].
    destruct (m !! FieldName a) as [path|]; [|exact (IH _ Hrun Hk')].
    destruct (ReadFile path) as [e|e|b]; try discriminate.
    rewrite (IH _ Hrun Hk'). apply lookup_insert_ne.
    intros Heq. specialize (Hk a (or_introl eq_refl) Heq). congruence.
Qed.

Lemma readFiles_file (fields : list LoginField) (m m' : gmap string string)
    (f : LoginField) (path : string) :
  List.NoDup (map FieldName fields) ->
  auth.readFiles ReadFile EncodeToString fields m = (m', None) ->
  In f fields -> String.eqb (FieldType f) "file" = true ->
  m !! FieldName f = Some path ->
  exists b, ReadFile path = auth.Content b /\
            m' !! FieldName f = Some (EncodeToString b).
Proof.
  revert m. induction fields as [|a fields' IH];
    intros m Hnd Hrun Hin Ht Hm; [contradiction|].
  cbn [map] in Hnd. apply List.NoDup_cons_iff in Hnd. destruct Hnd as [Ha Hnd].
  assert (Hne : In f fields' -> FieldName a <> FieldName f).
  { intros Hin' Heq. apply Ha. rewrite Heq. apply in_map. exact Hin'. }
  cbn [auth.readFiles] in Hrun. destruct Hin as [<-|Hin].
  - rewrite Ht, Hm in Hrun.
    destruct (ReadFile path) as [e|e|b]; try discriminate.
    exists b. split; [reflexivity|].
    rewrite (readFiles_other _ _ _ _ Hrun).
    + apply lookup_insert_eq.
    + intros f' Hin' Heq. exfalso. apply Ha. rewrite <- Heq.
      apply in_map. exact Hin'.
  - destruct (String.eqb (FieldType a) "file");
      [|exact (IH _ Hnd Hrun Hin Ht Hm)].
    destruct (m !! FieldName a) as [p|]; [|exact (IH _ Hnd Hrun Hin Ht Hm)].
    destruct (ReadFile p) as [e|e|b]; try discriminate.
    apply (IH _ Hnd Hrun Hin Ht).
    rewrite lookup_insert_ne by (apply Hne; exact Hin). exact Hm.
Qed.

End Files.

(** X28: the credentials [auth login] hands to the provider, when the
    login fields have distinct names: under the name of each field, what
    the user entered for it; for a field of type ["file"], instead, the
    base64 encoding of the content of the file entered, which was read
    without error. *)
Theorem login_credentials_are_the_form_values :
  forall (ReadFile : string -> auth.FileContent)
         (EncodeToString : list Byte.byte -> string)
         (fields : list LoginField) (values : list string)
         (credentials : gmap string string) (i : nat) (f : LoginField)
         (v : string),
    List.NoDup (map FieldName fields) ->
    auth.readFiles ReadFile EncodeToString fields
      (auth.formValues fields values ∅) = (credentials, None) ->
    nth_error fields i = Some f -> nth_error values i = Some v ->
    if String.eqb (FieldType f) "file"
    then exists b, ReadFile v = auth.Content b /\
                   credentials !! FieldName f = Some (EncodeToString b)
    else credentials !! FieldName f = Some v.
Proof.
  intros ReadFile EncodeToString fields values credentials i f v
    Hnd Hrun Hf Hv.
  pose proof (formValues_nth fields values ∅ i f v Hnd Hf Hv) as Hform.
  pose proof (nth_error_In _ _ Hf) as Hin.
  destruct (String.eqb (FieldType f) "file") eqn:Et.
  - exact (readFiles_file ReadFile EncodeToString _ _ _ f v Hnd Hrun Hin Et Hform).
  - rewrite (readFiles_other ReadFile EncodeToString _ _ _ _ Hrun);
      [exact Hform|].
    intros f' Hin' Heq.
    assert (f' = f); [|subst f'; exact Et].
    exact (same_name fields f' f Hnd Hin' Hin Heq).
Qed.

Lemma login_credentials_are_the_form_values_witness :
  (if String.eqb (FieldType keyFile) "file"
   then exists b, oneFile "/home/u/key.json" = auth.Content b /\
                  ({[ "key_file" := "e30=" ; "project" := "demo" ]}
                     : gmap string string) !! FieldName keyFile =
                    Some (encodeSample b)
   else ({[ "key_file" := "e30=" ; "project" := "demo" ]}
           : gmap string string) !! FieldName keyFile =
          Some "/home/u/key.json").
Proof.
  apply (login_credentials_are_the_form_values oneFile encodeSample
           [projectField; keyFile] ["demo"; "/home/u/key.json"]
           {[ "key_file" := "e30=" ; "project" := "demo" ]} 1 keyFile
           "/home/u/key.json").
  - vm_compute. repeat constructor; simpl; intuition discriminate.
  - vm_compute. reflexivity.
  - reflexivity.
  - reflexivity.
Defined.

End CredentialsExtra.
